(** * oee-mongo: the keyword classifier and the sizing estimator

    A shallow embedding of the two scripts of the repository: the
    original [mongoAssess.js] (profiling, export, keyword analysis, metrics
    collection) and its enhanced version (the same plus sizing, modes 1-7).

    Conventions of the model.
    - A parsed JSON document is a value of [json]; an object is the list of
      its properties in enumeration order, which is the order [for ... in]
      visits them.  [JSON.parse] never yields two properties with one name;
      nothing below needs that.
    - A JavaScript number is modelled by [number]: an exact rational, [NaN]
      or a signed infinity.  Arithmetic is exact: the rounding of IEEE-754
      doubles is outside the model, and so is the sign of zero.
    - Keyword counters are integers ([Z]); they only ever grow by one.
    - A number read from a parsed JSON file is a rational ([Q]).
    - A property that may be absent is an [option]; [None] is [undefined].
    - A call that can throw returns a [completion]. *)

From Stdlib Require Import List String Ascii Bool ZArith QArith Qabs Qround Lia.
From Stdlib Require Import DecimalString DecimalNat.
From Stdlib Require Import Lqa.
Import ListNotations.

(** ** Completions: normal return or a thrown value *)

Record MongoError : Type := { codeName : option string; message : string }.

Inductive thrown : Type :=
| TypeError
| ServerError (error : MongoError).

Inductive completion (A : Type) : Type :=
| Normal (a : A)
| Throw (e : thrown).

Arguments Normal {A} a.
Arguments Throw {A} e.

Definition bind {A B : Type} (c : completion A) (k : A -> completion B)
  : completion B :=
  match c with
  | Normal a => k a
  | Throw e => Throw e
  end.

Notation "x <- c ;; k" := (bind c (fun x => k))
  (at level 61, c at next level, right associativity).

(** ** Numbers *)

Inductive number : Type :=
| Num (q : Q)
| NaN
| Infinity (negative : bool).

Definition Qlt_bool (a b : Q) : bool := negb (Qle_bool b a).

(** [a + b] *)
Definition js_add (a b : number) : number :=
  match a, b with
  | Num p, Num q => Num (p + q)
  | NaN, _ | _, NaN => NaN
  | Infinity s, Infinity t => if Bool.eqb s t then Infinity s else NaN
  | Infinity s, Num _ | Num _, Infinity s => Infinity s
  end.

(** [a * b] *)
Definition js_mul (a b : number) : number :=
  match a, b with
  | Num p, Num q => Num (p * q)
  | NaN, _ | _, NaN => NaN
  | Infinity s, Infinity t => Infinity (xorb s t)
  | Infinity s, Num q | Num q, Infinity s =>
      if Qeq_bool q 0 then NaN else Infinity (xorb s (Qlt_bool q 0))
  end.

(** [a / b]: a finite number over zero is an infinity, zero over zero is
    [NaN]. *)
Definition js_div (a b : number) : number :=
  match a, b with
  | Num p, Num q =>
      if Qeq_bool q 0
      then (if Qeq_bool p 0 then NaN else Infinity (Qlt_bool p 0))
      else Num (p / q)
  | NaN, _ | _, NaN => NaN
  | Infinity _, Infinity _ => NaN
  | Infinity s, Num q => Infinity (xorb s (Qlt_bool q 0))
  | Num _, Infinity _ => Num 0
  end.

(** [a > b]: false as soon as one side is [NaN]. *)
Definition js_gt (a b : number) : bool :=
  match a, b with
  | Num p, Num q => Qlt_bool q p
  | NaN, _ | _, NaN => false
  | Infinity s, Infinity t => negb s && t
  | Infinity s, Num _ => negb s
  | Num _, Infinity t => t
  end.

(** [Math.ceil(a)] *)
Definition Math_ceil (a : number) : number :=
  match a with
  | Num q => Num (inject_Z (Qceiling q))
  | other => other
  end.

(** Truthiness of a number: [0] and [NaN] are falsy. *)
Definition truthy (a : number) : bool :=
  match a with
  | Num q => negb (Qeq_bool q 0)
  | NaN => false
  | Infinity _ => true
  end.

(** [x || d] for a numeric property [x] of a parsed document, which may be
    absent. *)
Definition js_or (x : option Q) (d : number) : number :=
  match x with
  | Some q => if truthy (Num q) then Num q else d
  | None => d
  end.

(** The number an arithmetic or relational operator sees for such a
    property: [undefined] converts to [NaN]. *)
Definition ToNumber (x : option Q) : number :=
  match x with
  | Some q => Num q
  | None => NaN
  end.

(** [parseFloat(a.toFixed(digits))]: below [10^21] the magnitude is rounded
    to the nearest multiple of [10^-digits], a tie going up; from [10^21] on,
    and for [NaN] and the infinities, [toFixed] prints the number itself.
    This is the rounding of [toFixed] applied to the exact value computed
    here; the code applies it to the double it computed, and stores the
    result as a double again.  So where the exact value is within the
    rounding of a double of a tie, the code can give the neighbouring
    multiple (201 operations in 200 seconds: 1.01 here, 1 in the code), and
    nothing below bounds the distance between the value and what is
    shown. *)
Definition toFixed_round (digits : nat) (q : Q) : Q :=
  let scale := inject_Z (10 ^ Z.of_nat digits) in
  let magnitude := Qabs q in
  let n := Qfloor (magnitude * scale + (1 # 2))%Q in
  let rounded := (inject_Z n / scale)%Q in
  if Qlt_bool q 0 then (- rounded)%Q else rounded.

Definition parseFloat_toFixed (digits : nat) (a : number) : number :=
  match a with
  | Num q =>
      if Qle_bool (inject_Z (10 ^ 21)) (Qabs q) then Num q
      else Num (toFixed_round digits q)
  | other => other
  end.

Declare Scope js_scope.
Delimit Scope js_scope with js.
Bind Scope js_scope with number.
Infix "+" := js_add : js_scope.
Infix "*" := js_mul : js_scope.
Infix "/" := js_div : js_scope.
Infix ">" := js_gt : js_scope.

Coercion Num : Q >-> number.

(** Equality of numbers up to the representation of the rational. *)
Definition num_eq (a b : number) : Prop :=
  match a, b with
  | Num p, Num q => p == q
  | NaN, NaN => True
  | Infinity s, Infinity t => s = t
  | _, _ => False
  end.

Definition finite (a : number) : Prop := exists q : Q, a = Num q.

(** ** JSON documents *)

#[local] Unset Elimination Schemes.

Inductive json : Type :=
| JNull
| JBool (b : bool)
| JNum (q : Q)
| JStr (s : string)
| JArr (items : list json)
| JObj (fields : list (string * json)).

#[local] Set Elimination Schemes.

(** [obj[key]] on the property list of an object; [None] is [undefined]. *)
Fixpoint lookup {A : Type} (key : string) (fields : list (string * A))
  : option A :=
  match fields with
  | [] => None
  | (k, v) :: rest => if String.eqb k key then Some v else lookup key rest
  end.

(** The property name [for ... in] reports for index [i] of an array. *)
Definition index_key (i : nat) : string :=
  NilEmpty.string_of_uint (Nat.to_uint i).

(** [key.startsWith('$')] *)
Definition startsWith_dollar (key : string) : bool := String.prefix "$" key.

(** [list.includes(key)] on a list of strings *)
Definition includes (list : list string) (key : string) : bool :=
  existsb (String.eqb key) list.

(** ** Keyword catalog *)

Definition supported_keywords : list string :=
  ["$gt";"$gte";"$lt";"$and";"$not";"$or";"$nor";"$ne";"$eq";"$in";"$lte";"$nin";"$exists";"$type";
   "$regex";"$text";"$near";"$nearSphere";"$size";"$natural";"$inc";"$min";"$max";"$rename";"$set";
   "$addToSet";"$pop";"$pull";"$push";"$pullAll";"$each";"$position";"$sort";"$bit";"$count";"$limit";
   "$match";"$skip";"$slice";"$group";"$project";"$arrayElemAt"]%string.

Definition not_supported_keywords : list string :=
  ["$expr";"$jsonSchema";"$mod";"$geoIntersects";"$geoWithin";"$box";"$center";"$centerSphere";
   "$maxDistance";"$minDistance";"$polygon";"$all";"$bitsAllClear";"$bitsAllSet";"$bitsAnyClear";
   "$bitsAnySet";"$elemMatch";"$rand";"$currentData";"$mul";"$setOnInsert";"$abs";"$accumulator";
   "$acos";"$acosh";"$addFields";"$bucket";"$bucketAuto";"$changeStream";"$collStats";"$currentOp";
   "$densify";"$documents";"$facet";"$fill";"$geoNear";"$graphLookup";"$indexStats";"$lookup";"$merge";
   "$out";"$redact";"$replaceRoot";"$replaceWith";"$sample";"$search";"$searchMeta";"$setWindowFields";
   "$sortByCount";"$unionWith";"$unset";"$unwind";"$add";"$allElementsTrue";"$anyElementTrue";
   "$arrayToObject";"$asin";"$asinh";"$atan";"$atan2";"$atanh";"$avg";"$binarySize";"$bottom";
   "$bottomN";"$bsonSize";"$ceil";"$cmp";"$concat";"$concatArrays";"$cond";"$convert";"$cosh";
   "$covariancePop";"$covarianceSamp";"$dateAdd";"$dateDiff";"$dateFromParts";"$dateFromString";
   "$datesubtract";"$dateToParts";"$dateToString";"$dateTrunc";"$dayOfMonth";"$dayOfWeek";
   "$dayOfYear";"$degreesToRadians";"$denseRank";"$derivative";"$divide";"$documentNumber";"$exp";
   "$expMovingAvg";"$filter";"$first";"$firstN";"$floor";"$function";"$getField";"$hour";"$ifNull";
   "$indexOfArray";"$indexOfBytes";"$indexOfCP";"$integral";"$isArray";"$isNumber";"$isoDayOfWeek";
   "$isoWeek";"$isoWeekYear";"$last";"$lastN";"$let";"$linearFill";"$literal";"$ln";"$log";"$log10";
   "$ltrim";"$map";"$maxN";"$mergeObjects";"$meta";"$minN";"$millisecond";"$minute";"$month";
   "$multiply";"$objectToArray";"$pow";"$radiansToDegrees";"$range";"$rank";"$reduce";"$regexFind";
   "$regexFindAll";"$regexMatch";"$replaceOne";"$replaceAll";"$reverseArray";"$round";"$rtrim";
   "$sampleRate";"$second";"$setDifference";"$setEquals";"$setField";"$setIntersection";"$setIsSubset";
   "$setUnion";"$shift";"$sin";"$sinh";"$sortArray";"$split";"$sqrt";"$stsDevPop";"$stsDevSamp";
   "$strLenBytes";"$strcasecmp";"$strLenCP";"$substr";"$substrCP";"$subtract";"$sum";"$switch";
   "$tan";"$tanh";"$toBool";"$toDate";"$toDecimal";"$toDouble";"$toInt";"$toLong";"$toObjectId";
   "$top";"$topN";"$toString";"$toLower";"$toUpper";"$tsIncrement";"$tsSecond";"$trim";"$trunc";
   "$unsetField";"$week";"$year";"$zip"]%string.

(** ** Keyword dictionaries

    [supported_dictionary] and [not_supported_dictionary] are plain objects
    used as maps from keyword to count; a new keyword is added at the end. *)

Definition dictionary : Type := list (string * Z).

(** [d[key] = v] *)
Fixpoint dict_set (d : dictionary) (key : string) (v : Z) : dictionary :=
  match d with
  | [] => [(key, v)]
  | (k, old) :: rest =>
      if String.eqb k key then (k, v) :: rest
      else (k, old) :: dict_set rest key v
  end.

(** [c || 0] for a count that may be absent *)
Definition count_or_zero (c : option Z) : Z :=
  match c with
  | Some v => if (v =? 0)%Z then 0%Z else v
  | None => 0%Z
  end.

(** [d[key] = (d[key] || 0) + 1] *)
Definition increment (d : dictionary) (key : string) : dictionary :=
  dict_set d key (count_or_zero (lookup key d) + 1)%Z.

(** [Object.values(d).reduce((a, b) => a + b, 0)] *)
Definition sum_values (d : dictionary) : Z :=
  fold_left Z.add (map snd d) 0%Z.

(** ** Document classifier

    The catalog, [traverse] and [analyze_keywords] read the same in both
    scripts. *)

(** What [traverse] updates: the two dictionaries of the enclosing
    [analyze_keywords] and the [command_category] array it is handed. *)
Record scan : Type := {
  seen_supported : dictionary;
  seen_not_supported : dictionary;
  command_category : list string
}.

(** The body of the [for ... in] loop before the recursive call. *)
Definition visit_key (key : string) (st : scan) : scan :=
  if startsWith_dollar key then
    if includes supported_keywords key then
      {| seen_supported := increment (seen_supported st) key;
         seen_not_supported := seen_not_supported st;
         command_category := command_category st |}
    else if includes not_supported_keywords key then
      {| seen_supported := seen_supported st;
         seen_not_supported := increment (seen_not_supported st) key;
         command_category :=
           if negb (includes (command_category st) key)
           then command_category st ++ [key]
           else command_category st |}
    else st
  else st.

(** [for (let key in obj) body] on an object and on an array; for an array
    the keys are the indices, written in decimal. *)
Section ForIn.
Variables (A S : Type) (body : string -> A -> S -> S).

Fixpoint for_in_object (props : list (string * A)) (st : S) : S :=
  match props with
  | [] => st
  | (key, value) :: rest => for_in_object rest (body key value st)
  end.

Fixpoint for_in_array (i : nat) (elems : list A) (st : S) : S :=
  match elems with
  | [] => st
  | value :: rest => for_in_array (Datatypes.S i) rest (body (index_key i) value st)
  end.

End ForIn.

Arguments for_in_object {A S} body props st.
Arguments for_in_array {A S} body i elems st.

(** [traverse(obj, command_category)].  Arrays satisfy
    [typeof obj === 'object'] too, so they take the first branch and are
    walked by [for ... in] over their indices; the [Array.isArray] branch of
    the source is never reached. *)
Fixpoint traverse (obj : json) (st : scan) : scan :=
  match obj with
  | JObj fields =>
      for_in_object
        (fun key value st => traverse value (visit_key key st)) fields st
  | JArr items =>
      for_in_array
        (fun key value st => traverse value (visit_key key st)) 0 items st
  | _ => st
  end.

Record analysis : Type := {
  supported_dictionary : dictionary;
  not_supported_dictionary : dictionary;
  supported_commands : list json;
  not_supported_commands : list (json * list string)
}.

(** [entry.op]: reading a property of [null] throws; numbers, strings,
    booleans and arrays have no [op]. *)
Definition entry_op (entry : json) : completion (option json) :=
  match entry with
  | JNull => Throw TypeError
  | JObj fields => Normal (lookup "op" fields)
  | _ => Normal None
  end.

(** [op && op === 'command'] *)
Definition is_command (op : option json) : bool :=
  match op with
  | Some (JStr s) => String.eqb s "command"
  | _ => false
  end.

(** One call of the arrow function given to [data.forEach]. *)
Definition classify_entry (acc : analysis) (entry : json)
  : completion analysis :=
  op <- entry_op entry ;;
  if is_command op then
    let st := traverse entry
                {| seen_supported := supported_dictionary acc;
                   seen_not_supported := not_supported_dictionary acc;
                   command_category := [] |} in
    if (0 <? List.length (command_category st))%nat then
      Normal {| supported_dictionary := seen_supported st;
                not_supported_dictionary := seen_not_supported st;
                supported_commands := supported_commands acc;
                not_supported_commands :=
                  not_supported_commands acc ++ [(entry, command_category st)] |}
    else
      Normal {| supported_dictionary := seen_supported st;
                not_supported_dictionary := seen_not_supported st;
                supported_commands := supported_commands acc ++ [entry];
                not_supported_commands := not_supported_commands acc |}
  else Normal acc.

Fixpoint forEach_entry (data : list json) (acc : analysis)
  : completion analysis :=
  match data with
  | [] => Normal acc
  | entry :: rest =>
      acc' <- classify_entry acc entry ;;
      forEach_entry rest acc'
  end.

Definition analyze_keywords (data : list json) : completion analysis :=
  forEach_entry data
    {| supported_dictionary := [];
       not_supported_dictionary := [];
       supported_commands := [];
       not_supported_commands := [] |}.

(** ** Summary of the keyword analysis *)

Record summary : Type := {
  total_keywords : Z;
  total_supported : Z;
  total_not_supported : Z;
  supported_percent : number
}.

Definition summarize_keywords (supported_dictionary not_supported_dictionary : dictionary)
  : summary :=
  let total_supported := sum_values supported_dictionary in
  let total_not_supported := sum_values not_supported_dictionary in
  let total_keywords := (total_supported + total_not_supported)%Z in
  let supported_percent :=
    if (total_keywords >? 0)%Z
    then (Num (inject_Z total_supported) / Num (inject_Z total_keywords) * Num 100)%js
    else Num 0 in
  {| total_keywords := total_keywords;
     total_supported := total_supported;
     total_not_supported := total_not_supported;
     supported_percent := supported_percent |}.

(** ** Sizing estimator *)

(** The metrics snapshot written by [collect_lifetime_metrics], as a typed
    view of the parsed file: sub-documents are records and their numeric
    fields hold numbers, as [serverStatus] and [dbStats] report them.  The
    top-level fields, [opcounters.deprecated] and the sizes the code guards
    with [|| 0] may be absent.  Fields the sizing code does not read are
    left out, except [mem] and [memory], which hold an arbitrary document
    (the original script writes [memory], the enhanced one [mem]).  A file
    in which a sub-document is [null] is not such a snapshot: on it the
    code throws where it reads a property of the [null]; [MetricsFile]
    and [Loaded] below read the sizing mode on those files too. *)

Record Deprecated : Type := { deprecated_query : Q }.

Record Opcounters : Type := {
  insert : Q;
  query : Q;
  update : Q;
  delete : Q;
  getmore : Q;
  command : Q;
  deprecated : option Deprecated
}.

Record Connections : Type := { current : Q }.

Record Network : Type := { bytesIn : option Q; bytesOut : option Q }.

Record DbStats : Type := {
  dataSize : option Q;
  indexSize : option Q;
  totalSize : option Q
}.

Record Metrics : Type := {
  opcounters : option Opcounters;
  uptimeSeconds : option Q;
  connections : option Connections;
  mem : option json;
  memory : option json;
  network : option Network;
  dbStats : option (list (string * DbStats))
}.

(** The properties [for (const db in db_stats)] visits; the loop body runs
    zero times when [db_stats] is [undefined]. *)
Definition for_in_entries (db_stats : option (list (string * DbStats)))
  : list (string * DbStats) :=
  match db_stats with
  | Some entries => entries
  | None => []
  end.

Record cpu_result : Type := {
  total_operations : number;
  ops_per_sec : number;
  cpu_cores : number
}.

(** [ops_per_core] is an optional parameter with default 1500. *)
Definition calculate_cpu_cores (opcounters : Opcounters) (uptime_seconds : option Q)
    (ops_per_core : option Q) : cpu_result :=
  let ops_per_core : Q :=
    match ops_per_core with Some v => v | None => 1500 end in
  let total_operations := (
    insert opcounters +
    query opcounters +
    update opcounters +
    delete opcounters +
    getmore opcounters +
    command opcounters +
    match deprecated opcounters with
    | Some d => Num (deprecated_query d)
    | None => Num 0
    end)%js in
  let ops_per_sec :=
    if (ToNumber uptime_seconds > 0)%js
    then (total_operations / ToNumber uptime_seconds)%js
    else Num 0 in
  let cpu_cores := Math_ceil (ops_per_sec / ops_per_core)%js in
  {| total_operations := total_operations;
     ops_per_sec := ops_per_sec;
     cpu_cores := cpu_cores |}.

Record memory_result : Type := {
  working_set_size_mb : number;
  memory_required_mb : number
}.

Definition calculate_memory_requirements (mem_stats : option json)
    (db_stats : option (list (string * DbStats))) : memory_result :=
  let '(total_data_size, total_index_size) :=
    fold_left
      (fun '(total_data_size, total_index_size) '(db, stats) =>
         ((total_data_size + js_or (dataSize stats) 0)%js,
          (total_index_size + js_or (indexSize stats) 0)%js))
      (for_in_entries db_stats) (Num 0, Num 0) in
  let working_set_size_bytes := (total_data_size + total_index_size)%js in
  let working_set_size_mb := (working_set_size_bytes / (1024 * 1024))%js in
  let memory_required_mb := Math_ceil (working_set_size_mb * (3 # 2))%js in
  {| working_set_size_mb := working_set_size_mb;
     memory_required_mb := memory_required_mb |}.

Definition calculate_storage_requirements
    (db_stats : option (list (string * DbStats))) : number :=
  let total_storage :=
    fold_left
      (fun total_storage '(db, stats) =>
         (total_storage + js_or (totalSize stats) 0)%js)
      (for_in_entries db_stats) (Num 0) in
  let storage_required_bytes := Math_ceil (total_storage * (6 # 5))%js in
  storage_required_bytes.

Definition calculate_network_bandwidth (network_stats : Network)
    (uptime_seconds : option Q) : number :=
  let bytes_in := js_or (bytesIn network_stats) 0 in
  let bytes_out := js_or (bytesOut network_stats) 0 in
  let total_bytes := (bytes_in + bytes_out)%js in
  let total_mb := (total_bytes / (1024 * 1024))%js in
  let network_bandwidth_mb_sec :=
    if (ToNumber uptime_seconds > 0)%js
    then (total_mb / ToNumber uptime_seconds)%js
    else Num 0 in
  network_bandwidth_mb_sec.

Definition calculate_connection_limits (current_connections : Q) : number :=
  Math_ceil (current_connections * (3 # 2))%js.

(** The object [perform_sizing] returns, one field per key. *)
Record SizingResult : Type := {
  Total_Operations : number;
  Uptime_seconds : option Q;
  Operations_per_Second : number;
  CPU_Cores_Required : number;
  Working_Set_Size_MB : number;
  Memory_Required_MB : number;
  Storage_Required_Bytes : number;
  Network_Bandwidth_Required : number;
  Connection_Limits : number
}.

(** Reading a property of an absent sub-document throws. *)
Definition property_of {A : Type} (x : option A) : completion A :=
  match x with
  | Some a => Normal a
  | None => Throw TypeError
  end.

Definition perform_sizing (metrics : Metrics)
    (db_stats : option (list (string * DbStats))) : completion SizingResult :=
  oc <- property_of (opcounters metrics) ;;
  let cpu := calculate_cpu_cores oc (uptimeSeconds metrics) None in
  let memory_requirements :=
    calculate_memory_requirements (memory metrics) db_stats in
  let storage_required_bytes := calculate_storage_requirements db_stats in
  network_stats <- property_of (network metrics) ;;
  let network_bandwidth_mb_sec :=
    calculate_network_bandwidth network_stats (uptimeSeconds metrics) in
  conn <- property_of (connections metrics) ;;
  let connection_limits := calculate_connection_limits (current conn) in
  Normal
    {| Total_Operations := total_operations cpu;
       Uptime_seconds := uptimeSeconds metrics;
       Operations_per_Second := parseFloat_toFixed 2 (ops_per_sec cpu);
       CPU_Cores_Required := cpu_cores cpu;
       Working_Set_Size_MB :=
         parseFloat_toFixed 2 (working_set_size_mb memory_requirements);
       Memory_Required_MB := memory_required_mb memory_requirements;
       Storage_Required_Bytes := storage_required_bytes;
       Network_Bandwidth_Required :=
         parseFloat_toFixed 6 network_bandwidth_mb_sec;
       Connection_Limits := connection_limits |}.

(** ** Report renderer *)

(** [html_content] is built by appending blocks of markup; a block is kept
    as what it is and the data interpolated into it, not as text.  In order:
    the head up to the title, the summary with the two operator tables, the
    output of [summarize_sizing], the two listings of commands, the dump of
    the metrics, and the FAQ with the script and the closing tags. *)
Inductive block : Type :=
| ReportHead
| OperatorSummary (s : summary) (supported not_supported : dictionary)
| SizingRecommendations (sizing : SizingResult)
| SupportedCommandDetails (commands : list json)
| NotSupportedCommandDetails (commands : list (json * list string))
| MetricsCollected (metrics : Metrics)
| FAQ.

Inductive effect : Type :=
| console_log (text : string)
| writeFileSync (path : string) (content : list block).

(** [metrics] and [sizing] default to [null], here [None]. *)
Definition generate_html_report
    (supported_dictionary not_supported_dictionary : dictionary)
    (supported_commands : list json)
    (not_supported_commands : list (json * list string))
    (output_file : string)
    (metrics : option Metrics) (sizing : option SizingResult) : effect :=
  let s := summarize_keywords supported_dictionary not_supported_dictionary in
  let html_content := [ReportHead] in
  let html_content :=
    html_content
      ++ [OperatorSummary s supported_dictionary not_supported_dictionary] in
  let html_content :=
    match sizing with
    | Some sizing => html_content ++ [SizingRecommendations sizing]
    | None => html_content
    end in
  let html_content :=
    html_content ++ [SupportedCommandDetails supported_commands] in
  let html_content :=
    html_content ++ [NotSupportedCommandDetails not_supported_commands] in
  let html_content :=
    match metrics with
    | Some metrics => html_content ++ [MetricsCollected metrics]
    | None => html_content
    end in
  let html_content :=
    match metrics with
    | None => html_content ++ [FAQ]
    | Some _ => html_content
    end in
  writeFileSync output_file html_content.

Definition report_content (e : effect) : list block :=
  match e with
  | writeFileSync _ content => content
  | console_log _ => []
  end.

(** ** Mode 7: sizing from a metrics file *)

Definition required_fields : list string :=
  ["opcounters"; "uptimeSeconds"; "connections"; "mem"; "network"; "dbStats"]%string.

Definition present {A : Type} (x : option A) : bool :=
  match x with Some _ => true | None => false end.

(** [field in metrics_data] *)
Definition has_field (field : string) (metrics_data : Metrics) : bool :=
  if String.eqb field "opcounters" then present (opcounters metrics_data)
  else if String.eqb field "uptimeSeconds" then present (uptimeSeconds metrics_data)
  else if String.eqb field "connections" then present (connections metrics_data)
  else if String.eqb field "mem" then present (mem metrics_data)
  else if String.eqb field "memory" then present (memory metrics_data)
  else if String.eqb field "network" then present (network metrics_data)
  else if String.eqb field "dbStats" then present (dbStats metrics_data)
  else false.

Definition missing_fields (metrics_data : Metrics) : list string :=
  filter (fun field => negb (has_field field metrics_data)) required_fields.

(** The branch of [main] for mode 7, from the loaded [metrics_data] on;
    [base_name] and [timestamp] are the two parts of the output file name. *)
Definition mode_7 (metrics_data : Metrics) (base_name timestamp : string)
  : completion (list effect) :=
  let missing_fields := missing_fields metrics_data in
  if (0 <? List.length missing_fields)%nat then
    Normal
      [console_log
         ("Metrics JSON file is missing required fields: "
            ++ String.concat ", " missing_fields)%string]
  else
    sizing <- perform_sizing metrics_data (dbStats metrics_data) ;;
    let output_file :=
      (base_name ++ "_sizing_report_" ++ timestamp ++ ".html")%string in
    Normal
      [generate_html_report [] [] [] [] output_file
         (Some metrics_data) (Some sizing);
       console_log
         ("Sizing report has been generated and saved as '"
            ++ output_file ++ "'.")%string].

(** ** Metrics files as loaded

    [load_json] can return a file in which a sub-document is [null]: the
    property is there, so [in] finds it, and reading a property of it
    throws, as for an absent one.  The snapshots of [Metrics] are the files
    without such a [null].  Here the code of the sizing mode is read again
    on any file whose sub-documents are records, [null] or absent; what it
    does with a record is what the functions above do.  [mem] and [memory]
    hold any document, [JNull] included.  A [null] or any other value in
    place of a number, and a file that is not an object, stay outside. *)

Module MetricsFile.

(** What a key of the file gives where a sub-document is expected. *)
Inductive property (A : Type) : Type :=
| undefined
| null
| document (a : A).

Arguments undefined {A}.
Arguments null {A}.
Arguments document {A} a.

Record t : Type := {
  opcounters : property Opcounters;
  uptimeSeconds : option Q;
  connections : property Connections;
  mem : option json;
  memory : option json;
  network : property Network;
  dbStats : property (list (string * property DbStats))
}.

End MetricsFile.

Module Loaded.

(** Reading a property of [p]: [undefined] and [null] have none, and the
    attempt throws. *)
Definition properties_of {A : Type} (p : MetricsFile.property A)
  : completion A :=
  match p with
  | MetricsFile.document a => Normal a
  | MetricsFile.undefined => Throw TypeError
  | MetricsFile.null => Throw TypeError
  end.

(** The properties [for (const db in db_stats)] visits; the loop body runs
    zero times when [db_stats] is [undefined] or [null]. *)
Definition for_in_entries
    (db_stats : MetricsFile.property (list (string * MetricsFile.property DbStats)))
  : list (string * MetricsFile.property DbStats) :=
  match db_stats with
  | MetricsFile.document entries => entries
  | MetricsFile.undefined => []
  | MetricsFile.null => []
  end.

(** The loop over the databases: [body] reads properties of
    [db_stats[db]], which throws when that is [null]. *)
Fixpoint for_in_databases {S : Type} (body : S -> DbStats -> S)
    (entries : list (string * MetricsFile.property DbStats)) (acc : S)
  : completion S :=
  match entries with
  | [] => Normal acc
  | (db, stats) :: rest =>
      stats <- properties_of stats ;;
      for_in_databases body rest (body acc stats)
  end.

Definition calculate_memory_requirements (mem_stats : option json)
    (db_stats : MetricsFile.property (list (string * MetricsFile.property DbStats)))
  : completion memory_result :=
  totals <-
    for_in_databases
      (fun '(total_data_size, total_index_size) stats =>
         ((total_data_size + js_or (dataSize stats) 0)%js,
          (total_index_size + js_or (indexSize stats) 0)%js))
      (for_in_entries db_stats) (Num 0, Num 0) ;;
  let '(total_data_size, total_index_size) := totals in
  let working_set_size_bytes := (total_data_size + total_index_size)%js in
  let working_set_size_mb := (working_set_size_bytes / (1024 * 1024))%js in
  let memory_required_mb := Math_ceil (working_set_size_mb * (3 # 2))%js in
  Normal
    {| working_set_size_mb := working_set_size_mb;
       memory_required_mb := memory_required_mb |}.

Definition calculate_storage_requirements
    (db_stats : MetricsFile.property (list (string * MetricsFile.property DbStats)))
  : completion number :=
  total_storage <-
    for_in_databases
      (fun total_storage stats =>
         (total_storage + js_or (totalSize stats) 0)%js)
      (for_in_entries db_stats) (Num 0) ;;
  let storage_required_bytes := Math_ceil (total_storage * (6 # 5))%js in
  Normal storage_required_bytes.

Definition perform_sizing (metrics : MetricsFile.t)
    (db_stats : MetricsFile.property (list (string * MetricsFile.property DbStats)))
  : completion SizingResult :=
  oc <- properties_of (MetricsFile.opcounters metrics) ;;
  let cpu := calculate_cpu_cores oc (MetricsFile.uptimeSeconds metrics) None in
  memory_requirements <-
    calculate_memory_requirements (MetricsFile.memory metrics) db_stats ;;
  storage_required_bytes <- calculate_storage_requirements db_stats ;;
  network_stats <- properties_of (MetricsFile.network metrics) ;;
  let network_bandwidth_mb_sec :=
    calculate_network_bandwidth network_stats
      (MetricsFile.uptimeSeconds metrics) in
  conn <- properties_of (MetricsFile.connections metrics) ;;
  let connection_limits := calculate_connection_limits (current conn) in
  Normal
    {| Total_Operations := total_operations cpu;
       Uptime_seconds := MetricsFile.uptimeSeconds metrics;
       Operations_per_Second := parseFloat_toFixed 2 (ops_per_sec cpu);
       CPU_Cores_Required := cpu_cores cpu;
       Working_Set_Size_MB :=
         parseFloat_toFixed 2 (working_set_size_mb memory_requirements);
       Memory_Required_MB := memory_required_mb memory_requirements;
       Storage_Required_Bytes := storage_required_bytes;
       Network_Bandwidth_Required :=
         parseFloat_toFixed 6 network_bandwidth_mb_sec;
       Connection_Limits := connection_limits |}.

(** A key that holds [null] is in the file. *)
Definition in_file {A : Type} (p : MetricsFile.property A) : bool :=
  match p with
  | MetricsFile.undefined => false
  | MetricsFile.null => true
  | MetricsFile.document _ => true
  end.

(** [field in metrics_data] *)
Definition has_field (field : string) (metrics_data : MetricsFile.t) : bool :=
  if String.eqb field "opcounters"
  then in_file (MetricsFile.opcounters metrics_data)
  else if String.eqb field "uptimeSeconds"
  then present (MetricsFile.uptimeSeconds metrics_data)
  else if String.eqb field "connections"
  then in_file (MetricsFile.connections metrics_data)
  else if String.eqb field "mem" then present (MetricsFile.mem metrics_data)
  else if String.eqb field "memory"
  then present (MetricsFile.memory metrics_data)
  else if String.eqb field "network"
  then in_file (MetricsFile.network metrics_data)
  else if String.eqb field "dbStats"
  then in_file (MetricsFile.dbStats metrics_data)
  else false.

Definition missing_fields (metrics_data : MetricsFile.t) : list string :=
  filter (fun field => negb (has_field field metrics_data)) required_fields.

(** What the report keeps of the file for its dump of the metrics: the
    sub-documents that are records. *)
Definition record_of {A : Type} (p : MetricsFile.property A) : option A :=
  match p with
  | MetricsFile.document a => Some a
  | MetricsFile.undefined => None
  | MetricsFile.null => None
  end.

Fixpoint records_of {A : Type} (entries : list (string * MetricsFile.property A))
  : list (string * A) :=
  match entries with
  | [] => []
  | (key, p) :: rest =>
      match record_of p with
      | Some a => (key, a) :: records_of rest
      | None => records_of rest
      end
  end.

Definition snapshot_of (metrics_data : MetricsFile.t) : Metrics :=
  {| opcounters := record_of (MetricsFile.opcounters metrics_data);
     uptimeSeconds := MetricsFile.uptimeSeconds metrics_data;
     connections := record_of (MetricsFile.connections metrics_data);
     mem := MetricsFile.mem metrics_data;
     memory := MetricsFile.memory metrics_data;
     network := record_of (MetricsFile.network metrics_data);
     dbStats :=
       option_map records_of (record_of (MetricsFile.dbStats metrics_data)) |}.

(** The branch of [main] for mode 7, from the loaded [metrics_data] on. *)
Definition mode_7 (metrics_data : MetricsFile.t) (base_name timestamp : string)
  : completion (list effect) :=
  let missing_fields := missing_fields metrics_data in
  if (0 <? List.length missing_fields)%nat then
    Normal
      [console_log
         ("Metrics JSON file is missing required fields: "
            ++ String.concat ", " missing_fields)%string]
  else
    sizing <- perform_sizing metrics_data (MetricsFile.dbStats metrics_data) ;;
    let output_file :=
      (base_name ++ "_sizing_report_" ++ timestamp ++ ".html")%string in
    Normal
      [generate_html_report [] [] [] [] output_file
         (Some (snapshot_of metrics_data)) (Some sizing);
       console_log
         ("Sizing report has been generated and saved as '"
            ++ output_file ++ "'.")%string].

End Loaded.

(** ** Database gateway: purging the profile collection *)

(** The client is known by what [db.collection(name).drop()] settles to for
    a database and a collection name. *)
Record MongoClient : Type := {
  drop : string -> string -> completion bool
}.

(** [error.codeName === name] on a caught value *)
Definition has_codeName (error : thrown) (name : string) : bool :=
  match error with
  | ServerError e =>
      match codeName e with
      | Some c => String.eqb c name
      | None => false
      end
  | TypeError => false
  end.

(** The enhanced script.  The result pairs what was logged with how the
    call completes. *)
Definition purge_profiling_data (client : MongoClient) (db_name : string)
  : list effect * completion unit :=
  match drop client db_name "system.profile" with
  | Normal _ =>
      ([console_log
          ("Profiling data purged from database '" ++ db_name ++ "'.")%string],
       Normal tt)
  | Throw error =>
      if has_codeName error "NamespaceNotFound" then
        ([console_log
            ("No profiling data found in database '" ++ db_name ++ "'.")%string],
         Normal tt)
      else ([], Throw error)
  end.

(** ** The original script, where it differs *)

Module MongoAssess.

Definition summarize_keywords
    (supported_dictionary not_supported_dictionary : dictionary) : summary :=
  let total_keywords :=
    (sum_values supported_dictionary
     + sum_values not_supported_dictionary)%Z in
  let total_supported := sum_values supported_dictionary in
  let total_not_supported := sum_values not_supported_dictionary in
  let supported_percent :=
    if (total_keywords >? 0)%Z
    then (Num (inject_Z total_supported) / Num (inject_Z total_keywords)
          * Num 100)%js
    else Num 0 in
  {| total_keywords := total_keywords;
     total_supported := total_supported;
     total_not_supported := total_not_supported;
     supported_percent := supported_percent |}.

Definition purge_profiling_data (client : MongoClient) (db_name : string)
  : list effect * completion unit :=
  match drop client db_name "system.profile" with
  | Normal _ =>
      ([console_log
          ("Profiling data purged from database '" ++ db_name ++ "'.")%string],
       Normal tt)
  | Throw error => ([], Throw error)
  end.

End MongoAssess.

(** ** Highlighting in the report

    [highlight_not_supported] builds, for each keyword, the regular
    expression [new RegExp(`"${keyword}"`, 'g')] and replaces its matches.
    Texts are strings of bytes.  The model reads the patterns whose keyword
    is made of letters, digits and dollar signs: in a pattern a dollar sign
    is the assertion that the input ends here (the flags are ['g'] alone),
    a letter, a digit and the double quote stand for themselves.  A keyword
    with any other character, or with two dollar signs in a row (which the
    replacement text would read as one), is outside the model: [None]. *)

Inductive pattern_item : Type :=
| Literal (c : ascii)
| EndOfInput.

Definition double_quote : ascii := "034"%char.

Definition is_alphanumeric (c : ascii) : bool :=
  let n := nat_of_ascii c in
  ((48 <=? n) && (n <=? 57) || (65 <=? n) && (n <=? 90)
   || (97 <=? n) && (n <=? 122))%nat.

Definition pattern_item_of (c : ascii) : option pattern_item :=
  if Ascii.eqb c "$" then Some EndOfInput
  else if is_alphanumeric c || Ascii.eqb c double_quote then Some (Literal c)
  else None.

(** [new RegExp(source, 'g')] *)
Fixpoint RegExp (source : string) : option (list pattern_item) :=
  match source with
  | EmptyString => Some []
  | String c rest =>
      match pattern_item_of c, RegExp rest with
      | Some item, Some items => Some (item :: items)
      | _, _ => None
      end
  end.

(** The number of characters the pattern matches at the start of [input],
    if it matches there. *)
Fixpoint match_here (regex : list pattern_item) (input : string) : option nat :=
  match regex with
  | [] => Some 0%nat
  | Literal c :: items =>
      match input with
      | String d rest =>
          if Ascii.eqb c d then option_map S (match_here items rest) else None
      | EmptyString => None
      end
  | EndOfInput :: items =>
      match input with
      | EmptyString => match_here items input
      | String _ _ => None
      end
  end.

(** [input.replace(regex, replacement)] for a global [regex] that starts
    with a literal, so that a match has at least one character, and a
    [replacement] without substitution patterns; [skip] counts the
    characters of the last match still to pass over. *)
Fixpoint replace (regex : list pattern_item) (replacement : string)
    (skip : nat) (input : string) : string :=
  match input with
  | EmptyString => EmptyString
  | String c rest =>
      match skip with
      | S k => replace regex replacement k rest
      | O =>
          match match_here regex input with
          | Some (S n) => (replacement ++ replace regex replacement n rest)%string
          | _ => String c (replace regex replacement 0 rest)
          end
      end
  end.

(** [`"${keyword}"`] *)
Definition quoted (keyword : string) : string :=
  String double_quote (keyword ++ String double_quote EmptyString).

Fixpoint has_double_dollar (keyword : string) : bool :=
  match keyword with
  | String "$" (String "$" _ as rest) => true
  | String _ rest => has_double_dollar rest
  | EmptyString => false
  end.

(** One call of the arrow function given to [forEach]. *)
Definition highlight_keyword (json_string keyword : string) : option string :=
  match RegExp (quoted keyword) with
  | Some regex =>
      if has_double_dollar keyword then None
      else
        Some (replace regex
                ("<strong>" ++ quoted keyword ++ "</strong>")%string
                0 json_string)
  | None => None
  end.

Fixpoint highlight_not_supported (json_string : string)
    (not_supported_keywords : list string) : option string :=
  match not_supported_keywords with
  | [] => Some json_string
  | keyword :: rest =>
      match highlight_keyword json_string keyword with
      | Some json_string => highlight_not_supported json_string rest
      | None => None
      end
  end.

(** ** Database gateway: sessions

    Modes 1 to 4 and 6 open a client, make requests and close it.  A run
    is known by what it does in order, its events, and by how it completes.
    Writing a file does not fail in the model. *)

Module serverStatus.

(** The reply to the [serverStatus] command, as far as the snapshot keeps
    what the sizing code reads of it. *)
Record reply : Type := {
  uptime : option Q;
  connections : option Connections;
  opcounters : option Opcounters;
  network : option Network;
  mem : option json
}.

End serverStatus.

(** The [client] of a run, known by what each request settles to:
    [client.connect()], [db.command({ profile: level })] on a database,
    the collections of [MongoClient],
    [db.collection(name).find().toArray()],
    [adminDb.command({ serverStatus: 1, ... })],
    the names in [adminDb.admin().listDatabases()],
    [db.command({ dbStats: 1, scale: 1 })] on a database, and
    [client.close()]. *)
Record Session : Type := {
  connect : completion unit;
  profile_command : string -> Z -> completion unit;
  collections : MongoClient;
  find_toArray : string -> string -> completion (list json);
  serverStatus_command : completion serverStatus.reply;
  listDatabases : completion (list string);
  dbStats_command : string -> completion DbStats;
  close : completion unit
}.

(** A metrics file is kept as the snapshot [load_json] reads back from it:
    a property whose value is [undefined] is not written. *)
Inductive event : Type :=
| output (e : effect)
| write_profile (path : string) (profiling_data : list json)
| write_metrics (path : string) (metrics : Metrics)
| console_error (text : string) (error : thrown)
| client_close.

Definition script (A : Type) : Type := (list event * completion A)%type.

Definition ret {A : Type} (a : A) : script A := ([], Normal a).

(** [await request] *)
Definition await {A : Type} (request : completion A) : script A :=
  ([], request).

Definition emit (e : event) : script unit := ([e], Normal tt).

Definition log (text : string) : script unit := emit (output (console_log text)).

Definition and_then {A B : Type} (s : script A) (k : A -> script B)
  : script B :=
  match snd s with
  | Normal a => (fst s ++ fst (k a), snd (k a))
  | Throw e => (fst s, Throw e)
  end.

Notation "x <-- s ;; k" := (and_then s (fun x => k))
  (at level 61, s at next level, right associativity).

(** [try { body } catch (error) { handler }] *)
Definition try_catch {A : Type} (body : script A)
    (handler : thrown -> script A) : script A :=
  match snd body with
  | Normal _ => body
  | Throw error => (fst body ++ fst (handler error), snd (handler error))
  end.

(** [try { body } finally { finalizer }]: the finalizer always runs, and
    what it throws replaces the completion of the body. *)
Definition try_finally {A : Type} (body : script A) (finalizer : script unit)
  : script A :=
  (fst body ++ fst finalizer,
   match snd finalizer with
   | Normal _ => snd body
   | Throw e => Throw e
   end).

(** A call of a function that returns what it logged. *)
Definition logged (r : list effect * completion unit) : script unit :=
  (map output (fst r), snd r).

Definition enable_profiling (client : Session) (db_name : string)
  : script unit :=
  _ <-- await (profile_command client db_name 2) ;;
  log ("Profiling enabled on database '" ++ db_name ++ "'.")%string.

Definition disable_profiling (client : Session) (db_name : string)
  : script unit :=
  _ <-- await (profile_command client db_name 0) ;;
  log ("Profiling disabled on database '" ++ db_name ++ "'.")%string.

Definition export_profiling_data (client : Session)
    (db_name output_file : string) : script unit :=
  profiling_data <-- await (find_toArray client db_name "system.profile") ;;
  _ <-- emit (write_profile output_file profiling_data) ;;
  log ("Profiling data exported to '" ++ output_file ++ "'.")%string.

(** [o[key] = v] on an object that is built property by property *)
Fixpoint assign {A : Type} (o : list (string * A)) (key : string) (v : A)
  : list (string * A) :=
  match o with
  | [] => [(key, v)]
  | (k, old) :: rest =>
      if String.eqb k key then (k, v) :: rest
      else (k, old) :: assign rest key v
  end.

(** [metrics.dbStats = dbStats] *)
Definition set_dbStats (metrics : Metrics) (dbStats : list (string * DbStats))
  : Metrics :=
  {| opcounters := opcounters metrics;
     uptimeSeconds := uptimeSeconds metrics;
     connections := connections metrics;
     mem := mem metrics;
     memory := memory metrics;
     network := network metrics;
     dbStats := Some dbStats |}.

(** [for (const dbInfo of databases.databases) { ... }] *)
Fixpoint for_of_databases (client : Session) (databases : list string)
    (dbStats : list (string * DbStats)) : script (list (string * DbStats)) :=
  match databases with
  | [] => ret dbStats
  | dbInfo_name :: rest =>
      stats <-- await (dbStats_command client dbInfo_name) ;;
      for_of_databases client rest (assign dbStats dbInfo_name stats)
  end.

Definition collect_lifetime_metrics (client : Session) (output_file : string)
  : script unit :=
  status <-- await (serverStatus_command client) ;;
  let metrics :=
    {| opcounters := serverStatus.opcounters status;
       uptimeSeconds := serverStatus.uptime status;
       connections := serverStatus.connections status;
       mem := serverStatus.mem status;
       memory := None;
       network := serverStatus.network status;
       dbStats := None |} in
  databases <-- await (listDatabases client) ;;
  dbStats <-- for_of_databases client databases [] ;;
  let metrics := set_dbStats metrics dbStats in
  _ <-- emit (write_metrics output_file metrics) ;;
  log ("Metrics collected and saved to '" ++ output_file ++ "'.")%string.

(** The branches of [main] for the modes that open a client, from the
    constructed client and the answers to the prompts on. *)
Definition mode_1 (client : Session) (db_name : string) : script unit :=
  try_finally
    (try_catch
       (_ <-- await (connect client) ;;
        enable_profiling client db_name)
       (fun error => emit (console_error "Error enabling profiling:" error)))
    (_ <-- emit client_close ;; await (close client)).

Definition mode_2 (client : Session) (db_name : string) : script unit :=
  try_finally
    (try_catch
       (_ <-- await (connect client) ;;
        disable_profiling client db_name)
       (fun error => emit (console_error "Error disabling profiling:" error)))
    (_ <-- emit client_close ;; await (close client)).

Definition mode_3 (client : Session) (db_name : string) : script unit :=
  try_finally
    (try_catch
       (_ <-- await (connect client) ;;
        logged (purge_profiling_data (collections client) db_name))
       (fun error =>
          emit (console_error "Error purging profiling data:" error)))
    (_ <-- emit client_close ;; await (close client)).

Definition mode_4 (client : Session) (db_name output_file : string)
  : script unit :=
  try_finally
    (try_catch
       (_ <-- await (connect client) ;;
        export_profiling_data client db_name output_file)
       (fun error =>
          emit (console_error "Error exporting profiling data:" error)))
    (_ <-- emit client_close ;; await (close client)).

Definition mode_6 (client : Session) (output_file : string) : script unit :=
  try_finally
    (try_catch
       (_ <-- await (connect client) ;;
        collect_lifetime_metrics client output_file)
       (fun error => emit (console_error "Error collecting metrics:" error)))
    (_ <-- emit client_close ;; await (close client)).

(** ** The original script: collection and modes *)

Module MongoAssessScript.

(** The memory document is written as [memory]. *)
Definition collect_lifetime_metrics (client : Session) (output_file : string)
  : script unit :=
  status <-- await (serverStatus_command client) ;;
  let metrics :=
    {| opcounters := serverStatus.opcounters status;
       uptimeSeconds := serverStatus.uptime status;
       connections := serverStatus.connections status;
       mem := None;
       memory := serverStatus.mem status;
       network := serverStatus.network status;
       dbStats := None |} in
  databases <-- await (listDatabases client) ;;
  dbStats <-- for_of_databases client databases [] ;;
  let metrics := set_dbStats metrics dbStats in
  _ <-- emit (write_metrics output_file metrics) ;;
  log ("Metrics collected and saved to '" ++ output_file ++ "'.")%string.

Definition mode_1 (client : Session) (db_name : string) : script unit :=
  _ <-- await (connect client) ;;
  _ <-- enable_profiling client db_name ;;
  _ <-- emit client_close ;;
  await (close client).

Definition mode_2 (client : Session) (db_name : string) : script unit :=
  _ <-- await (connect client) ;;
  _ <-- disable_profiling client db_name ;;
  _ <-- emit client_close ;;
  await (close client).

(** Profiling is switched off before the purge. *)
Definition mode_3 (client : Session) (db_name : string) : script unit :=
  _ <-- await (connect client) ;;
  _ <-- disable_profiling client db_name ;;
  _ <-- logged (MongoAssess.purge_profiling_data (collections client) db_name) ;;
  _ <-- emit client_close ;;
  await (close client).

Definition mode_4 (client : Session) (db_name output_file : string)
  : script unit :=
  _ <-- await (connect client) ;;
  _ <-- export_profiling_data client db_name output_file ;;
  _ <-- emit client_close ;;
  await (close client).

Definition mode_6 (client : Session) (output_file : string) : script unit :=
  _ <-- await (connect client) ;;
  _ <-- collect_lifetime_metrics client output_file ;;
  _ <-- emit client_close ;;
  await (close client).

End MongoAssessScript.

(** * Vocabulary of the statements

    What the theorems below say about the program, in terms that do not
    come from its text, and the inputs they are tried on. *)

(** ** Documents *)

(** [K] occurs as an object key somewhere inside a document. *)
Inductive key_occurs (K : string) : json -> Prop :=
| occurs_as_key fields value :
    In (K, value) fields -> key_occurs K (JObj fields)
| occurs_in_field fields key value :
    In (key, value) fields -> key_occurs K value -> key_occurs K (JObj fields)
| occurs_in_item items value :
    In value items -> key_occurs K value -> key_occurs K (JArr items).

(** A not-supported keyword occurs as a key inside the entry. *)
Definition flagged (entry : json) : Prop :=
  exists K, In K not_supported_keywords /\ key_occurs K entry.

(** The [op] of the entry is ["command"]: the entry is an object and its
    property [op] holds that string. *)
Definition op_command (entry : json) : Prop :=
  exists fields,
    entry = JObj fields /\ lookup "op" fields = Some (JStr "command").

(** Whether [entry.op] is the string ["command"]. *)
Definition op_is_command (entry : json) : bool :=
  match entry_op entry with
  | Normal op => is_command op
  | Throw _ => false
  end.

(** The [command_category] a walk of [entry] ends with. *)
Definition triggers (entry : json) : list string :=
  command_category
    (traverse entry
       {| seen_supported := []; seen_not_supported := [];
          command_category := [] |}).

Definition compatible (entry : json) : bool :=
  op_is_command entry && negb (0 <? List.length (triggers entry))%nat.

Definition incompatible (entry : json) : bool :=
  op_is_command entry && (0 <? List.length (triggers entry))%nat.

Definition positive_counts (d : dictionary) : Prop :=
  Forall (fun kv => (1 <= snd kv)%Z) d.

Definition positive_scan (st : scan) : Prop :=
  positive_counts (seen_supported st) /\ positive_counts (seen_not_supported st).

(** Three profile entries: an aggregation with ["$lookup"] in two stages, a
    query, and a command without any operator. *)
Definition sample_profile : list json :=
  [JObj [("op", JStr "command");
         ("command",
          JObj [("aggregate", JStr "orders");
                ("pipeline",
                 JArr [JObj [("$match", JObj [("qty", JObj [("$gt", JNum 1)])])];
                       JObj [("$lookup", JObj [("from", JStr "items")])];
                       JObj [("$lookup", JObj [("from", JStr "users")])]])])];
   JObj [("op", JStr "query"); ("filter", JObj [("$expr", JBool true)])];
   JObj [("op", JStr "command"); ("command", JObj [("find", JStr "orders")])]]%string.

Definition sample_analysis : analysis :=
  {| supported_dictionary := [("$match", 1); ("$gt", 1)]%string%Z;
     not_supported_dictionary := [("$lookup", 2)]%string%Z;
     supported_commands := [nth 2 sample_profile JNull];
     not_supported_commands :=
       [(nth 0 sample_profile JNull, ["$lookup"]%string)] |}.

(** ** Sizes and counters *)

(** A size, or [0] when it is absent. *)
Definition size_or_zero (x : option Q) : Q :=
  match x with
  | Some q => q
  | None => 0
  end.

(** The sum of one size over all databases, an absent size counting as 0. *)
Definition total_over (size : DbStats -> option Q)
    (db_stats : list (string * DbStats)) : Q :=
  fold_right Qplus 0 (map (fun entry => size_or_zero (size (snd entry))) db_stats).

Definition six_counters (oc : Opcounters) : Q :=
  insert oc + query oc + update oc + delete oc + getmore oc + command oc.

Definition deprecated_queries (oc : Opcounters) : Q :=
  match deprecated oc with
  | Some d => deprecated_query d
  | None => 0
  end.

Definition example_opcounters : Opcounters :=
  {| insert := 100; query := 200; update := 50; delete := 10;
     getmore := 5; command := 5; deprecated := None |}.

(** The same counters on a server that has also seen 7 queries sent with a
    deprecated opcode. *)
Definition opcounters_with_deprecated : Opcounters :=
  {| insert := 100; query := 200; update := 50; delete := 10;
     getmore := 5; command := 5;
     deprecated := Some {| deprecated_query := 7 |} |}.

Definition example_db_stats : list (string * DbStats) :=
  [("a"%string,
    {| dataSize := Some (inject_Z (100 * 1024 * 1024));
       indexSize := Some (inject_Z (50 * 1024 * 1024));
       totalSize := Some (inject_Z (200 * 1024 * 1024)) |})].

(** ** Snapshots *)

Definition fill_db_stats (stats : DbStats) : DbStats :=
  {| dataSize := Some (size_or_zero (dataSize stats));
     indexSize := Some (size_or_zero (indexSize stats));
     totalSize := Some (size_or_zero (totalSize stats)) |}.

Definition fill_network (network_stats : Network) : Network :=
  {| bytesIn := Some (size_or_zero (bytesIn network_stats));
     bytesOut := Some (size_or_zero (bytesOut network_stats)) |}.

(** The snapshot with [0] written for every absent size. *)
Definition fill_metrics (metrics : Metrics) : Metrics :=
  {| opcounters := opcounters metrics;
     uptimeSeconds := uptimeSeconds metrics;
     connections := connections metrics;
     mem := mem metrics;
     memory := memory metrics;
     network := option_map fill_network (network metrics);
     dbStats :=
       option_map (map (fun '(db, stats) => (db, fill_db_stats stats)))
         (dbStats metrics) |}.

(** The six required fields are all there. *)
Definition all_required_present (metrics : Metrics) : Prop :=
  forall field, In field required_fields -> has_field field metrics = true.

(** A complete snapshot in which one database and the network lack some
    sizes. *)
Definition example_metrics : Metrics :=
  {| opcounters := Some example_opcounters;
     uptimeSeconds := Some 370;
     connections := Some {| current := 12 |};
     mem := Some (JObj [("resident"%string, JNum 512)]);
     memory := None;
     network := Some {| bytesIn := Some 1048576; bytesOut := None |};
     dbStats :=
       Some (example_db_stats
               ++ [("config"%string,
                    {| dataSize := Some 4096; indexSize := None;
                       totalSize := None |})]) |}.

(** [example_metrics] with other documents in [mem] and [memory]. *)
Definition example_metrics_other_memory : Metrics :=
  {| opcounters := opcounters example_metrics;
     uptimeSeconds := uptimeSeconds example_metrics;
     connections := connections example_metrics;
     mem := None;
     memory :=
       Some (JObj [("resident"%string, JNum 64); ("virtual"%string, JNum 4096)]);
     network := network example_metrics;
     dbStats := dbStats example_metrics |}.

Definition example_sizing : SizingResult :=
  {| Total_Operations := Num 370;
     Uptime_seconds := Some 370;
     Operations_per_Second := Num 1;
     CPU_Cores_Required := Num 1;
     Working_Set_Size_MB := Num 150;
     Memory_Required_MB := Num 225;
     Storage_Required_Bytes := Num 251658240;
     Network_Bandwidth_Required := Num 0;
     Connection_Limits := Num 18 |}.

(** ** Reports and messages *)

(** [part] occurs in [text]. *)
Definition contains (text part : string) : Prop :=
  exists before after, text = (before ++ part ++ after)%string.

Definition sizing_report_name (base_name timestamp : string) : string :=
  (base_name ++ "_sizing_report_" ++ timestamp ++ ".html")%string.

(** The report written holds the FAQ block. *)
Definition has_FAQ (report : effect) : Prop := In FAQ (report_content report).

(** ** The server *)

(** What the server answers when [system.profile] does not exist. *)
Definition namespace_not_found : MongoError :=
  {| codeName := Some "NamespaceNotFound"%string;
     message := "ns not found"%string |}.

Definition client_without_profile : MongoClient :=
  {| drop := fun _ _ => Throw (ServerError namespace_not_found) |}.

(** ** Occurrences and dictionaries *)

(** The number of object keys inside a document that satisfy [P], every
    occurrence counted. *)
Fixpoint key_count (P : string -> bool) (v : json) : Z :=
  match v with
  | JObj fields =>
      fold_right
        (fun '(key, value) n =>
           ((if P key then 1 else 0) + key_count P value + n)%Z)
        0%Z fields
  | JArr items => fold_right (fun value n => (key_count P value + n)%Z) 0%Z items
  | _ => 0%Z
  end.

(** The same over the command entries of a profile. *)
Definition profile_count (P : string -> bool) (data : list json) : Z :=
  fold_right
    (fun entry n =>
       ((if op_is_command entry then key_count P entry else 0) + n)%Z)
    0%Z data.

(** The count stored for a keyword, [0] when the dictionary has no such
    key. *)
Definition tally (d : dictionary) (K : string) : Z :=
  count_or_zero (lookup K d).

(** Whether a not-supported keyword occurs as a key inside the entry. *)
Definition flaggedb (entry : json) : bool :=
  (0 <? key_count (includes not_supported_keywords) entry)%Z.

(** Whether the entry is an object whose [op] property holds the string
    ["command"]; it decides [op_command]. *)
Definition has_op_command (entry : json) : bool :=
  match entry with
  | JObj fields =>
      match lookup "op" fields with
      | Some (JStr s) => String.eqb s "command"
      | _ => false
      end
  | _ => false
  end.

(** A dictionary of the analysis: one row per keyword, keywords of one
    catalog, counts from 1 up. *)
Definition dictionary_of (catalog : list string) (d : dictionary) : Prop :=
  NoDup (map fst d)
  /\ Forall (fun kv => In (fst kv) catalog /\ (1 <= snd kv)%Z) d.

(** One of the two dictionaries, of a walk and of an analysis: the supported
    one for [true]. *)
Definition seen (supported : bool) (st : scan) : dictionary :=
  if supported then seen_supported st else seen_not_supported st.

Definition counted (supported : bool) (r : analysis) : dictionary :=
  if supported then supported_dictionary r else not_supported_dictionary r.

Definition catalog (supported : bool) : list string :=
  if supported then supported_keywords else not_supported_keywords.

Definition dictionaries_of_scan (st : scan) : Prop :=
  dictionary_of supported_keywords (seen_supported st)
  /\ dictionary_of not_supported_keywords (seen_not_supported st).

(** ** Highlighting *)

(** The text of an entry with one not-supported operator, and what the
    report would show if the operator were marked. *)
Definition lookup_text : string :=
  ("{" ++ quoted "$lookup" ++ ": {" ++ quoted "from" ++ ": "
       ++ quoted "items" ++ "}}")%string.

(** Whether the model reads the pattern and the replacement of a keyword. *)
Definition readable (keyword : string) : bool :=
  match RegExp (quoted keyword) with
  | Some _ => negb (has_double_dollar keyword)
  | None => false
  end.

(** Every character of the text satisfies [P]. *)
Fixpoint all_characters (P : ascii -> bool) (text : string) : bool :=
  match text with
  | EmptyString => true
  | String c rest => P c && all_characters P rest
  end.

(** The keyword is made of letters and digits. *)
Definition plain_keyword (keyword : string) : bool :=
  all_characters is_alphanumeric keyword.

(** The text holds no double quote. *)
Definition without_quote (text : string) : bool :=
  all_characters (fun c => negb (Ascii.eqb c double_quote)) text.

(** The pattern that asks for the characters of [text] in turn. *)
Fixpoint literally (text : string) : list pattern_item :=
  match text with
  | EmptyString => []
  | String c rest => Literal c :: literally rest
  end.

(** ** More inputs of the sizing *)

(** The value of the optional parameter [ops_per_core]. *)
Definition ops_per_core_value (ops_per_core : option Q) : Q :=
  match ops_per_core with
  | Some v => v
  | None => 1500
  end.

(** No size of any database is negative. *)
Definition sizes_not_negative (db_stats : list (string * DbStats)) : Prop :=
  Forall
    (fun entry =>
       0 <= size_or_zero (dataSize (snd entry))
       /\ 0 <= size_or_zero (indexSize (snd entry))
       /\ 0 <= size_or_zero (totalSize (snd entry)))
    db_stats.

(** A snapshot taken right after the server started: [uptimeSeconds] is
    0, the memory fields and database statistics are absent. *)
Definition example_metrics_idle : Metrics :=
  {| opcounters := Some example_opcounters;
     uptimeSeconds := Some 0;
     connections := connections example_metrics;
     mem := None;
     memory := None;
     network := network example_metrics;
     dbStats := None |}.

(** ** Sessions *)

(** The run calls [client.close()] once, as the last thing it does, and
    completes as that call does. *)
Definition closes_client (client : Session) (run : script unit) : Prop :=
  exists before,
    fst run = before ++ [client_close]
    /\ ~ In client_close before
    /\ snd run = close client.

(** Every request of a collection succeeds. *)
Definition collection_succeeds (client : Session) : Prop :=
  exists status databases,
    serverStatus_command client = Normal status
    /\ listDatabases client = Normal databases
    /\ Forall
         (fun name => exists stats, dbStats_command client name = Normal stats)
         databases.

(** The five fields of the reply that the snapshot renames or copies into
    the required fields. *)
Definition status_complete (status : serverStatus.reply) : Prop :=
  serverStatus.opcounters status <> None
  /\ serverStatus.uptime status <> None
  /\ serverStatus.connections status <> None
  /\ serverStatus.mem status <> None
  /\ serverStatus.network status <> None.

Definition example_status : serverStatus.reply :=
  {| serverStatus.uptime := Some 370;
     serverStatus.connections := Some {| current := 12 |};
     serverStatus.opcounters := Some example_opcounters;
     serverStatus.network :=
       Some {| bytesIn := Some 1048576; bytesOut := None |};
     serverStatus.mem := Some (JObj [("resident"%string, JNum 512)]) |}.

(** A deployment that answers every request. *)
Definition example_session : Session :=
  {| connect := Normal tt;
     profile_command := fun _ _ => Normal tt;
     collections := client_without_profile;
     find_toArray := fun _ _ => Normal sample_profile;
     serverStatus_command := Normal example_status;
     listDatabases := Normal (map fst example_db_stats);
     dbStats_command :=
       fun name =>
         match lookup name example_db_stats with
         | Some stats => Normal stats
         | None =>
             Throw (ServerError
                      {| codeName := Some "NamespaceNotFound"%string;
                         message := "database not found"%string |})
         end;
     close := Normal tt |}.

(** A deployment that cannot be reached. *)
Definition unreachable : MongoError :=
  {| codeName := None; message := "connect ECONNREFUSED"%string |}.

Definition unreachable_session : Session :=
  {| connect := Throw (ServerError unreachable);
     profile_command := fun _ _ => Throw (ServerError unreachable);
     collections := {| drop := fun _ _ => Throw (ServerError unreachable) |};
     find_toArray := fun _ _ => Throw (ServerError unreachable);
     serverStatus_command := Throw (ServerError unreachable);
     listDatabases := Throw (ServerError unreachable);
     dbStats_command := fun _ => Throw (ServerError unreachable);
     close := Normal tt |}.

(** The run calls [client.close()] exactly when it completes normally. *)
Definition closes_client_on_success (run : script unit) : Prop :=
  In client_close (fst run) <-> snd run = Normal tt.

(** A collection writes the snapshot and logs it when every request
    succeeds; otherwise it does nothing that shows and throws. *)
Definition all_or_nothing (client : Session) (output_file : string)
    (run : script unit) : Prop :=
  (collection_succeeds client <->
   exists metrics,
     run
     = ([write_metrics output_file metrics;
         output
           (console_log
              ("Metrics collected and saved to '" ++ output_file ++ "'.")%string)],
        Normal tt))
  /\ (~ collection_succeeds client <-> exists e, run = ([], Throw e)).

(** ** Metrics files *)

(** The file of a snapshot: every sub-document is a record or absent. *)
Definition property_of_option {A : Type} (x : option A)
  : MetricsFile.property A :=
  match x with
  | Some a => MetricsFile.document a
  | None => MetricsFile.undefined
  end.

Definition file_of (metrics : Metrics) : MetricsFile.t :=
  {| MetricsFile.opcounters := property_of_option (opcounters metrics);
     MetricsFile.uptimeSeconds := uptimeSeconds metrics;
     MetricsFile.connections := property_of_option (connections metrics);
     MetricsFile.mem := mem metrics;
     MetricsFile.memory := memory metrics;
     MetricsFile.network := property_of_option (network metrics);
     MetricsFile.dbStats :=
       property_of_option
         (option_map
            (map (fun entry => (fst entry, MetricsFile.document (snd entry))))
            (dbStats metrics)) |}.

(** One of the six required keys is not in the file. *)
Definition required_absent (f : MetricsFile.t) : Prop :=
  MetricsFile.opcounters f = MetricsFile.undefined
  \/ MetricsFile.uptimeSeconds f = None
  \/ MetricsFile.connections f = MetricsFile.undefined
  \/ MetricsFile.mem f = None
  \/ MetricsFile.network f = MetricsFile.undefined
  \/ MetricsFile.dbStats f = MetricsFile.undefined.

(** The six required keys are in the file, whatever they hold. *)
Definition required_in_file (f : MetricsFile.t) : Prop :=
  MetricsFile.opcounters f <> MetricsFile.undefined
  /\ MetricsFile.uptimeSeconds f <> None
  /\ MetricsFile.connections f <> MetricsFile.undefined
  /\ MetricsFile.mem f <> None
  /\ MetricsFile.network f <> MetricsFile.undefined
  /\ MetricsFile.dbStats f <> MetricsFile.undefined.

(** The names of the required keys that are not in the file, in the order
    of the list of required fields. *)
Definition absent_names (f : MetricsFile.t) : list string :=
  (match MetricsFile.opcounters f with
   | MetricsFile.undefined => ["opcounters"%string]
   | _ => []
   end)
  ++ (match MetricsFile.uptimeSeconds f with
      | None => ["uptimeSeconds"%string]
      | Some _ => []
      end)
  ++ (match MetricsFile.connections f with
      | MetricsFile.undefined => ["connections"%string]
      | _ => []
      end)
  ++ (match MetricsFile.mem f with
      | None => ["mem"%string]
      | Some _ => []
      end)
  ++ (match MetricsFile.network f with
      | MetricsFile.undefined => ["network"%string]
      | _ => []
      end)
  ++ (match MetricsFile.dbStats f with
      | MetricsFile.undefined => ["dbStats"%string]
      | _ => []
      end).

(** The key holds a record, neither [null] nor nothing. *)
Definition is_record {A : Type} (p : MetricsFile.property A) : Prop :=
  exists a, p = MetricsFile.document a.

(** Every sub-document the sizing reads a property of is a record: the
    counters, the network totals, the connections and the statistics of
    each database. *)
Definition sizing_readable (f : MetricsFile.t)
    (db_stats : MetricsFile.property (list (string * MetricsFile.property DbStats)))
  : Prop :=
  is_record (MetricsFile.opcounters f)
  /\ is_record (MetricsFile.network f)
  /\ is_record (MetricsFile.connections f)
  /\ forall entries,
       db_stats = MetricsFile.document entries ->
       Forall (fun entry => is_record (snd entry)) entries.

Definition example_file : MetricsFile.t := file_of example_metrics.

(** [example_file] without [mem] and [network], and with [null] for the
    counters. *)
Definition example_file_without_mem : MetricsFile.t :=
  {| MetricsFile.opcounters := MetricsFile.null;
     MetricsFile.uptimeSeconds := MetricsFile.uptimeSeconds example_file;
     MetricsFile.connections := MetricsFile.connections example_file;
     MetricsFile.mem := None;
     MetricsFile.memory := MetricsFile.memory example_file;
     MetricsFile.network := MetricsFile.undefined;
     MetricsFile.dbStats := MetricsFile.dbStats example_file |}.

(** [example_file] with [null] for the counters, and the six keys there. *)
Definition example_file_null_opcounters : MetricsFile.t :=
  {| MetricsFile.opcounters := MetricsFile.null;
     MetricsFile.uptimeSeconds := MetricsFile.uptimeSeconds example_file;
     MetricsFile.connections := MetricsFile.connections example_file;
     MetricsFile.mem := MetricsFile.mem example_file;
     MetricsFile.memory := MetricsFile.memory example_file;
     MetricsFile.network := MetricsFile.network example_file;
     MetricsFile.dbStats := MetricsFile.dbStats example_file |}.

(** [example_file] with [null] for the statistics of one database. *)
Definition example_file_null_database : MetricsFile.t :=
  {| MetricsFile.opcounters := MetricsFile.opcounters example_file;
     MetricsFile.uptimeSeconds := MetricsFile.uptimeSeconds example_file;
     MetricsFile.connections := MetricsFile.connections example_file;
     MetricsFile.mem := MetricsFile.mem example_file;
     MetricsFile.memory := MetricsFile.memory example_file;
     MetricsFile.network := MetricsFile.network example_file;
     MetricsFile.dbStats :=
       MetricsFile.document
         [("a"%string, MetricsFile.null);
          ("config"%string,
           MetricsFile.document
             {| dataSize := Some 4096; indexSize := None;
                totalSize := None |})] |}.

(** ** Induction on documents

    The hypothesis for an array or an object covers every document directly
    inside it. *)

Section JsonInduction.
Variable P : json -> Prop.
Hypothesis Hnull : P JNull.
Hypothesis Hbool : forall b, P (JBool b).
Hypothesis Hnum : forall q, P (JNum q).
Hypothesis Hstr : forall s, P (JStr s).
Hypothesis Harr : forall items, (forall v, In v items -> P v) -> P (JArr items).
Hypothesis Hobj :
  forall fields, (forall k v, In (k, v) fields -> P v) -> P (JObj fields).

Fixpoint json_nested_ind (v : json) : P v :=
  match v with
  | JNull => Hnull
  | JBool b => Hbool b
  | JNum q => Hnum q
  | JStr s => Hstr s
  | JArr items =>
      Harr items
        ((fix each (l : list json) : forall x, In x l -> P x :=
            match l with
            | [] => fun x (H : In x []) => match H with end
            | y :: rest => fun x (H : In x (y :: rest)) =>
                match H with
                | or_introl e => eq_ind y P (json_nested_ind y) x e
                | or_intror H' => each rest x H'
                end
            end) items)
  | JObj fields =>
      Hobj fields
        ((fix each (l : list (string * json))
            : forall k x, In (k, x) l -> P x :=
            match l with
            | [] => fun k x (H : In (k, x) []) => match H with end
            | (k0, y) :: rest => fun k x (H : In (k, x) ((k0, y) :: rest)) =>
                match H with
                | or_introl e =>
                    eq_ind y P (json_nested_ind y) x (f_equal snd e)
                | or_intror H' => each rest k x H'
                end
            end) fields)
  end.

End JsonInduction.

(** * Properties of the classifier *)

(** ** The catalog *)

Lemma catalog_disjoint :
  forallb (fun k => negb (includes supported_keywords k))
    not_supported_keywords = true.
Proof. vm_compute. reflexivity. Qed.

Lemma catalog_prefixed :
  forallb startsWith_dollar not_supported_keywords = true.
Proof. vm_compute. reflexivity. Qed.

Lemma includes_In (l : list string) (key : string) :
  includes l key = true <-> In key l.
Proof.
  unfold includes. rewrite existsb_exists. split.
  - intros [x [Hx He]]. apply String.eqb_eq in He. subst. assumption.
  - intro H. exists key. split; [assumption | apply String.eqb_refl].
Qed.

Lemma includes_not_In (l : list string) (key : string) :
  includes l key = false <-> ~ In key l.
Proof.
  rewrite <- includes_In. destruct (includes l key); split; congruence.
Qed.

Lemma not_supported_shape (key : string) :
  In key not_supported_keywords ->
  startsWith_dollar key = true /\ includes supported_keywords key = false.
Proof.
  intro H. split.
  - pose proof catalog_prefixed as C. rewrite forallb_forall in C. auto.
  - pose proof catalog_disjoint as C. rewrite forallb_forall in C.
    apply C in H. destruct (includes supported_keywords key); [discriminate | reflexivity].
Qed.

(** An array index never looks like an operator. *)
Lemma index_key_plain (i : nat) : startsWith_dollar (index_key i) = false.
Proof.
  unfold index_key, startsWith_dollar.
  assert (N : Nat.to_uint i <> Decimal.Nil).
  { rewrite <- (Unsigned.of_to i) at 1. rewrite Unsigned.to_of.
    unfold Decimal.unorm. destruct (Decimal.nzhead (Nat.to_uint i)); discriminate. }
  destruct (Nat.to_uint i); [congruence | ..]; reflexivity.
Qed.

(** ** One key *)

Ltac project := cbn [command_category seen_supported seen_not_supported].

Lemma visit_key_category (key : string) (st : scan) (K : string) :
  In K (command_category (visit_key key st)) <->
  In K (command_category st) \/ (K = key /\ In K not_supported_keywords).
Proof.
  unfold visit_key.
  destruct (startsWith_dollar key) eqn:Ed.
  - destruct (includes supported_keywords key) eqn:Es; project.
    + split; [tauto | intros [H | [-> H]]; [assumption |]].
      apply not_supported_shape in H. destruct H; congruence.
    + destruct (includes not_supported_keywords key) eqn:En; project.
      * apply includes_In in En.
        destruct (includes (command_category st) key) eqn:Ec; cbn [negb].
        -- apply includes_In in Ec.
           split; [tauto | intros [H | [-> H]]; assumption].
        -- rewrite in_app_iff. cbn [In].
           split.
           ++ intros [H | [H | []]]; [tauto | subst; tauto].
           ++ intros [H | [-> H]]; tauto.
      * apply includes_not_In in En.
        split; [tauto | intros [H | [-> H]]; [assumption | contradiction]].
  - split; [tauto | intros [H | [-> H]]; [assumption |]].
    apply not_supported_shape in H. destruct H; congruence.
Qed.

Lemma visit_key_category_NoDup (key : string) (st : scan) :
  NoDup (command_category st) -> NoDup (command_category (visit_key key st)).
Proof.
  intro H. unfold visit_key.
  destruct (startsWith_dollar key); [| assumption].
  destruct (includes supported_keywords key); [assumption |].
  destruct (includes not_supported_keywords key); [| assumption].
  project. destruct (includes (command_category st) key) eqn:Ec; cbn [negb].
  - assumption.
  - apply includes_not_In in Ec.
    apply NoDup_app; [assumption | apply NoDup_cons; [cbn [In]; tauto | apply NoDup_nil] |].
    intros x Hx [<- | []]. contradiction.
Qed.

(** The category after a key depends on the category before, not on the
    dictionaries. *)
Lemma visit_key_category_eq (key : string) (st st' : scan) :
  command_category st = command_category st' ->
  command_category (visit_key key st) = command_category (visit_key key st').
Proof.
  intro H. unfold visit_key.
  destruct (startsWith_dollar key); [| assumption].
  destruct (includes supported_keywords key); [assumption |].
  destruct (includes not_supported_keywords key); [| assumption].
  project. rewrite H. reflexivity.
Qed.

(** ** Counts stay positive *)

Lemma lookup_In {A : Type} (key : string) (fields : list (string * A)) (v : A) :
  lookup key fields = Some v -> In (key, v) fields.
Proof.
  induction fields as [| [k x] rest IH]; simpl; [discriminate |].
  destruct (String.eqb k key) eqn:E.
  - apply String.eqb_eq in E. intro H. injection H as ->. subst. left. reflexivity.
  - intro H. right. auto.
Qed.

Lemma dict_set_positive (d : dictionary) (key : string) (v : Z) :
  (1 <= v)%Z -> positive_counts d -> positive_counts (dict_set d key v).
Proof.
  intros Hv. unfold positive_counts.
  induction d as [| [k old] rest IH]; simpl; intro H.
  - constructor; [assumption | constructor].
  - inversion H; subst. destruct (String.eqb k key); constructor; auto.
Qed.

Lemma increment_positive (d : dictionary) (key : string) :
  positive_counts d -> positive_counts (increment d key).
Proof.
  intro H. unfold increment. apply dict_set_positive; [| assumption].
  unfold count_or_zero. destruct (lookup key d) as [v |] eqn:E; [| lia].
  apply lookup_In in E. unfold positive_counts in H. rewrite Forall_forall in H.
  apply H in E. simpl in E. destruct (v =? 0)%Z; lia.
Qed.

Lemma visit_key_positive (key : string) (st : scan) :
  positive_scan st -> positive_scan (visit_key key st).
Proof.
  intros [Hs Hn]. unfold visit_key, positive_scan.
  destruct (startsWith_dollar key); [| tauto].
  destruct (includes supported_keywords key); project.
  - split; [apply increment_positive |]; assumption.
  - destruct (includes not_supported_keywords key); project; [| tauto].
    split; [| apply increment_positive]; assumption.
Qed.

(** ** The walk *)

Abbreviation walk := (fun key value st => traverse value (visit_key key st)).

(** Whatever every key preserves, the walk preserves. *)
Lemma traverse_preserves (Inv : scan -> Prop) :
  (forall key st, Inv st -> Inv (visit_key key st)) ->
  forall obj st, Inv st -> Inv (traverse obj st).
Proof.
  intro Hkey. induction obj using json_nested_ind; simpl; auto.
  - generalize 0%nat.
    induction items as [| v rest IHrest]; intros i st Hst; simpl; [assumption |].
    apply IHrest.
    + intros x Hx. apply H. right. assumption.
    + apply H; [left; reflexivity | apply Hkey; assumption].
  - induction fields as [| [k v] rest IHrest]; intros st Hst; simpl; [assumption |].
    apply IHrest.
    + intros k' x Hx. apply (H k'). right. assumption.
    + apply (H k); [left; reflexivity | apply Hkey; assumption].
Qed.

Lemma traverse_category_NoDup (obj : json) (st : scan) :
  NoDup (command_category st) -> NoDup (command_category (traverse obj st)).
Proof.
  apply (traverse_preserves (fun st => NoDup (command_category st))).
  intros. apply visit_key_category_NoDup. assumption.
Qed.

Lemma traverse_positive (obj : json) (st : scan) :
  positive_scan st -> positive_scan (traverse obj st).
Proof. apply traverse_preserves. intros. apply visit_key_positive. assumption. Qed.

Lemma traverse_category_eq (obj : json) :
  forall st st',
    command_category st = command_category st' ->
    command_category (traverse obj st) = command_category (traverse obj st').
Proof.
  induction obj using json_nested_ind; simpl; auto.
  - generalize 0%nat.
    induction items as [| v rest IHrest]; intros i st st' Hst; simpl; [assumption |].
    apply IHrest.
    + intros x Hx. apply H. right. assumption.
    + apply H; [left; reflexivity | apply visit_key_category_eq; assumption].
  - induction fields as [| [k v] rest IHrest]; intros st st' Hst; simpl; [assumption |].
    apply IHrest.
    + intros k' x Hx. apply (H k'). right. assumption.
    + apply (H k); [left; reflexivity | apply visit_key_category_eq; assumption].
Qed.

(** The keywords collected by a walk are those already collected and the
    not-supported keywords that occur as a key of the document. *)
Lemma traverse_category (obj : json) :
  forall st K,
    In K (command_category (traverse obj st)) <->
    In K (command_category st)
    \/ (In K not_supported_keywords /\ key_occurs K obj).
Proof.
  induction obj using json_nested_ind; cbn [traverse];
    try (intros st K; split; [tauto | intros [? | [_ Ho]]; [assumption | inversion Ho]]).
  - (* array *)
    assert (L : forall i st K,
      In K (command_category (for_in_array walk i items st)) <->
      In K (command_category st)
      \/ (In K not_supported_keywords
          /\ exists v, In v items /\ key_occurs K v)).
    { induction items as [| v rest IHrest]; intros i st K; cbn [for_in_array In].
      - split; [tauto | intros [? | [_ [v [[] _]]]]; assumption].
      - rewrite IHrest by (intros x Hx; apply H; right; assumption).
        rewrite (H v) by (left; reflexivity).
        rewrite visit_key_category.
        split.
        + intros [[[? | [-> HK]] | [? ?]] | [? [x [? ?]]]].
          * tauto.
          * pose proof (index_key_plain i) as E.
            apply not_supported_shape in HK. destruct HK; congruence.
          * right. split; [assumption | exists v; tauto].
          * right. split; [assumption | exists x; tauto].
        + intros [? | [? [x [[<- | ?] ?]]]].
          * tauto.
          * tauto.
          * right. split; [assumption | exists x; tauto]. }
    intros st K. rewrite L. split.
    + intros [? | [? [v [? ?]]]]; [tauto |].
      right. split; [assumption | eapply occurs_in_item; eassumption].
    + intros [? | [? Ho]]; [tauto |]. inversion Ho; subst.
      right. split; [assumption | eexists; eauto].
  - (* object *)
    assert (L : forall st K,
      In K (command_category (for_in_object walk fields st)) <->
      In K (command_category st)
      \/ (In K not_supported_keywords
          /\ exists k v, In (k, v) fields /\ (K = k \/ key_occurs K v))).
    { induction fields as [| [k v] rest IHrest]; intros st K; cbn [for_in_object In].
      - split; [tauto | intros [? | [_ [k [v [[] _]]]]]; assumption].
      - rewrite IHrest by (intros k' x Hx; apply (H k'); right; assumption).
        rewrite (H k v) by (left; reflexivity).
        rewrite visit_key_category.
        split.
        + intros [[[? | [-> ?]] | [? ?]] | [? [k' [x [? ?]]]]].
          * tauto.
          * right. split; [assumption | exists k, v; tauto].
          * right. split; [assumption | exists k, v; tauto].
          * right. split; [assumption | exists k', x; tauto].
        + intros [? | [? [k' [x [[E | ?] [-> | ?]]]]]].
          * tauto.
          * injection E as <- <-. tauto.
          * injection E as <- <-. tauto.
          * right. split; [assumption | exists k', x; tauto].
          * right. split; [assumption | exists k', x; tauto]. }
    intros st K. rewrite L. split.
    + intros [? | [? [k [v [? [-> | ?]]]]]]; [tauto | |].
      * right. split; [assumption | eapply occurs_as_key; eassumption].
      * right. split; [assumption | eapply occurs_in_field; eassumption].
    + intros [? | [? Ho]]; [tauto |]. inversion Ho; subst.
      * right. split; [assumption | eexists _, _; eauto].
      * right. split; [assumption | eexists _, _; eauto].
Qed.

(** ** Classifying the entries *)

Lemma triggers_NoDup (entry : json) : NoDup (triggers entry).
Proof. apply traverse_category_NoDup. apply NoDup_nil. Qed.

Lemma triggers_spec (entry : json) (K : string) :
  In K (triggers entry) <->
  In K not_supported_keywords /\ key_occurs K entry.
Proof.
  unfold triggers. rewrite traverse_category. cbn [command_category In]. tauto.
Qed.

Lemma triggers_of_walk (entry : json) (sd nsd : dictionary) :
  command_category
    (traverse entry
       {| seen_supported := sd; seen_not_supported := nsd;
          command_category := [] |}) = triggers entry.
Proof. apply traverse_category_eq. reflexivity. Qed.

(** One step of the induction below: the rest of the input is handled by
    the induction hypothesis at the accumulator the goal shows. *)
Ltac step_with IH Hrest :=
  match goal with
  | |- context [forEach_entry _ ?a] =>
      let r := fresh "r" in
      let E := fresh "E" in
      let Hs := fresh "Hs" in
      let Hn := fresh "Hn" in
      destruct (IH a Hrest) as [r [E [Hs Hn]]];
      exists r; rewrite E, Hs, Hn;
      cbn [supported_commands not_supported_commands map];
      rewrite <- app_assoc; auto
  end.

(** The two output sequences are the command entries of the input, in input
    order, split by whether the walk collected a keyword. *)
Lemma forEach_entry_commands (data : list json) :
  forall acc,
    Forall (fun entry => entry <> JNull) data ->
    exists r,
      forEach_entry data acc = Normal r
      /\ supported_commands r
         = supported_commands acc ++ filter compatible data
      /\ not_supported_commands r
         = not_supported_commands acc
           ++ map (fun entry => (entry, triggers entry))
                (filter incompatible data).
Proof.
  induction data as [| entry rest IH]; intros acc Hdata.
  - exists acc. cbn [forEach_entry filter map]. rewrite !app_nil_r. auto.
  - inversion Hdata as [| ? ? Hentry Hrest]; subst.
    cbn [forEach_entry filter].
    unfold compatible, incompatible, op_is_command, classify_entry.
    destruct (entry_op entry) as [op | e] eqn:Eop.
    2:{ destruct entry; cbn in Eop; congruence. }
    cbn [bind]. destruct (is_command op); cbn [andb].
    + rewrite triggers_of_walk.
      destruct (0 <? List.length (triggers entry))%nat; cbn [negb bind].
      * step_with IH Hrest.
      * step_with IH Hrest.
    + cbn [bind]. apply IH. assumption.
Qed.

Lemma analyze_keywords_commands (data : list json) :
  Forall (fun entry => entry <> JNull) data ->
  exists r,
    analyze_keywords data = Normal r
    /\ supported_commands r = filter compatible data
    /\ not_supported_commands r
       = map (fun entry => (entry, triggers entry)) (filter incompatible data).
Proof.
  intro H. unfold analyze_keywords.
  destruct (forEach_entry_commands data
              {| supported_dictionary := []; not_supported_dictionary := [];
                 supported_commands := []; not_supported_commands := [] |} H)
    as [r [E [Hs Hn]]].
  exists r. auto.
Qed.

(** An entry that is [null] stops the analysis. *)
Lemma analyze_keywords_null_entry (before after : list json) :
  Forall (fun entry => entry <> JNull) before ->
  analyze_keywords (before ++ JNull :: after) = Throw TypeError.
Proof.
  unfold analyze_keywords. generalize
    {| supported_dictionary := []; not_supported_dictionary := [];
       supported_commands := []; not_supported_commands := [] |}.
  induction before as [| entry rest IH]; intros acc H; cbn [app forEach_entry].
  - reflexivity.
  - inversion H; subst.
    destruct (forEach_entry_commands [entry] acc) as [r [E _]].
    { constructor; [assumption | constructor]. }
    cbn [forEach_entry] in E.
    destruct (classify_entry acc entry); cbn [bind] in *; [| discriminate].
    apply IH. assumption.
Qed.

Lemma triggers_empty (entry : json) :
  (0 <? List.length (triggers entry))%nat = false <->
  ~ exists K, In K not_supported_keywords /\ key_occurs K entry.
Proof.
  split.
  - intros E [K HK]. apply triggers_spec in HK.
    destruct (triggers entry); [contradiction | discriminate].
  - intro H. destruct (triggers entry) as [| K rest] eqn:E; [reflexivity |].
    exfalso. apply H. exists K. apply triggers_spec. rewrite E. left. reflexivity.
Qed.

Lemma triggers_nonempty (entry : json) :
  (0 <? List.length (triggers entry))%nat = true <->
  exists K, In K not_supported_keywords /\ key_occurs K entry.
Proof.
  split.
  - intro E. destruct (triggers entry) as [| K rest] eqn:Et; [discriminate |].
    exists K. apply triggers_spec. rewrite Et. left. reflexivity.
  - intros [K HK]. apply triggers_spec in HK.
    destruct (triggers entry); [contradiction | reflexivity].
Qed.

Lemma classify_entry_positive (acc r : analysis) (entry : json) :
  classify_entry acc entry = Normal r ->
  positive_counts (supported_dictionary acc)
  /\ positive_counts (not_supported_dictionary acc) ->
  positive_counts (supported_dictionary r)
  /\ positive_counts (not_supported_dictionary r).
Proof.
  unfold classify_entry. destruct (entry_op entry) as [op | e]; [| discriminate].
  cbn [bind]. intros E Hacc.
  pose proof (traverse_positive entry
    {| seen_supported := supported_dictionary acc;
       seen_not_supported := not_supported_dictionary acc;
       command_category := [] |} Hacc) as [Hs Hn].
  destruct (is_command op).
  - destruct (0 <? _)%nat; injection E as <-; split; assumption.
  - injection E as <-. assumption.
Qed.

Lemma forEach_entry_positive (data : list json) :
  forall acc r,
    forEach_entry data acc = Normal r ->
    positive_counts (supported_dictionary acc)
    /\ positive_counts (not_supported_dictionary acc) ->
    positive_counts (supported_dictionary r)
    /\ positive_counts (not_supported_dictionary r).
Proof.
  induction data as [| entry rest IH]; intros acc r E Hacc; cbn [forEach_entry] in E.
  - injection E as <-. assumption.
  - destruct (classify_entry acc entry) as [acc' |] eqn:Ec; cbn [bind] in E; [| discriminate].
    apply (IH acc' r E). eapply classify_entry_positive; eassumption.
Qed.

Lemma analyze_keywords_positive (data : list json) (r : analysis) :
  analyze_keywords data = Normal r ->
  positive_counts (supported_dictionary r)
  /\ positive_counts (not_supported_dictionary r).
Proof.
  intro E. apply (forEach_entry_positive _ _ _ E).
  split; constructor.
Qed.

Lemma sum_values_shift (l : list Z) (a : Z) :
  fold_left Z.add l a = (a + fold_left Z.add l 0)%Z.
Proof.
  revert a. induction l as [| x rest IH]; intro a; cbn [fold_left].
  - lia.
  - rewrite (IH (a + x)%Z), (IH (0 + x)%Z). lia.
Qed.

Lemma sum_values_nonneg (d : dictionary) :
  positive_counts d -> (0 <= sum_values d)%Z.
Proof.
  unfold sum_values, positive_counts.
  induction d as [| [k v] rest IH]; intro H; cbn [map fold_left snd].
  - lia.
  - inversion H; subst. rewrite sum_values_shift. cbn [snd] in *.
    specialize (IH ltac:(assumption)). lia.
Qed.

(** ** The claims about the classifier *)

Lemma op_is_command_command (entry : json) :
  op_is_command entry = true <-> op_command entry.
Proof.
  unfold op_is_command, op_command. split.
  - destruct entry as [| b | q | s | items | fields]; cbn [entry_op is_command];
      try discriminate.
    destruct (lookup "op" fields) as [[| b | q | s | items | fields'] |] eqn:E;
      try discriminate.
    intro H. apply String.eqb_eq in H. subst s. exists fields. auto.
  - intros [fields [-> E]]. cbn [entry_op is_command]. rewrite E. reflexivity.
Qed.

(** C1. For every input sequence of profile entries (no entry being [null],
    on which [entry.op] throws), [analyze_keywords] returns, and: an entry
    whose [op] is not ["command"] is in neither output sequence; an entry of
    the input whose [op] is ["command"] is in exactly one of them, in
    [not_supported_commands] iff a not-supported keyword occurs as an object
    key somewhere inside it, and in [supported_commands] otherwise, also
    when no key inside it starts with a dollar sign. *)
Theorem analyze_keywords_partition (data : list json) :
  Forall (fun entry => entry <> JNull) data ->
  exists r,
    analyze_keywords data = Normal r
    /\ forall entry,
         let supported := In entry (supported_commands r) in
         let not_supported := In entry (map fst (not_supported_commands r)) in
         (~ op_command entry -> ~ supported /\ ~ not_supported)
         /\ (In entry data -> op_command entry ->
             (not_supported <-> flagged entry)
             /\ (supported <-> ~ flagged entry)
             /\ (supported \/ not_supported)
             /\ ~ (supported /\ not_supported)
             /\ ((forall K, key_occurs K entry -> startsWith_dollar K = false)
                 -> supported)).
Proof.
  intro Hdata.
  destruct (analyze_keywords_commands data Hdata) as [r [E [Hs Hn]]].
  exists r. split; [assumption |].
  intro entry. cbv zeta. rewrite Hs, Hn, map_map. cbn [fst]. rewrite map_id.
  rewrite !filter_In. unfold compatible, incompatible.
  split.
  - intro Hop.
    assert (Eop : op_is_command entry = false).
    { destruct (op_is_command entry) eqn:Eop; [| reflexivity].
      exfalso. apply Hop. apply op_is_command_command. assumption. }
    rewrite Eop. cbn [andb]. split; intros [_ ?]; discriminate.
  - intros Hin Hop. apply op_is_command_command in Hop. rewrite Hop.
    cbn [andb].
    destruct (0 <? List.length (triggers entry))%nat eqn:Et; cbn [negb].
    + apply triggers_nonempty in Et.
      assert (Hno : ~ (In entry data /\ false = true))
        by (intros [_ ?]; discriminate).
      split; [tauto |]. split; [tauto |]. split; [tauto |]. split; [tauto |].
      intro Hplain. exfalso. destruct Et as [K [HK Ho]].
      apply not_supported_shape in HK. apply Hplain in Ho.
      destruct HK. congruence.
    + apply triggers_empty in Et.
      assert (Hno : ~ (In entry data /\ false = true))
        by (intros [_ ?]; discriminate).
      split; [tauto |]. split; [tauto |]. split; [tauto |]. split; tauto.
Qed.

Lemma sample_profile_no_null :
  Forall (fun entry => entry <> JNull) sample_profile.
Proof. repeat constructor; discriminate. Defined.

Lemma analyze_keywords_partition_witness :
  Forall (fun entry => entry <> JNull) sample_profile
  /\ exists r,
       analyze_keywords sample_profile = Normal r
       /\ forall entry,
            let supported := In entry (supported_commands r) in
            let not_supported := In entry (map fst (not_supported_commands r)) in
            (~ op_command entry -> ~ supported /\ ~ not_supported)
            /\ (In entry sample_profile -> op_command entry ->
                (not_supported <-> flagged entry)
                /\ (supported <-> ~ flagged entry)
                /\ (supported \/ not_supported)
                /\ ~ (supported /\ not_supported)
                /\ ((forall K, key_occurs K entry -> startsWith_dollar K = false)
                    -> supported)).
Proof.
  split.
  - exact sample_profile_no_null.
  - exact (analyze_keywords_partition sample_profile sample_profile_no_null).
Defined.

(** C3. For every entry classified by [analyze_keywords] (an entry of the
    input whose [op] is ["command"]) and every not-supported keyword [K]
    that occurs as an object key somewhere inside it, however often: the
    entry is placed in [not_supported_commands], and [K] is listed exactly
    once in the [command_category] stored with it. *)
Theorem trigger_listed_once (data : list json) :
  Forall (fun entry => entry <> JNull) data ->
  exists r,
    analyze_keywords data = Normal r
    /\ forall entry K,
         In entry data -> op_is_command entry = true ->
         In K not_supported_keywords -> key_occurs K entry ->
         (exists category, In (entry, category) (not_supported_commands r))
         /\ (forall category,
               In (entry, category) (not_supported_commands r) ->
               count_occ string_dec category K = 1%nat).
Proof.
  intro Hdata.
  destruct (analyze_keywords_commands data Hdata) as [r [E [_ Hn]]].
  exists r. split; [assumption |].
  intros entry K Hin Hop HK Ho. rewrite Hn. split.
  - exists (triggers entry). apply in_map_iff. exists entry.
    split; [reflexivity |]. apply filter_In. split; [assumption |].
    unfold incompatible. rewrite Hop. cbn [andb].
    apply triggers_nonempty. exists K. tauto.
  - intros category Hc. apply in_map_iff in Hc.
    destruct Hc as [entry' [Heq _]]. injection Heq as -> <-.
    apply NoDup_count_occ'; [apply triggers_NoDup |].
    apply triggers_spec. tauto.
Qed.

Lemma trigger_listed_once_witness :
  Forall (fun entry => entry <> JNull) sample_profile
  /\ exists r,
       analyze_keywords sample_profile = Normal r
       /\ forall entry K,
            In entry sample_profile -> op_is_command entry = true ->
            In K not_supported_keywords -> key_occurs K entry ->
            (exists category, In (entry, category) (not_supported_commands r))
            /\ (forall category,
                  In (entry, category) (not_supported_commands r) ->
                  count_occ string_dec category K = 1%nat).
Proof.
  split.
  - exact sample_profile_no_null.
  - exact (trigger_listed_once sample_profile sample_profile_no_null).
Defined.

(** On the sample, ["$lookup"] occurs twice in the first entry and is
    listed once; the second entry is not a command; the third has no
    operator at all and is supported. *)
Example analyze_keywords_sample :
  analyze_keywords sample_profile = Normal sample_analysis.
Proof. reflexivity. Qed.

(** ** The compatibility percentage *)

Lemma summarize_keywords_same (sd nsd : dictionary) :
  MongoAssess.summarize_keywords sd nsd = summarize_keywords sd nsd.
Proof. reflexivity. Qed.

Lemma percent_of_counts (supported total : Z) :
  (0 <= supported <= total)%Z -> (0 < total)%Z ->
  exists p,
    (Num (inject_Z supported) / Num (inject_Z total) * Num 100)%js = Num p
    /\ p == 100 * inject_Z supported / inject_Z total
    /\ 0 <= p <= 100.
Proof.
  intros Hs Ht. unfold js_div, js_mul.
  assert (Hpos : 0 < inject_Z total).
  { change 0 with (inject_Z 0). rewrite <- Zlt_Qlt. lia. }
  assert (Hnz : ~ inject_Z total == 0).
  { intro Hz. rewrite Hz in Hpos. discriminate. }
  destruct (Qeq_bool (inject_Z total) 0) eqn:E.
  { apply Qeq_bool_iff in E. contradiction. }
  eexists. split; [reflexivity |]. split.
  - field. assumption.
  - assert (Hq : 0 <= inject_Z supported / inject_Z total <= 1).
    { split.
      - apply Qle_shift_div_l; [assumption |].
        rewrite Qmult_0_l. change 0 with (inject_Z 0). rewrite <- Zle_Qle. lia.
      - apply Qle_shift_div_r; [assumption |].
        rewrite Qmult_1_l. rewrite <- Zle_Qle. lia. }
    destruct Hq as [H0 H1]. split.
    + apply Qmult_le_0_compat; [assumption | discriminate].
    + setoid_replace 100 with (1 * 100) at 2 by reflexivity.
      apply Qmult_le_compat_r; [assumption | discriminate].
Qed.

(** C4. For the two keyword-count maps a classification produces,
    [summarize_keywords] (in both scripts) returns as [supported_percent]
    the number [100 * total_supported / (total_supported +
    total_not_supported)], and [0] when that denominator is [0]; the
    percentage is a finite number between [0] and [100]. *)
Theorem supported_percent_range (data : list json) (r : analysis) :
  analyze_keywords data = Normal r ->
  let s := summarize_keywords (supported_dictionary r) (not_supported_dictionary r) in
  let supported := sum_values (supported_dictionary r) in
  let not_supported := sum_values (not_supported_dictionary r) in
  total_supported s = supported
  /\ total_not_supported s = not_supported
  /\ ((supported + not_supported = 0)%Z -> supported_percent s = Num 0)
  /\ ((supported + not_supported <> 0)%Z ->
      num_eq (supported_percent s)
        (Num (100 * inject_Z supported / inject_Z (supported + not_supported))))
  /\ (exists p, supported_percent s = Num p /\ 0 <= p <= 100)
  /\ MongoAssess.summarize_keywords
       (supported_dictionary r) (not_supported_dictionary r) = s.
Proof.
  intro E. cbv zeta.
  destruct (analyze_keywords_positive data r E) as [Hs Hn].
  apply sum_values_nonneg in Hs. apply sum_values_nonneg in Hn.
  unfold summarize_keywords.
  cbn [total_supported total_not_supported supported_percent].
  set (a := sum_values (supported_dictionary r)) in *.
  set (b := sum_values (not_supported_dictionary r)) in *.
  split; [reflexivity |]. split; [reflexivity |].
  split; [| split; [| split; [| reflexivity]]].
  - intros ->. reflexivity.
  - intro Hnz. destruct (a + b >? 0)%Z eqn:Eg; [| lia].
    destruct (percent_of_counts a (a + b)) as [p [-> [Hp _]]]; [lia | lia |].
    exact Hp.
  - destruct (a + b >? 0)%Z eqn:Eg.
    + destruct (percent_of_counts a (a + b)) as [p [-> [_ Hp]]]; [lia | lia |].
      exists p. tauto.
    + exists 0. split; [reflexivity | split; discriminate].
Qed.

Lemma supported_percent_range_witness :
  analyze_keywords sample_profile = Normal sample_analysis
  /\ let r := sample_analysis in
     let s := summarize_keywords (supported_dictionary r) (not_supported_dictionary r) in
     let supported := sum_values (supported_dictionary r) in
     let not_supported := sum_values (not_supported_dictionary r) in
     total_supported s = supported
     /\ total_not_supported s = not_supported
     /\ ((supported + not_supported = 0)%Z -> supported_percent s = Num 0)
     /\ ((supported + not_supported <> 0)%Z ->
         num_eq (supported_percent s)
           (Num (100 * inject_Z supported / inject_Z (supported + not_supported))))
     /\ (exists p, supported_percent s = Num p /\ 0 <= p <= 100)
     /\ MongoAssess.summarize_keywords
          (supported_dictionary r) (not_supported_dictionary r) = s.
Proof.
  split.
  - reflexivity.
  - exact (supported_percent_range sample_profile sample_analysis eq_refl).
Defined.

(** * Properties of the sizing estimator *)

(** ** Numbers *)

Lemma Qeq_bool_false (q : Q) : ~ q == 0 -> Qeq_bool q 0 = false.
Proof.
  intro H. destruct (Qeq_bool q 0) eqn:E; [| reflexivity].
  apply Qeq_bool_iff in E. contradiction.
Qed.

Lemma Qlt_bool_iff (a b : Q) : Qlt_bool a b = true <-> a < b.
Proof.
  unfold Qlt_bool. rewrite negb_true_iff. split.
  - intro E. apply Qnot_le_lt. intro H. apply Qle_bool_iff in H. congruence.
  - intro H. destruct (Qle_bool b a) eqn:E; [| reflexivity].
    apply Qle_bool_iff in E. exfalso. exact (Qlt_not_le _ _ H E).
Qed.

Lemma Qlt_bool_false (a b : Q) : Qlt_bool a b = false <-> b <= a.
Proof.
  unfold Qlt_bool. rewrite negb_false_iff. apply Qle_bool_iff.
Qed.

Lemma js_div_finite (p q : Q) :
  ~ q == 0 -> (Num p / Num q)%js = Num (p / q).
Proof. intro H. unfold js_div. rewrite (Qeq_bool_false q H). reflexivity. Qed.

Lemma mebibyte : (Num 1024 * Num 1024)%js = Num (1024 * 1024).
Proof. reflexivity. Qed.

Lemma js_div_mebibyte (p : Q) :
  (Num p / (Num 1024 * Num 1024))%js = Num (p / (1024 * 1024)).
Proof. rewrite mebibyte. apply js_div_finite. discriminate. Qed.

Lemma js_or_zero (x : option Q) :
  exists v, js_or x (Num 0) = Num v /\ v == size_or_zero x.
Proof.
  destruct x as [q |]; cbn [js_or size_or_zero truthy].
  - destruct (Qeq_bool q 0) eqn:E; cbn [negb].
    + exists 0. split; [reflexivity |]. apply Qeq_bool_iff in E.
      symmetry. assumption.
    + exists q. split; reflexivity.
  - exists 0. split; reflexivity.
Qed.

(** ** Sums over the databases *)

Lemma memory_loop (db_stats : list (string * DbStats)) :
  forall a b : Q,
  exists a' b',
    fold_left
      (fun '(total_data_size, total_index_size) '(db, stats) =>
         ((total_data_size + js_or (dataSize stats) 0)%js,
          (total_index_size + js_or (indexSize stats) 0)%js))
      db_stats (Num a, Num b) = (Num a', Num b')
    /\ a' == a + total_over dataSize db_stats
    /\ b' == b + total_over indexSize db_stats.
Proof.
  induction db_stats as [| [db stats] rest IH]; intros a b; cbn [fold_left].
  - exists a, b. split; [reflexivity |].
    unfold total_over. cbn [map fold_right]. split; ring.
  - destruct (js_or_zero (dataSize stats)) as [x [-> Hx]].
    destruct (js_or_zero (indexSize stats)) as [y [-> Hy]].
    cbn [js_add].
    destruct (IH (a + x) (b + y)) as [a' [b' [E [Ha Hb]]]].
    exists a', b'. split; [exact E |].
    unfold total_over in *. cbn [map fold_right snd].
    rewrite Ha, Hb, Hx, Hy. split; ring.
Qed.

Lemma storage_loop (db_stats : list (string * DbStats)) :
  forall a : Q,
  exists a',
    fold_left
      (fun total_storage '(db, stats) =>
         (total_storage + js_or (totalSize stats) 0)%js)
      db_stats (Num a) = Num a'
    /\ a' == a + total_over totalSize db_stats.
Proof.
  induction db_stats as [| [db stats] rest IH]; intros a; cbn [fold_left].
  - exists a. split; [reflexivity |].
    unfold total_over. cbn [map fold_right]. ring.
  - destruct (js_or_zero (totalSize stats)) as [x [-> Hx]].
    cbn [js_add].
    destruct (IH (a + x)) as [a' [E Ha]].
    exists a'. split; [exact E |].
    unfold total_over in *. cbn [map fold_right snd].
    rewrite Ha, Hx. ring.
Qed.

Lemma calculate_memory_requirements_value
    (mem_stats : option json) (db_stats : list (string * DbStats)) :
  exists working_set : Q,
    working_set
    == (total_over dataSize db_stats + total_over indexSize db_stats)
       / (1024 * 1024)
    /\ calculate_memory_requirements mem_stats (Some db_stats)
       = {| working_set_size_mb := Num working_set;
            memory_required_mb :=
              Num (inject_Z (Qceiling (working_set * (3 # 2)))) |}.
Proof.
  unfold calculate_memory_requirements. cbn [for_in_entries].
  destruct (memory_loop db_stats 0 0) as [a [b [E [Ha Hb]]]].
  rewrite E. cbn [js_add]. rewrite js_div_mebibyte.
  eexists. split; [| reflexivity].
  rewrite Ha, Hb. field.
Qed.

Lemma calculate_storage_requirements_value (db_stats : list (string * DbStats)) :
  calculate_storage_requirements (Some db_stats)
  = Num (inject_Z (Qceiling (total_over totalSize db_stats * (6 # 5)))).
Proof.
  unfold calculate_storage_requirements. cbn [for_in_entries].
  destruct (storage_loop db_stats 0) as [a [E Ha]].
  rewrite E. cbn [js_mul Math_ceil].
  do 2 f_equal. apply Qceiling_comp. rewrite Ha. ring.
Qed.

(** ** CPU *)

(** C2, as stated, fails: with a [deprecated] sub-document in [opcounters]
    the total is not the sum of the six fields. *)
Lemma total_operations_not_six_counters :
  six_counters opcounters_with_deprecated == 370
  /\ total_operations
       (calculate_cpu_cores opcounters_with_deprecated (Some 370) None)
     = Num 377
  /\ ~ num_eq
         (total_operations
            (calculate_cpu_cores opcounters_with_deprecated (Some 370) None))
         (Num (six_counters opcounters_with_deprecated)).
Proof.
  split; [reflexivity |]. split; [reflexivity |].
  vm_compute. discriminate.
Qed.

(** C2, amended. For every metrics snapshot, [total_operations] is the sum
    of the six opcounters fields plus [opcounters.deprecated.query] when
    [opcounters] has a [deprecated] sub-document; [ops_per_sec] is that
    total divided by [uptimeSeconds] when [uptimeSeconds] is positive and
    [0] otherwise; [cpu_cores] is the ceiling of [ops_per_sec / 1500].  For
    the counters 100, 200, 50, 10, 5, 5 and an uptime of 370 the three
    values are 370, 1 and 1. *)
Theorem calculate_cpu_cores_value (oc : Opcounters) (uptime : Q) :
  let r := calculate_cpu_cores oc (Some uptime) None in
  let total := six_counters oc + deprecated_queries oc in
  (exists t, total_operations r = Num t /\ t == total)
  /\ (0 < uptime -> exists o, ops_per_sec r = Num o /\ o == total / uptime)
  /\ (uptime <= 0 -> ops_per_sec r = Num 0)
  /\ (exists o,
        ops_per_sec r = Num o
        /\ cpu_cores r = Num (inject_Z (Qceiling (o / 1500))))
  /\ (let e := calculate_cpu_cores example_opcounters (Some 370) None in
      total_operations e = Num 370
      /\ num_eq (ops_per_sec e) (Num 1)
      /\ cpu_cores e = Num 1).
Proof.
  cbv zeta.
  assert (T : exists t,
             total_operations (calculate_cpu_cores oc (Some uptime) None) = Num t
             /\ t == six_counters oc + deprecated_queries oc).
  { unfold calculate_cpu_cores, six_counters, deprecated_queries.
    cbn [total_operations]. destruct (deprecated oc) as [d |]; cbn [js_add];
      eexists; split; reflexivity. }
  destruct T as [t [Et Ht]].
  split; [exists t; tauto |].
  unfold calculate_cpu_cores in *. cbn [total_operations] in Et.
  cbn [ops_per_sec cpu_cores ToNumber js_gt]. rewrite Et.
  destruct (Qlt_bool 0 uptime) eqn:Eu.
  - apply Qlt_bool_iff in Eu.
    assert (Hnz : ~ uptime == 0).
    { intro Hz. rewrite Hz in Eu. discriminate. }
    rewrite (js_div_finite t uptime Hnz).
    rewrite js_div_finite by discriminate.
    split; [intros _; eexists; split; [reflexivity | rewrite Ht; reflexivity] |].
    split; [intro Hle; exfalso; exact (Qlt_not_le _ _ Eu Hle) |].
    split; [eexists; split; reflexivity |].
    split; [reflexivity |]. split; reflexivity.
  - apply Qlt_bool_false in Eu.
    rewrite js_div_finite by discriminate.
    split; [intro Hlt; exfalso; exact (Qlt_not_le _ _ Hlt Eu) |].
    split; [reflexivity |].
    split; [eexists; split; reflexivity |].
    split; [reflexivity |]. split; reflexivity.
Qed.

(** ** Memory and storage *)

(** C7. For every metrics snapshot, [working_set_size_mb] is the sum of
    [dataSize] plus the sum of [indexSize] over all databases of [dbStats],
    divided by [1024 * 1024]; [memory_required_mb] is the ceiling of
    [working_set_size_mb * 1.5]; [storage_required_bytes] is the ceiling of
    the sum of [totalSize] times [1.2].  For one database of 100 MiB of
    data, 50 MiB of indexes and 200 MiB in total these are 150, 225 and
    [ceil(200 * 1024 * 1024 * 1.2)], which is 251658240. *)
Theorem memory_and_storage_value
    (mem_stats : option json) (db_stats : list (string * DbStats)) :
  let m := calculate_memory_requirements mem_stats (Some db_stats) in
  (exists working_set : Q,
     working_set_size_mb m = Num working_set
     /\ working_set
        == (total_over dataSize db_stats + total_over indexSize db_stats)
           / (1024 * 1024)
     /\ memory_required_mb m
        = Num (inject_Z (Qceiling (working_set * (3 # 2)))))
  /\ calculate_storage_requirements (Some db_stats)
     = Num (inject_Z (Qceiling (total_over totalSize db_stats * (6 # 5))))
  /\ (let e := calculate_memory_requirements mem_stats (Some example_db_stats) in
      num_eq (working_set_size_mb e) (Num 150)
      /\ memory_required_mb e = Num 225
      /\ calculate_storage_requirements (Some example_db_stats)
         = Num (inject_Z (Qceiling (inject_Z (200 * 1024 * 1024) * (6 # 5))))
      /\ calculate_storage_requirements (Some example_db_stats)
         = Num 251658240).
Proof.
  cbv zeta. split; [| split].
  - destruct (calculate_memory_requirements_value mem_stats db_stats)
      as [w [Hw ->]].
    exists w. cbn [working_set_size_mb memory_required_mb]. auto.
  - apply calculate_storage_requirements_value.
  - split; [reflexivity |]. split; [reflexivity |]. split; reflexivity.
Qed.

(** ** Missing sizes *)

Lemma js_or_fill (x : option Q) :
  js_or (Some (size_or_zero x)) (Num 0) = js_or x (Num 0).
Proof. destruct x; reflexivity. Qed.

Lemma memory_fill (mem_stats : option json) (db_stats : list (string * DbStats)) :
  calculate_memory_requirements mem_stats
    (Some (map (fun '(db, stats) => (db, fill_db_stats stats)) db_stats))
  = calculate_memory_requirements mem_stats (Some db_stats).
Proof.
  unfold calculate_memory_requirements. cbn [for_in_entries].
  generalize (Num 0, Num 0).
  induction db_stats as [| [db stats] rest IH]; intro acc; [reflexivity |].
  cbn [map fold_left]. destruct acc as [a b].
  cbn [fill_db_stats dataSize indexSize]. rewrite !js_or_fill.
  apply IH.
Qed.

Lemma storage_fill (db_stats : list (string * DbStats)) :
  calculate_storage_requirements
    (Some (map (fun '(db, stats) => (db, fill_db_stats stats)) db_stats))
  = calculate_storage_requirements (Some db_stats).
Proof.
  unfold calculate_storage_requirements. cbn [for_in_entries].
  assert (L : forall acc,
    fold_left
      (fun total_storage '(db, stats) =>
         (total_storage + js_or (totalSize stats) 0)%js)
      (map (fun '(db, stats) => (db, fill_db_stats stats)) db_stats) acc
    = fold_left
        (fun total_storage '(db, stats) =>
           (total_storage + js_or (totalSize stats) 0)%js)
        db_stats acc).
  { induction db_stats as [| [db stats] rest IH]; intro acc; [reflexivity |].
    cbn [map fold_left fill_db_stats totalSize]. rewrite js_or_fill.
    apply IH. }
  rewrite L. reflexivity.
Qed.

Lemma network_fill (network_stats : Network) (uptime_seconds : option Q) :
  calculate_network_bandwidth (fill_network network_stats) uptime_seconds
  = calculate_network_bandwidth network_stats uptime_seconds.
Proof.
  unfold calculate_network_bandwidth, fill_network. cbn [bytesIn bytesOut].
  rewrite !js_or_fill. reflexivity.
Qed.

Lemma network_finite (network_stats : Network) (uptime_seconds : option Q) :
  finite (calculate_network_bandwidth network_stats uptime_seconds).
Proof.
  unfold calculate_network_bandwidth.
  destruct (js_or_zero (bytesIn network_stats)) as [x [-> _]].
  destruct (js_or_zero (bytesOut network_stats)) as [y [-> _]].
  cbn [js_add]. rewrite js_div_mebibyte.
  destruct uptime_seconds as [u |]; cbn [ToNumber js_gt].
  - destruct (Qlt_bool 0 u) eqn:Eu.
    + apply Qlt_bool_iff in Eu. rewrite js_div_finite.
      * eexists. reflexivity.
      * intro Hz. rewrite Hz in Eu. discriminate.
    + eexists. reflexivity.
  - eexists. reflexivity.
Qed.

Lemma parseFloat_toFixed_finite (digits : nat) (a : number) :
  finite a -> finite (parseFloat_toFixed digits a).
Proof.
  intros [q ->]. unfold parseFloat_toFixed.
  destruct (Qle_bool _ _); eexists; reflexivity.
Qed.

(** ** The presence check and the sizing it guards *)

Lemma present_Some {A : Type} (x : option A) :
  present x = true -> exists a, x = Some a.
Proof. destruct x as [a |]; [eexists; reflexivity | discriminate]. Qed.

Lemma required_present_fields (metrics : Metrics) :
  all_required_present metrics ->
  exists oc uptime conn net dbs,
    opcounters metrics = Some oc
    /\ uptimeSeconds metrics = Some uptime
    /\ connections metrics = Some conn
    /\ network metrics = Some net
    /\ dbStats metrics = Some dbs.
Proof.
  intro H.
  destruct (present_Some _ (H "opcounters"%string ltac:(cbn; tauto))) as [oc Eoc].
  destruct (present_Some _ (H "uptimeSeconds"%string ltac:(cbn; tauto))) as [u Eu].
  destruct (present_Some _ (H "connections"%string ltac:(cbn; tauto))) as [c Ec].
  destruct (present_Some _ (H "network"%string ltac:(cbn; tauto))) as [n En].
  destruct (present_Some _ (H "dbStats"%string ltac:(cbn; tauto))) as [d Ed].
  exists oc, u, c, n, d. auto.
Qed.

Lemma missing_fields_nil (metrics : Metrics) :
  missing_fields metrics = [] <-> all_required_present metrics.
Proof.
  unfold missing_fields, all_required_present. split.
  - intros E field Hin.
    destruct (has_field field metrics) eqn:Eh; [reflexivity |].
    assert (Hm : In field (filter (fun f => negb (has_field f metrics)) required_fields)).
    { apply filter_In. rewrite Eh. auto. }
    rewrite E in Hm. contradiction.
  - intro H. 
    destruct (filter (fun f => negb (has_field f metrics)) required_fields)
      as [| f rest] eqn:E; [reflexivity |].
    assert (Hm : In f (filter (fun f => negb (has_field f metrics)) required_fields))
      by (rewrite E; left; reflexivity).
    apply filter_In in Hm. destruct Hm as [Hin Hneg].
    rewrite (H f Hin) in Hneg. discriminate.
Qed.

Lemma perform_sizing_returns (metrics : Metrics) :
  all_required_present metrics ->
  exists sizing,
    perform_sizing metrics (dbStats metrics) = Normal sizing
    /\ finite (Working_Set_Size_MB sizing)
    /\ finite (Memory_Required_MB sizing)
    /\ finite (Storage_Required_Bytes sizing)
    /\ finite (Network_Bandwidth_Required sizing).
Proof.
  intro H.
  destruct (required_present_fields metrics H)
    as [oc [u [c [n [d [Eoc [Eu [Ec [En Ed]]]]]]]]].
  unfold perform_sizing. rewrite Eoc, En, Ec, Ed. cbn [property_of bind].
  eexists. split; [reflexivity |].
  cbn [Working_Set_Size_MB Memory_Required_MB Storage_Required_Bytes
       Network_Bandwidth_Required].
  destruct (calculate_memory_requirements_value (memory metrics) d)
    as [w [_ ->]].
  cbn [working_set_size_mb memory_required_mb].
  rewrite calculate_storage_requirements_value.
  split; [apply parseFloat_toFixed_finite; eexists; reflexivity |].
  split; [eexists; reflexivity |].
  split; [eexists; reflexivity |].
  apply parseFloat_toFixed_finite. apply network_finite.
Qed.

Lemma perform_sizing_fill (metrics : Metrics) :
  perform_sizing (fill_metrics metrics) (dbStats (fill_metrics metrics))
  = perform_sizing metrics (dbStats metrics).
Proof.
  unfold perform_sizing, fill_metrics.
  cbn [opcounters uptimeSeconds connections memory network dbStats].
  destruct (opcounters metrics) as [oc |]; [| reflexivity].
  destruct (network metrics) as [net |]; cbn [option_map property_of bind];
    [| reflexivity].
  destruct (connections metrics) as [conn |]; cbn [property_of bind];
    [| reflexivity].
  rewrite network_fill.
  destruct (dbStats metrics) as [dbs |]; cbn [option_map]; [| reflexivity].
  rewrite memory_fill, storage_fill. reflexivity.
Qed.

Lemma example_metrics_complete : all_required_present example_metrics.
Proof.
  intros field Hin. cbn in Hin.
  repeat (destruct Hin as [<- | Hin]; [reflexivity |]). contradiction.
Defined.

(** C10. For every snapshot that passes the presence check of the six
    required fields, [perform_sizing] returns; its memory, storage and
    network results are finite numbers; and they, like the whole result,
    are the ones computed from the snapshot in which every absent
    [dataSize], [indexSize], [totalSize], [bytesIn] and [bytesOut] is
    written as [0]. *)
Theorem sizing_tolerates_missing_sizes (metrics : Metrics) :
  all_required_present metrics ->
  exists sizing,
    perform_sizing metrics (dbStats metrics) = Normal sizing
    /\ perform_sizing (fill_metrics metrics) (dbStats (fill_metrics metrics))
       = Normal sizing
    /\ finite (Working_Set_Size_MB sizing)
    /\ finite (Memory_Required_MB sizing)
    /\ finite (Storage_Required_Bytes sizing)
    /\ finite (Network_Bandwidth_Required sizing)
    /\ (forall mem_stats db_stats,
          calculate_memory_requirements mem_stats
            (Some (map (fun '(db, stats) => (db, fill_db_stats stats)) db_stats))
          = calculate_memory_requirements mem_stats (Some db_stats))
    /\ (forall db_stats,
          calculate_storage_requirements
            (Some (map (fun '(db, stats) => (db, fill_db_stats stats)) db_stats))
          = calculate_storage_requirements (Some db_stats))
    /\ (forall network_stats uptime_seconds,
          calculate_network_bandwidth (fill_network network_stats) uptime_seconds
          = calculate_network_bandwidth network_stats uptime_seconds).
Proof.
  intro H.
  destruct (perform_sizing_returns metrics H) as [sizing [E [Hw [Hm [Hs Hn]]]]].
  exists sizing. rewrite perform_sizing_fill.
  repeat (split; [assumption |]).
  split; [exact memory_fill |]. split; [exact storage_fill | exact network_fill].
Qed.

Lemma sizing_tolerates_missing_sizes_witness :
  all_required_present example_metrics
  /\ exists sizing,
       perform_sizing example_metrics (dbStats example_metrics) = Normal sizing
       /\ perform_sizing (fill_metrics example_metrics)
            (dbStats (fill_metrics example_metrics))
          = Normal sizing
       /\ finite (Working_Set_Size_MB sizing)
       /\ finite (Memory_Required_MB sizing)
       /\ finite (Storage_Required_Bytes sizing)
       /\ finite (Network_Bandwidth_Required sizing)
       /\ (forall mem_stats db_stats,
             calculate_memory_requirements mem_stats
               (Some (map (fun '(db, stats) => (db, fill_db_stats stats)) db_stats))
             = calculate_memory_requirements mem_stats (Some db_stats))
       /\ (forall db_stats,
             calculate_storage_requirements
               (Some (map (fun '(db, stats) => (db, fill_db_stats stats)) db_stats))
             = calculate_storage_requirements (Some db_stats))
       /\ (forall network_stats uptime_seconds,
             calculate_network_bandwidth (fill_network network_stats) uptime_seconds
             = calculate_network_bandwidth network_stats uptime_seconds).
Proof.
  split.
  - exact example_metrics_complete.
  - exact (sizing_tolerates_missing_sizes example_metrics example_metrics_complete).
Defined.

(** ** The memory field *)

(** C9. [calculate_memory_requirements] never reads [mem_stats]; two
    snapshots that agree on [opcounters], [uptimeSeconds], [connections],
    [network] and [dbStats] get the same result from [perform_sizing],
    whatever their [mem] and [memory] fields hold. *)
Theorem sizing_ignores_memory (m1 m2 : Metrics) :
  opcounters m1 = opcounters m2 ->
  uptimeSeconds m1 = uptimeSeconds m2 ->
  connections m1 = connections m2 ->
  network m1 = network m2 ->
  dbStats m1 = dbStats m2 ->
  perform_sizing m1 (dbStats m1) = perform_sizing m2 (dbStats m2)
  /\ (forall db_stats, perform_sizing m1 db_stats = perform_sizing m2 db_stats)
  /\ (forall mem_stats mem_stats' db_stats,
        calculate_memory_requirements mem_stats db_stats
        = calculate_memory_requirements mem_stats' db_stats).
Proof.
  intros Eoc Eu Ec En Ed.
  assert (M : forall mem_stats mem_stats' db_stats,
             calculate_memory_requirements mem_stats db_stats
             = calculate_memory_requirements mem_stats' db_stats)
    by reflexivity.
  assert (P : forall db_stats,
             perform_sizing m1 db_stats = perform_sizing m2 db_stats).
  { intro db_stats. unfold perform_sizing.
    rewrite Eoc, Eu, Ec, En, (M (memory m1) (memory m2)). reflexivity. }
  split; [rewrite Ed; apply P |]. split; assumption.
Qed.

Lemma sizing_ignores_memory_witness :
  mem example_metrics <> mem example_metrics_other_memory
  /\ memory example_metrics <> memory example_metrics_other_memory
  /\ opcounters example_metrics = opcounters example_metrics_other_memory
  /\ uptimeSeconds example_metrics = uptimeSeconds example_metrics_other_memory
  /\ connections example_metrics = connections example_metrics_other_memory
  /\ network example_metrics = network example_metrics_other_memory
  /\ dbStats example_metrics = dbStats example_metrics_other_memory
  /\ perform_sizing example_metrics (dbStats example_metrics)
     = perform_sizing example_metrics_other_memory
         (dbStats example_metrics_other_memory)
  /\ (forall db_stats,
        perform_sizing example_metrics db_stats
        = perform_sizing example_metrics_other_memory db_stats)
  /\ (forall mem_stats mem_stats' db_stats,
        calculate_memory_requirements mem_stats db_stats
        = calculate_memory_requirements mem_stats' db_stats).
Proof.
  split; [discriminate |]. split; [discriminate |].
  do 5 (split; [reflexivity |]).
  exact (sizing_ignores_memory example_metrics example_metrics_other_memory
           eq_refl eq_refl eq_refl eq_refl eq_refl).
Defined.

(** ** Mode 7 *)

Lemma append_assoc (a b c : string) :
  ((a ++ b) ++ c = a ++ (b ++ c))%string.
Proof. induction a as [| ch a IH]; cbn; [reflexivity | rewrite IH; reflexivity]. Qed.

Lemma append_empty_r (a : string) : (a ++ "")%string = a.
Proof. induction a as [| ch a IH]; cbn; [reflexivity | rewrite IH; reflexivity]. Qed.

Lemma contains_after (prefix text part : string) :
  contains text part -> contains (prefix ++ text) part.
Proof.
  intros [before [after ->]]. exists (prefix ++ before)%string, after.
  rewrite append_assoc. reflexivity.
Qed.

Lemma concat_contains (sep : string) (parts : list string) (part : string) :
  In part parts -> contains (String.concat sep parts) part.
Proof.
  induction parts as [| first rest IH]; [contradiction |].
  intros [-> | Hin].
  - destruct rest as [| second rest]; cbn [String.concat].
    + exists ""%string, ""%string. cbn. rewrite append_empty_r. reflexivity.
    + exists ""%string, (sep ++ String.concat sep (second :: rest))%string.
      reflexivity.
  - destruct rest as [| second rest]; [contradiction |].
    change (String.concat sep (first :: second :: rest))
      with (first ++ sep ++ String.concat sep (second :: rest))%string.
    apply contains_after, contains_after, IH. assumption.
Qed.

(** ** The file as loaded *)

Lemma for_in_databases_returns {S : Type} (body : S -> DbStats -> S)
    (entries : list (string * MetricsFile.property DbStats)) :
  forall acc,
    (exists r, Loaded.for_in_databases body entries acc = Normal r)
    <-> Forall (fun entry => is_record (snd entry)) entries.
Proof.
  induction entries as [| [db p] rest IH]; intro acc;
    cbn [Loaded.for_in_databases].
  - split; [constructor | intros _; eexists; reflexivity].
  - destruct p as [| | stats]; cbn [Loaded.properties_of bind].
    + split; [intros [r H]; discriminate |].
      intro H. inversion H as [| ? ? [a Ha] ?]. discriminate.
    + split; [intros [r H]; discriminate |].
      intro H. inversion H as [| ? ? [a Ha] ?]. discriminate.
    + rewrite IH. split.
      * intro H. constructor; [exists stats; reflexivity | assumption].
      * intro H. inversion H. assumption.
Qed.

Lemma for_in_databases_throws {S : Type} (body : S -> DbStats -> S)
    (entries : list (string * MetricsFile.property DbStats)) :
  forall acc e,
    Loaded.for_in_databases body entries acc = Throw e -> e = TypeError.
Proof.
  induction entries as [| [db p] rest IH]; intros acc e;
    cbn [Loaded.for_in_databases]; [discriminate |].
  destruct p as [| | stats]; cbn [Loaded.properties_of bind];
    [congruence | congruence | apply IH].
Qed.

Lemma for_in_databases_fold {S : Type} (body : S -> DbStats -> S)
    (step : S -> string * DbStats -> S)
    (entries : list (string * DbStats)) :
  (forall acc db stats, step acc (db, stats) = body acc stats) ->
  forall acc,
    Loaded.for_in_databases body
      (map (fun entry => (fst entry, MetricsFile.document (snd entry))) entries)
      acc
    = Normal (fold_left step entries acc).
Proof.
  intro Hstep.
  induction entries as [| [db stats] rest IH]; intro acc;
    cbn [map fst snd Loaded.for_in_databases Loaded.properties_of bind
         fold_left]; [reflexivity |].
  rewrite IH, Hstep. reflexivity.
Qed.

Lemma file_entries (db_stats : option (list (string * DbStats))) :
  Loaded.for_in_entries
    (property_of_option
       (option_map
          (map (fun entry => (fst entry, MetricsFile.document (snd entry))))
          db_stats))
  = map (fun entry => (fst entry, MetricsFile.document (snd entry)))
      (for_in_entries db_stats).
Proof. destruct db_stats; reflexivity. Qed.

Lemma records_of_documents {A : Type} (entries : list (string * A)) :
  Loaded.records_of
    (map (fun entry => (fst entry, MetricsFile.document (snd entry))) entries)
  = entries.
Proof.
  induction entries as [| [key a] rest IH];
    cbn [map fst snd Loaded.records_of Loaded.record_of]; [reflexivity |].
  rewrite IH. reflexivity.
Qed.

Lemma snapshot_of_file (metrics : Metrics) :
  Loaded.snapshot_of (file_of metrics) = metrics.
Proof.
  destruct metrics as [oc u c m mm n d]. unfold Loaded.snapshot_of, file_of.
  cbn [MetricsFile.opcounters MetricsFile.uptimeSeconds MetricsFile.connections
       MetricsFile.mem MetricsFile.memory MetricsFile.network
       MetricsFile.dbStats opcounters uptimeSeconds connections mem memory
       network dbStats].
  destruct oc, c, n; destruct d as [entries |];
    cbn [property_of_option Loaded.record_of option_map];
    rewrite ?records_of_documents; reflexivity.
Qed.

(** On the file of a snapshot the two readings of [perform_sizing] agree. *)
Lemma perform_sizing_file (metrics : Metrics) :
  Loaded.perform_sizing (file_of metrics) (MetricsFile.dbStats (file_of metrics))
  = perform_sizing metrics (dbStats metrics).
Proof.
  unfold Loaded.perform_sizing, perform_sizing,
    Loaded.calculate_memory_requirements, Loaded.calculate_storage_requirements,
    calculate_memory_requirements, calculate_storage_requirements, file_of.
  cbn [MetricsFile.opcounters MetricsFile.uptimeSeconds MetricsFile.connections
       MetricsFile.memory MetricsFile.network MetricsFile.dbStats].
  rewrite file_entries.
  rewrite (for_in_databases_fold _
             (fun '(total_data_size, total_index_size) '(db, stats) =>
                ((total_data_size + js_or (dataSize stats) 0)%js,
                 (total_index_size + js_or (indexSize stats) 0)%js)))
    by (intros [a b] db stats; reflexivity).
  rewrite (for_in_databases_fold _
             (fun total_storage '(db, stats) =>
                (total_storage + js_or (totalSize stats) 0)%js))
    by (intros acc db stats; reflexivity).
  destruct (opcounters metrics) as [oc |];
    cbn [property_of_option Loaded.properties_of property_of bind];
    [| reflexivity].
  destruct (fold_left _ (for_in_entries (dbStats metrics)) (Num 0, Num 0))
    as [total_data_size total_index_size].
  cbn [bind].
  destruct (network metrics) as [net |];
    cbn [property_of_option Loaded.properties_of property_of bind];
    [| reflexivity].
  destruct (connections metrics) as [conn |];
    cbn [property_of_option Loaded.properties_of property_of bind];
    reflexivity.
Qed.

Lemma missing_fields_file (metrics : Metrics) :
  Loaded.missing_fields (file_of metrics) = missing_fields metrics.
Proof.
  unfold Loaded.missing_fields, missing_fields. apply filter_ext_in.
  intros field Hin. f_equal. cbn in Hin.
  destruct metrics as [oc u c m mm n d].
  repeat (destruct Hin as [<- | Hin];
          [destruct oc, u, c, m, n, d; reflexivity |]).
  contradiction.
Qed.

(** On the file of a snapshot mode 7 is the mode 7 of the snapshot. *)
Lemma mode_7_file (metrics : Metrics) (base_name timestamp : string) :
  Loaded.mode_7 (file_of metrics) base_name timestamp
  = mode_7 metrics base_name timestamp.
Proof.
  unfold Loaded.mode_7, mode_7.
  rewrite missing_fields_file, perform_sizing_file, snapshot_of_file.
  reflexivity.
Qed.

Lemma perform_sizing_readable (f : MetricsFile.t)
    (db_stats : MetricsFile.property (list (string * MetricsFile.property DbStats))) :
  (sizing_readable f db_stats
   /\ exists sizing, Loaded.perform_sizing f db_stats = Normal sizing)
  \/ (~ sizing_readable f db_stats
      /\ Loaded.perform_sizing f db_stats = Throw TypeError).
Proof.
  unfold sizing_readable, Loaded.perform_sizing,
    Loaded.calculate_memory_requirements, Loaded.calculate_storage_requirements.
  assert (Hrec : forall (A : Type) (p : MetricsFile.property A),
             (exists a, p = MetricsFile.document a
                        /\ Loaded.properties_of p = Normal a)
             \/ (~ is_record p /\ Loaded.properties_of p = Throw TypeError)).
  { intros A p. destruct p as [| | a].
    - right. split; [intros [a H]; discriminate | reflexivity].
    - right. split; [intros [a H]; discriminate | reflexivity].
    - left. exists a. auto. }
  assert (Hentries :
            (forall entries,
               db_stats = MetricsFile.document entries ->
               Forall (fun entry => is_record (snd entry)) entries)
            <-> Forall (fun entry => is_record (snd entry))
                  (Loaded.for_in_entries db_stats)).
  { destruct db_stats as [| | entries]; cbn [Loaded.for_in_entries].
    - split; [constructor | intros _ entries H; discriminate].
    - split; [constructor | intros _ entries H; discriminate].
    - split; [intro H; apply H; reflexivity |].
      intros H entries' E. injection E as <-. assumption. }
  destruct (Hrec _ (MetricsFile.opcounters f)) as [[oc [Eoc ->]] | [Noc ->]];
    cbn [bind];
    [| right; split; [intros [H _]; contradiction | reflexivity]].
  destruct (Loaded.for_in_databases
              (fun '(total_data_size, total_index_size) stats =>
                 ((total_data_size + js_or (dataSize stats) 0)%js,
                  (total_index_size + js_or (indexSize stats) 0)%js))
              (Loaded.for_in_entries db_stats) (Num 0, Num 0))
    as [[total_data_size total_index_size] | e] eqn:Em; cbn [bind].
  - assert (Hall : Forall (fun entry => is_record (snd entry))
                     (Loaded.for_in_entries db_stats)).
    { eapply for_in_databases_returns. eexists. exact Em. }
    destruct (proj2 (for_in_databases_returns
                       (fun total_storage stats =>
                          (total_storage + js_or (totalSize stats) 0)%js)
                       (Loaded.for_in_entries db_stats) (Num 0)) Hall)
      as [total_storage ->].
    cbn [bind].
    destruct (Hrec _ (MetricsFile.network f)) as [[net [En ->]] | [Nn ->]];
      cbn [bind];
      [| right; split; [intros [_ [H _]]; contradiction | reflexivity]].
    destruct (Hrec _ (MetricsFile.connections f)) as [[conn [Ec ->]] | [Nc ->]];
      cbn [bind];
      [| right; split; [intros [_ [_ [H _]]]; contradiction | reflexivity]].
    left. split; [| eexists; reflexivity].
    split; [exists oc; assumption |]. split; [exists net; assumption |].
    split; [exists conn; assumption |]. apply Hentries. assumption.
  - apply for_in_databases_throws in Em as Ee. subst e.
    right. split; [| reflexivity].
    intros [_ [_ [_ H]]]. apply Hentries in H.
    apply (for_in_databases_returns
             (fun '(total_data_size, total_index_size) stats =>
                ((total_data_size + js_or (dataSize stats) 0)%js,
                 (total_index_size + js_or (indexSize stats) 0)%js))
             _ (Num 0, Num 0)) in H.
    destruct H as [r H]. rewrite H in Em. discriminate.
Qed.

Lemma missing_fields_absent_names (f : MetricsFile.t) :
  Loaded.missing_fields f = absent_names f.
Proof.
  destruct f as [oc u c m mm n d].
  destruct oc, u, c, m, n, d; reflexivity.
Qed.

Lemma absent_names_nil (f : MetricsFile.t) :
  (required_absent f -> absent_names f <> [])
  /\ (required_in_file f -> absent_names f = []).
Proof.
  destruct f as [oc u c m mm n d].
  unfold required_absent, required_in_file, absent_names.
  cbn [MetricsFile.opcounters MetricsFile.uptimeSeconds MetricsFile.connections
       MetricsFile.mem MetricsFile.network MetricsFile.dbStats].
  split.
  - intros H E.
    destruct oc; [discriminate E | |];
      (destruct u; [| discriminate E]);
      (destruct c; [discriminate E | |]);
      (destruct m; [| discriminate E]);
      (destruct n; [discriminate E | |]);
      (destruct d; [discriminate E | |]);
      decompose [or] H; discriminate.
  - intros [Ho [Hu [Hc [Hm [Hn Hd]]]]].
    destruct oc; [contradiction | |];
      (destruct u; [| contradiction]);
      (destruct c; [contradiction | |]);
      (destruct m; [| contradiction]);
      (destruct n; [contradiction | |]);
      (destruct d; [contradiction | |]); reflexivity.
Qed.

Lemma absent_names_listed (f : MetricsFile.t) :
  (MetricsFile.opcounters f = MetricsFile.undefined ->
   In "opcounters"%string (absent_names f))
  /\ (MetricsFile.uptimeSeconds f = None ->
      In "uptimeSeconds"%string (absent_names f))
  /\ (MetricsFile.connections f = MetricsFile.undefined ->
      In "connections"%string (absent_names f))
  /\ (MetricsFile.mem f = None -> In "mem"%string (absent_names f))
  /\ (MetricsFile.network f = MetricsFile.undefined ->
      In "network"%string (absent_names f))
  /\ (MetricsFile.dbStats f = MetricsFile.undefined ->
      In "dbStats"%string (absent_names f)).
Proof.
  unfold absent_names.
  repeat split; intro H; rewrite H; rewrite !in_app_iff; cbn [In]; auto 10.
Qed.

(** C5. For every metrics file loaded in the sizing mode.  If one of the
    six required keys [opcounters], [uptimeSeconds], [connections], [mem],
    [network], [dbStats] is not in the file, mode 7 only logs the
    rejection, a message that lists the absent names, each of them, and
    writes no report; [perform_sizing] is not part of what it returns.  If
    the six are in the file, sizing proceeds: mode 7 calls
    [perform_sizing] on the file and completes as that call does, with the
    report of its result when it returns, which it does when every
    sub-document it reads is a record, and with its [TypeError] when one of
    them is [null]. *)
Theorem mode_7_checks_required_fields
    (metrics_data : MetricsFile.t) (base_name timestamp : string) :
  (required_absent metrics_data ->
   exists rejection,
     Loaded.mode_7 metrics_data base_name timestamp
     = Normal [console_log rejection]
     /\ rejection
        = ("Metrics JSON file is missing required fields: "
             ++ String.concat ", " (absent_names metrics_data))%string
     /\ (MetricsFile.opcounters metrics_data = MetricsFile.undefined ->
         contains rejection "opcounters")
     /\ (MetricsFile.uptimeSeconds metrics_data = None ->
         contains rejection "uptimeSeconds")
     /\ (MetricsFile.connections metrics_data = MetricsFile.undefined ->
         contains rejection "connections")
     /\ (MetricsFile.mem metrics_data = None -> contains rejection "mem")
     /\ (MetricsFile.network metrics_data = MetricsFile.undefined ->
         contains rejection "network")
     /\ (MetricsFile.dbStats metrics_data = MetricsFile.undefined ->
         contains rejection "dbStats"))
  /\ (required_in_file metrics_data ->
      Loaded.mode_7 metrics_data base_name timestamp
      = (sizing <-
           Loaded.perform_sizing metrics_data
             (MetricsFile.dbStats metrics_data) ;;
         Normal
           [generate_html_report [] [] [] []
              (sizing_report_name base_name timestamp)
              (Some (Loaded.snapshot_of metrics_data)) (Some sizing);
            console_log
              ("Sizing report has been generated and saved as '"
                 ++ sizing_report_name base_name timestamp ++ "'.")%string])
      /\ (sizing_readable metrics_data (MetricsFile.dbStats metrics_data) ->
          exists sizing,
            Loaded.perform_sizing metrics_data
              (MetricsFile.dbStats metrics_data)
            = Normal sizing
            /\ Loaded.mode_7 metrics_data base_name timestamp
               = Normal
                   [generate_html_report [] [] [] []
                      (sizing_report_name base_name timestamp)
                      (Some (Loaded.snapshot_of metrics_data)) (Some sizing);
                    console_log
                      ("Sizing report has been generated and saved as '"
                         ++ sizing_report_name base_name timestamp
                         ++ "'.")%string])
      /\ (~ sizing_readable metrics_data (MetricsFile.dbStats metrics_data) ->
          Loaded.mode_7 metrics_data base_name timestamp = Throw TypeError)).
Proof.
  split.
  - intro Habsent. apply absent_names_nil in Habsent.
    destruct (absent_names_listed metrics_data)
      as [Lo [Lu [Lc [Lm [Ln Ld]]]]].
    assert (C : forall name,
               In name (absent_names metrics_data) ->
               contains
                 ("Metrics JSON file is missing required fields: "
                    ++ String.concat ", " (absent_names metrics_data))
                 name).
    { intros name H. apply contains_after, concat_contains. assumption. }
    eexists. split; [| split; [reflexivity |]].
    + unfold Loaded.mode_7. rewrite missing_fields_absent_names.
      destruct (absent_names metrics_data) as [| name rest];
        [contradiction | reflexivity].
    + repeat split; intro H; apply C; auto.
  - intro Hin. apply absent_names_nil in Hin.
    assert (E : Loaded.mode_7 metrics_data base_name timestamp
                = (sizing <-
                     Loaded.perform_sizing metrics_data
                       (MetricsFile.dbStats metrics_data) ;;
                   Normal
                     [generate_html_report [] [] [] []
                        (sizing_report_name base_name timestamp)
                        (Some (Loaded.snapshot_of metrics_data)) (Some sizing);
                      console_log
                        ("Sizing report has been generated and saved as '"
                           ++ sizing_report_name base_name timestamp
                           ++ "'.")%string])).
    { unfold Loaded.mode_7. rewrite missing_fields_absent_names, Hin.
      reflexivity. }
    split; [exact E |]. rewrite E.
    destruct (perform_sizing_readable metrics_data
                (MetricsFile.dbStats metrics_data))
      as [[Hr [sizing Es]] | [Hn Et]].
    + split; [| intro H; contradiction].
      intros _. exists sizing. split; [assumption |]. rewrite Es. reflexivity.
    + split; [intro H; contradiction |].
      intros _. rewrite Et. reflexivity.
Qed.

Lemma example_file_readable :
  required_in_file example_file
  /\ sizing_readable example_file (MetricsFile.dbStats example_file).
Proof.
  split.
  - repeat split; discriminate.
  - split; [eexists; reflexivity |]. split; [eexists; reflexivity |].
    split; [eexists; reflexivity |].
    intros entries E. injection E as <-.
    repeat constructor; eexists; reflexivity.
Defined.

Lemma mode_7_checks_required_fields_witness :
  Loaded.mode_7 example_file_without_mem "metrics" "2024-05-01T10_00_00"
  = Normal
      [console_log "Metrics JSON file is missing required fields: mem, network"]
  /\ (exists sizing,
        Loaded.perform_sizing example_file (MetricsFile.dbStats example_file)
        = Normal sizing
        /\ Loaded.mode_7 example_file "metrics" "2024-05-01T10_00_00"
           = Normal
               [generate_html_report [] [] [] []
                  "metrics_sizing_report_2024-05-01T10_00_00.html"
                  (Some example_metrics) (Some sizing);
                console_log
                  "Sizing report has been generated and saved as 'metrics_sizing_report_2024-05-01T10_00_00.html'."])
  /\ Loaded.mode_7 example_file_null_opcounters "metrics" "2024-05-01T10_00_00"
     = Throw TypeError
  /\ Loaded.mode_7 example_file_null_database "metrics" "2024-05-01T10_00_00"
     = Throw TypeError.
Proof.
  split; [| split; [| split]].
  - destruct (proj1 (mode_7_checks_required_fields example_file_without_mem
                       "metrics" "2024-05-01T10_00_00"))
      as [rejection [E [-> _]]].
    + right. right. right. left. reflexivity.
    + exact E.
  - destruct (proj2 (mode_7_checks_required_fields example_file
                       "metrics" "2024-05-01T10_00_00")
                (proj1 example_file_readable))
      as [_ [H _]].
    destruct (H (proj2 example_file_readable)) as [sizing [Es Em]].
    exists sizing. split; [exact Es | exact Em].
  - destruct (proj2 (mode_7_checks_required_fields example_file_null_opcounters
                       "metrics" "2024-05-01T10_00_00"))
      as [_ [_ H]].
    + repeat split; discriminate.
    + apply H. intros [[oc E] _]. discriminate.
  - destruct (proj2 (mode_7_checks_required_fields example_file_null_database
                       "metrics" "2024-05-01T10_00_00"))
      as [_ [_ H]].
    + repeat split; discriminate.
    + apply H. intros [_ [_ [_ Hall]]].
      specialize (Hall _ eq_refl). inversion Hall as [| ? ? [stats E] ?].
      discriminate.
Defined.

(** A snapshot written by the original script has [memory] where mode 7
    asks for [mem]; one without [network] as well is rejected for both. *)
Example mode_7_rejects :
  mode_7
    {| opcounters := Some example_opcounters;
       uptimeSeconds := Some 370;
       connections := Some {| current := 12 |};
       mem := None;
       memory := Some JNull;
       network := None;
       dbStats := Some example_db_stats |}
    "metrics" "2024-05-01T10_00_00"
  = Normal
      [console_log
         "Metrics JSON file is missing required fields: mem, network"].
Proof. reflexivity. Qed.

(** The check comes first: without [opcounters], [perform_sizing] would
    throw, and mode 7 returns normally with the rejection. *)
Example mode_7_rejects_before_sizing :
  let metrics_data :=
    {| opcounters := None;
       uptimeSeconds := uptimeSeconds example_metrics;
       connections := connections example_metrics;
       mem := mem example_metrics;
       memory := memory example_metrics;
       network := network example_metrics;
       dbStats := dbStats example_metrics |} in
  perform_sizing metrics_data (dbStats metrics_data) = Throw TypeError
  /\ mode_7 metrics_data "metrics" "2024-05-01T10_00_00"
     = Normal
         [console_log
            "Metrics JSON file is missing required fields: opcounters"].
Proof. split; reflexivity. Qed.

(** ** Purging the profile collection *)

(** The enhanced script: an absent collection is a logged no-op, any other
    failure of the drop reaches the caller. *)
Lemma purge_tolerates_absent_collection
    (client : MongoClient) (db_name : string) (error : thrown) :
  drop client db_name "system.profile" = Throw error ->
  (has_codeName error "NamespaceNotFound" = true ->
   purge_profiling_data client db_name
   = ([console_log
         ("No profiling data found in database '" ++ db_name ++ "'.")%string],
      Normal tt))
  /\ (has_codeName error "NamespaceNotFound" = false ->
      purge_profiling_data client db_name = ([], Throw error)).
Proof.
  intro E. unfold purge_profiling_data. rewrite E.
  split; intros ->; reflexivity.
Qed.

(** C6, on the original script: [purge_profiling_data] there has no
    handler, so the failure of the drop on an absent [system.profile]
    reaches the caller, where the enhanced script logs and returns. *)
Theorem original_purge_fails_on_absent_collection
    (client : MongoClient) (db_name : string) (error : MongoError) :
  drop client db_name "system.profile" = Throw (ServerError error) ->
  codeName error = Some "NamespaceNotFound"%string ->
  MongoAssess.purge_profiling_data client db_name
  = ([], Throw (ServerError error))
  /\ purge_profiling_data client db_name
     = ([console_log
           ("No profiling data found in database '" ++ db_name ++ "'.")%string],
        Normal tt).
Proof.
  intros E Ec. split.
  - unfold MongoAssess.purge_profiling_data. rewrite E. reflexivity.
  - apply (purge_tolerates_absent_collection client db_name _ E).
    unfold has_codeName. rewrite Ec. reflexivity.
Qed.

Lemma original_purge_fails_on_absent_collection_witness :
  drop client_without_profile "shop" "system.profile"
  = Throw (ServerError namespace_not_found)
  /\ codeName namespace_not_found = Some "NamespaceNotFound"%string
  /\ MongoAssess.purge_profiling_data client_without_profile "shop"
     = ([], Throw (ServerError namespace_not_found))
  /\ purge_profiling_data client_without_profile "shop"
     = ([console_log "No profiling data found in database 'shop'."],
        Normal tt).
Proof.
  split; [reflexivity |]. split; [reflexivity |].
  exact (original_purge_fails_on_absent_collection
           client_without_profile "shop" namespace_not_found eq_refl eq_refl).
Defined.

(** ** The FAQ block *)

(** C8, as stated, fails: a call with a sizing result and no metrics
    has a non-null [sizing] argument, and its report holds the FAQ block. *)
Lemma FAQ_emitted_with_sizing :
  ~ ((@None Metrics <> None \/ Some example_sizing <> None) ->
     ~ has_FAQ
         (generate_html_report [] [] [] [] "report.html"
            None (Some example_sizing))).
Proof.
  intro claim. apply claim.
  - right. discriminate.
  - unfold has_FAQ. cbn. tauto.
Qed.

(** C8, amended. The FAQ block is emitted exactly when the [metrics]
    argument is null: every call of [generate_html_report] with metrics
    produces a report without the FAQ block, every call without metrics a
    report with it, whatever the [sizing] argument is. *)
Theorem FAQ_iff_no_metrics
    (supported_dictionary not_supported_dictionary : dictionary)
    (supported_commands : list json)
    (not_supported_commands : list (json * list string))
    (output_file : string)
    (metrics : option Metrics) (sizing : option SizingResult) :
  has_FAQ
    (generate_html_report supported_dictionary not_supported_dictionary
       supported_commands not_supported_commands output_file metrics sizing)
  <-> metrics = None.
Proof.
  unfold has_FAQ, generate_html_report. cbn [report_content].
  destruct metrics as [m |], sizing as [s |]; cbn [app In]; split;
    try discriminate; try tauto;
    intro H; repeat (destruct H as [H | H]; try discriminate H); contradiction.
Qed.

(** * More about the classifier *)

(** ** Dictionaries: writing and reading *)

Lemma lookup_dict_set (d : dictionary) (key K : string) (v : Z) :
  lookup K (dict_set d key v)
  = if String.eqb key K then Some v else lookup K d.
Proof.
  induction d as [| [k old] rest IH]; cbn [dict_set lookup].
  - destruct (String.eqb key K); reflexivity.
  - destruct (String.eqb k key) eqn:Ek; cbn [lookup].
    + apply String.eqb_eq in Ek. subst k.
      destruct (String.eqb key K); reflexivity.
    + rewrite IH. destruct (String.eqb k K) eqn:EK; [| reflexivity].
      apply String.eqb_eq in EK. subst k. rewrite String.eqb_sym, Ek. reflexivity.
Qed.

Lemma tally_increment (d : dictionary) (key K : string) :
  tally (increment d key) K
  = (tally d K + if String.eqb key K then 1 else 0)%Z.
Proof.
  unfold tally, increment. rewrite lookup_dict_set.
  destruct (String.eqb key K) eqn:E.
  - apply String.eqb_eq in E. subst K. cbn [count_or_zero].
    destruct (lookup key d) as [v |]; cbn [count_or_zero].
    + destruct (v =? 0)%Z eqn:Ev; [reflexivity |].
      destruct (v + 1 =? 0)%Z eqn:Ev1; [| reflexivity].
      apply Z.eqb_eq in Ev1. lia.
    + reflexivity.
  - lia.
Qed.

Lemma sum_values_cons (k : string) (v : Z) (d : dictionary) :
  sum_values ((k, v) :: d) = (v + sum_values d)%Z.
Proof.
  unfold sum_values. cbn [map fold_left snd]. rewrite sum_values_shift. lia.
Qed.

Lemma sum_values_dict_set (d : dictionary) (key : string) (v : Z) :
  sum_values (dict_set d key v)
  = (sum_values d + v - match lookup key d with Some old => old | None => 0 end)%Z.
Proof.
  induction d as [| [k old] rest IH]; cbn [dict_set lookup].
  - rewrite sum_values_cons. unfold sum_values. cbn. lia.
  - destruct (String.eqb k key); rewrite !sum_values_cons; [lia |].
    rewrite IH. lia.
Qed.

Lemma sum_values_increment (d : dictionary) (key : string) :
  sum_values (increment d key) = (sum_values d + 1)%Z.
Proof.
  unfold increment. rewrite sum_values_dict_set.
  destruct (lookup key d) as [v |]; cbn [count_or_zero]; [| lia].
  destruct (v =? 0)%Z eqn:E; [apply Z.eqb_eq in E |]; lia.
Qed.

(** ** The catalog, again *)

Lemma supported_prefixed :
  forallb startsWith_dollar supported_keywords = true.
Proof. vm_compute. reflexivity. Qed.

Lemma supported_shape (key : string) :
  includes supported_keywords key = true -> startsWith_dollar key = true.
Proof.
  intro H. apply includes_In in H.
  pose proof supported_prefixed as C. rewrite forallb_forall in C. auto.
Qed.

Lemma not_supported_includes (key : string) :
  includes not_supported_keywords key = true ->
  startsWith_dollar key = true /\ includes supported_keywords key = false.
Proof. intro H. apply includes_In in H. apply not_supported_shape. assumption. Qed.

(** Which dictionary a key goes to. *)
Lemma visit_key_supported (key : string) (st : scan) :
  seen_supported (visit_key key st)
  = if includes supported_keywords key
    then increment (seen_supported st) key
    else seen_supported st.
Proof.
  unfold visit_key.
  destruct (includes supported_keywords key) eqn:Es.
  - rewrite (supported_shape key Es). reflexivity.
  - destruct (startsWith_dollar key); [| reflexivity].
    destruct (includes not_supported_keywords key); reflexivity.
Qed.

Lemma visit_key_not_supported (key : string) (st : scan) :
  seen_not_supported (visit_key key st)
  = if includes not_supported_keywords key
    then increment (seen_not_supported st) key
    else seen_not_supported st.
Proof.
  unfold visit_key.
  destruct (includes not_supported_keywords key) eqn:En.
  - destruct (not_supported_includes key En) as [-> ->]. reflexivity.
  - destruct (startsWith_dollar key); [| reflexivity].
    destruct (includes supported_keywords key); reflexivity.
Qed.

Lemma index_key_not_in (catalog : list string) (i : nat) :
  forallb startsWith_dollar catalog = true ->
  includes catalog (index_key i) = false.
Proof.
  intro C. apply includes_not_In. intro H.
  rewrite forallb_forall in C. apply C in H.
  rewrite index_key_plain in H. discriminate.
Qed.

(** ** Counting along the walk *)

(** A quantity that grows by one at the keys satisfying [P], and at no
    other key, grows over a walk by the number of such keys. *)
Lemma traverse_counts (measure : scan -> Z) (P : string -> bool) :
  (forall key st,
     measure (visit_key key st)
     = (measure st + if P key then 1 else 0)%Z) ->
  (forall i, P (index_key i) = false) ->
  forall obj st,
    measure (traverse obj st) = (measure st + key_count P obj)%Z.
Proof.
  intros Hvisit Hindex.
  induction obj using json_nested_ind; cbn [traverse key_count]; try (intro; lia).
  - generalize 0%nat.
    induction items as [| v rest IHrest]; intros i st;
      cbn [for_in_array fold_right]; [lia |].
    rewrite IHrest by (intros x Hx; apply H; right; assumption).
    rewrite (H v) by (left; reflexivity).
    rewrite Hvisit, Hindex. lia.
  - induction fields as [| [k v] rest IHrest]; intro st;
      cbn [for_in_object fold_right]; [lia |].
    rewrite IHrest by (intros k' x Hx; apply (H k'); right; assumption).
    rewrite (H k v) by (left; reflexivity).
    rewrite Hvisit. lia.
Qed.

Lemma key_count_ext (P Q : string -> bool) :
  (forall key, P key = Q key) ->
  forall obj, key_count P obj = key_count Q obj.
Proof.
  intro H. induction obj using json_nested_ind; cbn [key_count]; try reflexivity.
  - induction items as [| v rest IHrest]; cbn [fold_right]; [reflexivity |].
    rewrite IHrest by (intros x Hx; apply H0; right; assumption).
    rewrite (H0 v) by (left; reflexivity). reflexivity.
  - induction fields as [| [k v] rest IHrest]; cbn [fold_right]; [reflexivity |].
    rewrite IHrest by (intros k' x Hx; apply (H0 k'); right; assumption).
    rewrite (H0 k v) by (left; reflexivity). rewrite H. reflexivity.
Qed.

Lemma key_count_nonneg (P : string -> bool) (obj : json) :
  (0 <= key_count P obj)%Z.
Proof.
  induction obj using json_nested_ind; cbn [key_count]; try lia.
  - induction items as [| v rest IHrest]; cbn [fold_right]; [lia |].
    specialize (IHrest (fun x Hx => H x (or_intror Hx))).
    specialize (H v (or_introl eq_refl)). lia.
  - induction fields as [| [k v] rest IHrest]; cbn [fold_right]; [lia |].
    specialize (IHrest (fun k' x Hx => H k' x (or_intror Hx))).
    specialize (H k v (or_introl eq_refl)). destruct (P k); lia.
Qed.

(** A key satisfying [P] is counted iff one occurs. *)
Lemma key_count_positive (P : string -> bool) (obj : json) :
  (0 < key_count P obj)%Z <-> exists K, P K = true /\ key_occurs K obj.
Proof.
  induction obj using json_nested_ind; cbn [key_count];
    try (split; [lia | intros [K [_ Ho]]; inversion Ho]).
  - assert (L : (0 < fold_right (fun value n => (key_count P value + n)%Z) 0%Z items)%Z
                <-> exists K v, P K = true /\ In v items /\ key_occurs K v).
    { induction items as [| v rest IHrest]; cbn [fold_right].
      - split; [lia | intros [K [v [_ [[] _]]]]].
      - specialize (IHrest (fun x Hx => H x (or_intror Hx))).
        pose proof (H v (or_introl eq_refl)) as Hv.
        pose proof (key_count_nonneg P v) as Nv.
        assert (Nr : (0 <= fold_right (fun value n => (key_count P value + n)%Z) 0%Z rest)%Z).
        { clear. induction rest as [| x xs IH]; cbn [fold_right]; [lia |].
          pose proof (key_count_nonneg P x). lia. }
        split.
        + intro Hpos.
          destruct (Z.ltb_spec 0 (key_count P v)) as [Hv' | Hv'].
          * apply Hv in Hv'. destruct Hv' as [K [HP Ho]].
            exists K, v. cbn [In]. tauto.
          * assert (Hr : (0 < fold_right (fun value n => (key_count P value + n)%Z) 0%Z rest)%Z) by lia.
            apply IHrest in Hr. destruct Hr as [K [x [HP [Hin Ho]]]].
            exists K, x. cbn [In]. tauto.
        + intros [K [x [HP [[<- | Hin] Ho]]]].
          * assert (0 < key_count P v)%Z by (apply Hv; exists K; tauto). lia.
          * assert (0 < fold_right (fun value n => (key_count P value + n)%Z) 0%Z rest)%Z
              by (apply IHrest; exists K, x; tauto). lia. }
    rewrite L. split.
    + intros [K [v [HP [Hin Ho]]]]. exists K. split; [assumption |].
      eapply occurs_in_item; eassumption.
    + intros [K [HP Ho]]. inversion Ho; subst. exists K. eexists. eauto.
  - assert (L : (0 < fold_right
                       (fun '(key, value) n =>
                          ((if P key then 1 else 0) + key_count P value + n)%Z)
                       0%Z fields)%Z
                <-> exists K k v, P K = true /\ In (k, v) fields
                                  /\ (K = k \/ key_occurs K v)).
    { induction fields as [| [k v] rest IHrest]; cbn [fold_right].
      - split; [lia | intros [K [k [v [_ [[] _]]]]]].
      - specialize (IHrest (fun k' x Hx => H k' x (or_intror Hx))).
        pose proof (H k v (or_introl eq_refl)) as Hv.
        pose proof (key_count_nonneg P v) as Nv.
        assert (Nr : (0 <= fold_right
                             (fun '(key, value) n =>
                                ((if P key then 1 else 0) + key_count P value + n)%Z)
                             0%Z rest)%Z).
        { clear. induction rest as [| [k' x] xs IH]; cbn [fold_right]; [lia |].
          pose proof (key_count_nonneg P x). destruct (P k'); lia. }
        split.
        + intro Hpos. destruct (P k) eqn:Pk.
          * exists k, k, v. cbn [In]. tauto.
          * destruct (Z.ltb_spec 0 (key_count P v)) as [Hv' | Hv'].
            -- apply Hv in Hv'. destruct Hv' as [K [HP Ho]].
               exists K, k, v. cbn [In]. tauto.
            -- assert (Hr : (0 < fold_right
                                   (fun '(key, value) n =>
                                      ((if P key then 1 else 0) + key_count P value + n)%Z)
                                   0%Z rest)%Z) by lia.
               apply IHrest in Hr. destruct Hr as [K [k' [x [HP [Hin Ho]]]]].
               exists K, k', x. cbn [In]. tauto.
        + intros [K [k' [x [HP [[E | Hin] Ho]]]]].
          * injection E as <- <-. destruct Ho as [-> | Ho].
            -- rewrite HP. lia.
            -- assert (0 < key_count P v)%Z by (apply Hv; exists K; tauto).
               destruct (P k); lia.
          * assert (0 < fold_right
                          (fun '(key, value) n =>
                             ((if P key then 1 else 0) + key_count P value + n)%Z)
                          0%Z rest)%Z
              by (apply IHrest; exists K, k', x; tauto).
            destruct (P k); lia. }
    rewrite L. split.
    + intros [K [k [v [HP [Hin [E | Ho]]]]]]; exists K; (split; [assumption |]).
      * subst k. eapply occurs_as_key; eassumption.
      * eapply occurs_in_field; eassumption.
    + intros [K [HP Ho]]. inversion Ho; subst; exists K; eexists _, _; eauto.
Qed.

(** ** Counting along the analysis *)

Lemma visit_key_seen (side : bool) (key : string) (st : scan) :
  seen side (visit_key key st)
  = if includes (catalog side) key
    then increment (seen side st) key
    else seen side st.
Proof.
  destruct side; [apply visit_key_supported | apply visit_key_not_supported].
Qed.

Lemma catalog_prefix (side : bool) :
  forallb startsWith_dollar (catalog side) = true.
Proof. destruct side; [apply supported_prefixed | apply catalog_prefixed]. Qed.

Lemma forEach_entry_counts (side : bool) (m : dictionary -> Z) (P : string -> bool) :
  (forall key d,
     m (if includes (catalog side) key then increment d key else d)
     = (m d + if P key then 1 else 0)%Z) ->
  (forall i, P (index_key i) = false) ->
  forall data acc r,
    forEach_entry data acc = Normal r ->
    m (counted side r) = (m (counted side acc) + profile_count P data)%Z.
Proof.
  intros Hm Hindex.
  assert (W : forall obj st,
             m (seen side (traverse obj st))
             = (m (seen side st) + key_count P obj)%Z).
  { apply (traverse_counts (fun st => m (seen side st)) P); [| assumption].
    intros key st. rewrite visit_key_seen. apply Hm. }
  induction data as [| entry rest IH]; intros acc r E;
    cbn [forEach_entry profile_count fold_right] in *.
  - injection E as <-. lia.
  - fold (profile_count P rest).
    destruct (classify_entry acc entry) as [acc' |] eqn:Ec; cbn [bind] in E;
      [| discriminate].
    rewrite (IH acc' r E).
    unfold classify_entry, op_is_command in *.
    destruct (entry_op entry) as [op | e]; cbn [bind] in Ec; [| discriminate].
    destruct (is_command op).
    + specialize (W entry
        {| seen_supported := supported_dictionary acc;
           seen_not_supported := not_supported_dictionary acc;
           command_category := [] |}).
      destruct (0 <? _)%nat; injection Ec as <-;
        destruct side; cbn [counted seen supported_dictionary
                            not_supported_dictionary seen_supported
                            seen_not_supported] in *; lia.
    + injection Ec as <-. lia.
Qed.

Lemma profile_count_ext (P Q : string -> bool) (data : list json) :
  (forall key, P key = Q key) -> profile_count P data = profile_count Q data.
Proof.
  intro H. induction data as [| entry rest IH]; cbn [profile_count fold_right];
    [reflexivity |].
  fold (profile_count P rest) (profile_count Q rest).
  rewrite IH, (key_count_ext P Q H). reflexivity.
Qed.

Lemma profile_count_nonneg (P : string -> bool) (data : list json) :
  (0 <= profile_count P data)%Z.
Proof.
  induction data as [| entry rest IH]; cbn [profile_count fold_right]; [lia |].
  fold (profile_count P rest).
  pose proof (key_count_nonneg P entry). destruct (op_is_command entry); lia.
Qed.

Lemma profile_count_zero (P : string -> bool) (data : list json) :
  profile_count P data = 0%Z <->
  forall entry, In entry data -> op_is_command entry = true ->
                key_count P entry = 0%Z.
Proof.
  induction data as [| entry rest IH]; cbn [profile_count fold_right In].
  - split; [intros _ e [] | reflexivity].
  - fold (profile_count P rest).
    pose proof (profile_count_nonneg P rest) as Nr.
    pose proof (key_count_nonneg P entry) as Ne.
    split.
    + intros E e [<- | Hin] Hop.
      * rewrite Hop in E. lia.
      * apply IH; [destruct (op_is_command entry); lia | assumption | assumption].
    + intro H.
      assert (Hr : profile_count P rest = 0%Z) by (apply IH; intros; apply H; auto).
      destruct (op_is_command entry) eqn:Hop; [| lia].
      rewrite (H entry (or_introl eq_refl) Hop). lia.
Qed.

Lemma never_counted (obj : json) : key_count (fun _ => false) obj = 0%Z.
Proof.
  pose proof (key_count_nonneg (fun _ => false) obj) as N.
  destruct (Z.ltb_spec 0 (key_count (fun _ => false) obj)) as [H | H]; [| lia].
  apply key_count_positive in H. destruct H as [K [HK _]]. discriminate.
Qed.

Lemma never_counted_profile (data : list json) :
  profile_count (fun _ => false) data = 0%Z.
Proof. apply profile_count_zero. intros. apply never_counted. Qed.

(** What a dictionary of the analysis stores for a keyword. *)
Lemma forEach_entry_tally (side : bool) (K : string) (data : list json) :
  forall acc r,
    forEach_entry data acc = Normal r ->
    tally (counted side r) K
    = (tally (counted side acc) K
       + if includes (catalog side) K
         then profile_count (String.eqb K) data else 0)%Z.
Proof.
  intros acc r E.
  set (P := fun key => String.eqb K key && includes (catalog side) K).
  assert (Hm : forall key d,
             tally (if includes (catalog side) key then increment d key else d) K
             = (tally d K + if P key then 1 else 0)%Z).
  { intros key d. unfold P. destruct (includes (catalog side) key) eqn:Ek.
    - rewrite tally_increment. rewrite (String.eqb_sym K key).
      destruct (String.eqb key K) eqn:E'; cbn [andb]; [| reflexivity].
      apply String.eqb_eq in E'. subst K. rewrite Ek. reflexivity.
    - destruct (String.eqb K key) eqn:E'; cbn [andb]; [| lia].
      apply String.eqb_eq in E'. subst K. rewrite Ek. lia. }
  assert (Hi : forall i, P (index_key i) = false).
  { intro i. unfold P. destruct (includes (catalog side) K) eqn:EK;
      [| apply andb_false_r].
    rewrite andb_true_r. apply includes_In in EK.
    pose proof (catalog_prefix side) as C. rewrite forallb_forall in C.
    apply C in EK. destruct (String.eqb K (index_key i)) eqn:E'; [| reflexivity].
    apply String.eqb_eq in E'. subst K. rewrite index_key_plain in EK. discriminate. }
  rewrite (forEach_entry_counts side (fun d => tally d K) P Hm Hi data acc r E).
  unfold P. destruct (includes (catalog side) K).
  - f_equal. apply profile_count_ext. intro key. apply andb_true_r.
  - f_equal. rewrite <- (never_counted_profile data).
    apply profile_count_ext. intro key. apply andb_false_r.
Qed.

Lemma forEach_entry_sum (side : bool) (data : list json) :
  forall acc r,
    forEach_entry data acc = Normal r ->
    sum_values (counted side r)
    = (sum_values (counted side acc)
       + profile_count (includes (catalog side)) data)%Z.
Proof.
  apply forEach_entry_counts.
  - intros key d. destruct (includes (catalog side) key);
      [apply sum_values_increment | lia].
  - intro i. apply index_key_not_in, catalog_prefix.
Qed.

Lemma forEach_entry_no_null (data : list json) :
  forall acc r,
    forEach_entry data acc = Normal r ->
    Forall (fun entry => entry <> JNull) data.
Proof.
  induction data as [| entry rest IH]; intros acc r E; [constructor |].
  cbn [forEach_entry] in E.
  destruct (classify_entry acc entry) as [acc' |] eqn:Ec; cbn [bind] in E;
    [| discriminate].
  constructor; [| eapply IH; eassumption].
  intros ->. discriminate.
Qed.

Lemma flaggedb_flagged (entry : json) : flaggedb entry = true <-> flagged entry.
Proof.
  unfold flaggedb, flagged. rewrite Z.ltb_lt, key_count_positive.
  split; intros [K [HK Ho]]; exists K; (split; [| assumption]);
    apply includes_In; assumption.
Qed.

Lemma flaggedb_triggers (entry : json) :
  (0 <? List.length (triggers entry))%nat = flaggedb entry.
Proof.
  destruct (flaggedb entry) eqn:E.
  - apply triggers_nonempty. apply flaggedb_flagged. assumption.
  - apply triggers_empty. intro H. apply flaggedb_flagged in H. congruence.
Qed.

(** ** The shape of the dictionaries *)

Lemma dict_set_keys (d : dictionary) (key : string) (v : Z) (k : string) :
  In k (map fst (dict_set d key v)) -> k = key \/ In k (map fst d).
Proof.
  induction d as [| [k0 old] rest IH]; cbn [dict_set map fst In].
  - intros [<- | []]. left. reflexivity.
  - destruct (String.eqb k0 key); cbn [map fst In]; [tauto |].
    intros [<- | H]; [tauto |]. apply IH in H. tauto.
Qed.

Lemma dict_set_dictionary_of (names : list string) (d : dictionary)
    (key : string) (v : Z) :
  In key names -> (1 <= v)%Z ->
  dictionary_of names d -> dictionary_of names (dict_set d key v).
Proof.
  intros Hkey Hv [Hnd Hall]. split.
  - induction d as [| [k0 old] rest IH]; cbn [dict_set map fst].
    + constructor; [intros [] | constructor].
    + cbn [map fst] in Hnd. inversion Hnd as [| ? ? Hnot Hrest]; subst.
      inversion Hall; subst.
      destruct (String.eqb k0 key) eqn:E; cbn [map fst].
      * constructor; assumption.
      * constructor; [| apply IH; assumption].
        intro H. apply dict_set_keys in H. destruct H as [-> | H]; [| contradiction].
        rewrite String.eqb_refl in E. discriminate.
  - induction d as [| [k0 old] rest IH]; cbn [dict_set].
    + constructor; [cbn [fst snd]; tauto | constructor].
    + cbn [map fst] in Hnd. inversion Hnd; subst. inversion Hall as [| ? ? Hhead Htail]; subst.
      destruct (String.eqb k0 key) eqn:E.
      * constructor; [| assumption]. cbn [fst snd] in *. tauto.
      * constructor; [assumption | apply IH; assumption].
Qed.

Lemma increment_dictionary_of (names : list string) (d : dictionary) (key : string) :
  In key names -> dictionary_of names d -> dictionary_of names (increment d key).
Proof.
  intros Hkey Hd. unfold increment. apply dict_set_dictionary_of; try assumption.
  destruct Hd as [_ Hall]. unfold count_or_zero.
  destruct (lookup key d) as [v |] eqn:E; [| lia].
  apply lookup_In in E. rewrite Forall_forall in Hall. apply Hall in E.
  cbn [snd] in E. destruct (v =? 0)%Z; lia.
Qed.

Lemma visit_key_dictionaries (key : string) (st : scan) :
  dictionaries_of_scan st -> dictionaries_of_scan (visit_key key st).
Proof.
  intros [Hs Hn]. unfold dictionaries_of_scan.
  rewrite visit_key_supported, visit_key_not_supported. split.
  - destruct (includes supported_keywords key) eqn:E; [| assumption].
    apply increment_dictionary_of; [apply includes_In |]; assumption.
  - destruct (includes not_supported_keywords key) eqn:E; [| assumption].
    apply increment_dictionary_of; [apply includes_In |]; assumption.
Qed.

Lemma forEach_entry_dictionaries (data : list json) :
  forall acc r,
    forEach_entry data acc = Normal r ->
    dictionary_of supported_keywords (supported_dictionary acc)
    /\ dictionary_of not_supported_keywords (not_supported_dictionary acc) ->
    dictionary_of supported_keywords (supported_dictionary r)
    /\ dictionary_of not_supported_keywords (not_supported_dictionary r).
Proof.
  induction data as [| entry rest IH]; intros acc r E Hacc;
    cbn [forEach_entry] in E.
  - injection E as <-. assumption.
  - destruct (classify_entry acc entry) as [acc' |] eqn:Ec; cbn [bind] in E;
      [| discriminate].
    apply (IH acc' r E). clear IH E.
    unfold classify_entry in Ec.
    destruct (entry_op entry) as [op | e]; cbn [bind] in Ec; [| discriminate].
    pose proof (traverse_preserves dictionaries_of_scan visit_key_dictionaries
                  entry
                  {| seen_supported := supported_dictionary acc;
                     seen_not_supported := not_supported_dictionary acc;
                     command_category := [] |} Hacc) as Hw.
    destruct (is_command op).
    + destruct (0 <? _)%nat; injection Ec as <-; exact Hw.
    + injection Ec as <-. assumption.
Qed.

(** ** Properties of the analysis *)

Lemma has_op_command_command (entry : json) :
  has_op_command entry = true <-> op_command entry.
Proof.
  unfold has_op_command, op_command. split.
  - destruct entry as [| b | q | s | items | fields]; try discriminate.
    destruct (lookup "op" fields) as [[| b | q | s | items | fields'] |] eqn:E;
      try discriminate.
    intro H. apply String.eqb_eq in H. subst s. exists fields. auto.
  - intros [fields [-> E]]. rewrite E. reflexivity.
Qed.

Lemma op_is_command_has (entry : json) :
  op_is_command entry = has_op_command entry.
Proof.
  destruct (has_op_command entry) eqn:E.
  - apply op_is_command_command, has_op_command_command. assumption.
  - destruct (op_is_command entry) eqn:E'; [| reflexivity].
    apply op_is_command_command, has_op_command_command in E'. congruence.
Qed.

(** X1. On a profile without a [null] entry, [supported_commands] is the
    sequence of the entries that are objects with [op] equal to ["command"]
    and in which no not-supported keyword is a key, and the entries of
    [not_supported_commands] are those with [op] equal to ["command"] in
    which one is, both in the order of the input and with the repetitions
    of the input. *)
Theorem analyze_keywords_keeps_order (data : list json) :
  Forall (fun entry => entry <> JNull) data ->
  exists r,
    analyze_keywords data = Normal r
    /\ supported_commands r
       = filter (fun entry => has_op_command entry && negb (flaggedb entry))
           data
    /\ map fst (not_supported_commands r)
       = filter (fun entry => has_op_command entry && flaggedb entry) data.
Proof.
  intro H. destruct (analyze_keywords_commands data H) as [r [E [Hs Hn]]].
  exists r. split; [assumption |]. rewrite Hs, Hn. split.
  - apply filter_ext. intro entry. unfold compatible.
    rewrite flaggedb_triggers, op_is_command_has. reflexivity.
  - rewrite map_map. cbn [fst]. rewrite map_id.
    apply filter_ext. intro entry. unfold incompatible.
    rewrite flaggedb_triggers, op_is_command_has. reflexivity.
Qed.

Lemma analyze_keywords_keeps_order_witness :
  Forall (fun entry => entry <> JNull) sample_profile
  /\ exists r,
       analyze_keywords sample_profile = Normal r
       /\ supported_commands r
          = filter (fun entry => has_op_command entry && negb (flaggedb entry))
              sample_profile
       /\ map fst (not_supported_commands r)
          = filter (fun entry => has_op_command entry && flaggedb entry)
              sample_profile.
Proof.
  split.
  - exact sample_profile_no_null.
  - exact (analyze_keywords_keeps_order sample_profile sample_profile_no_null).
Defined.

Lemma null_entry_decidable (data : list json) :
  In JNull data \/ ~ In JNull data.
Proof.
  induction data as [| entry rest IH]; [right; intros [] |].
  destruct IH as [IH | IH]; [left; right; assumption |].
  destruct entry;
    try (right; intros [H | H]; [discriminate | contradiction]).
  left. left. reflexivity.
Qed.

Lemma first_null_entry (data : list json) :
  In JNull data ->
  exists before after,
    data = before ++ JNull :: after
    /\ Forall (fun entry => entry <> JNull) before.
Proof.
  induction data as [| entry rest IH]; [contradiction |].
  intro Hin. destruct (null_entry_decidable [entry]) as [Hn | Hn].
  - destruct Hn as [-> | []]. exists [], rest. split; [reflexivity | constructor].
  - destruct Hin as [-> | Hin]; [exfalso; apply Hn; left; reflexivity |].
    destruct (IH Hin) as [before [after [-> Hb]]].
    exists (entry :: before), after. split; [reflexivity |].
    constructor; [| assumption]. intros ->. apply Hn. left. reflexivity.
Qed.

Lemma analyze_keywords_throws (data : list json) :
  In JNull data -> analyze_keywords data = Throw TypeError.
Proof.
  intro Hin. destruct (first_null_entry data Hin) as [before [after [-> Hb]]].
  apply analyze_keywords_null_entry. assumption.
Qed.

Lemma analyze_keywords_returns (data : list json) :
  ~ In JNull data -> exists r, analyze_keywords data = Normal r.
Proof.
  intro H. destruct (analyze_keywords_commands data) as [r [E _]].
  - apply Forall_forall. intros entry Hin ->. contradiction.
  - exists r. assumption.
Qed.

(** X2. [analyze_keywords] throws exactly when an entry of the profile is
    [null], and what it throws is a [TypeError]; on any other profile it
    returns. *)
Theorem analyze_keywords_throws_iff_null (data : list json) :
  (In JNull data <-> analyze_keywords data = Throw TypeError)
  /\ (~ In JNull data <-> exists r, analyze_keywords data = Normal r).
Proof.
  split; split.
  - apply analyze_keywords_throws.
  - intro E. destruct (null_entry_decidable data) as [D | D]; [assumption |].
    destruct (analyze_keywords_returns data D) as [r Er]. congruence.
  - apply analyze_keywords_returns.
  - intros [r E] Hin. apply analyze_keywords_throws in Hin. congruence.
Qed.

(** X3. After an analysis the count stored for a keyword of a catalog, in
    the dictionary of that catalog, is the number of times the keyword
    occurs as an object key inside the command entries of the profile; a
    keyword that does not occur has no row, nor has any string outside the
    catalog. *)
Theorem analyze_keywords_counts (data : list json) (r : analysis) :
  analyze_keywords data = Normal r ->
  forall (side : bool) (K : string),
    let occurrences :=
      if includes (catalog side) K
      then profile_count (String.eqb K) data else 0%Z in
    lookup K (counted side r)
    = if (occurrences =? 0)%Z then None else Some occurrences.
Proof.
  intros E side K. cbv zeta.
  pose proof (forEach_entry_tally side K data _ r E) as T.
  assert (Z0 : tally (counted side
                        {| supported_dictionary := [];
                           not_supported_dictionary := [];
                           supported_commands := [];
                           not_supported_commands := [] |}) K = 0%Z)
    by (destruct side; reflexivity).
  rewrite Z0 in T. cbn [Z.add] in T. rewrite <- T. clear T Z0.
  destruct (analyze_keywords_positive data r E) as [Hs Hn].
  assert (Hp : positive_counts (counted side r)) by (destruct side; assumption).
  unfold tally. destruct (lookup K (counted side r)) as [v |] eqn:El;
    cbn [count_or_zero]; [| reflexivity].
  apply lookup_In in El. unfold positive_counts in Hp.
  rewrite Forall_forall in Hp. apply Hp in El. cbn [snd] in El.
  destruct (v =? 0)%Z eqn:Ev; [apply Z.eqb_eq in Ev; lia |].
  rewrite Ev. reflexivity.
Qed.

Lemma analyze_keywords_counts_witness :
  analyze_keywords sample_profile = Normal sample_analysis
  /\ forall (side : bool) (K : string),
       let occurrences :=
         if includes (catalog side) K
         then profile_count (String.eqb K) sample_profile else 0%Z in
       lookup K (counted side sample_analysis)
       = if (occurrences =? 0)%Z then None else Some occurrences.
Proof.
  split.
  - reflexivity.
  - exact (analyze_keywords_counts sample_profile sample_analysis eq_refl).
Defined.

(** X4. Each dictionary of an analysis has one row per keyword, only
    keywords of its own catalog, and counts from 1 up; no keyword has a row
    in both. *)
Theorem analyze_keywords_dictionaries (data : list json) (r : analysis) :
  analyze_keywords data = Normal r ->
  dictionary_of supported_keywords (supported_dictionary r)
  /\ dictionary_of not_supported_keywords (not_supported_dictionary r)
  /\ forall K,
       ~ (In K (map fst (supported_dictionary r))
          /\ In K (map fst (not_supported_dictionary r))).
Proof.
  intro E.
  destruct (forEach_entry_dictionaries data _ r E) as [Hs Hn].
  { split; (split; [constructor | constructor]). }
  split; [assumption |]. split; [assumption |].
  intros K [Ks Kn].
  apply in_map_iff in Ks. destruct Ks as [[k v] [<- Ks]].
  apply in_map_iff in Kn. destruct Kn as [[k' v'] [Ek Kn]].
  cbn [fst] in *. subst k'.
  destruct Hs as [_ Hs]. destruct Hn as [_ Hn].
  rewrite Forall_forall in Hs, Hn.
  apply Hs in Ks. apply Hn in Kn. cbn [fst] in *.
  destruct Ks as [Ks _]. destruct Kn as [Kn _].
  apply not_supported_shape in Kn. destruct Kn as [_ Kn].
  apply includes_not_In in Kn. contradiction.
Qed.

Lemma analyze_keywords_dictionaries_witness :
  analyze_keywords sample_profile = Normal sample_analysis
  /\ dictionary_of supported_keywords (supported_dictionary sample_analysis)
  /\ dictionary_of not_supported_keywords
       (not_supported_dictionary sample_analysis)
  /\ forall K,
       ~ (In K (map fst (supported_dictionary sample_analysis))
          /\ In K (map fst (not_supported_dictionary sample_analysis))).
Proof.
  split.
  - reflexivity.
  - exact (analyze_keywords_dictionaries sample_profile sample_analysis eq_refl).
Defined.

(** X5. The totals of the summary are counts of key occurrences:
    [total_supported] is the number of keys inside the command entries that
    are supported keywords, [total_not_supported] the number that are
    not-supported keywords, each occurrence counted; keys of neither
    catalog are not counted. *)
Theorem summary_counts_occurrences (data : list json) (r : analysis) :
  analyze_keywords data = Normal r ->
  let s := summarize_keywords (supported_dictionary r) (not_supported_dictionary r) in
  total_supported s = profile_count (includes supported_keywords) data
  /\ total_not_supported s = profile_count (includes not_supported_keywords) data
  /\ total_keywords s
     = (profile_count (includes supported_keywords) data
        + profile_count (includes not_supported_keywords) data)%Z.
Proof.
  intro E. cbv zeta. unfold summarize_keywords.
  cbn [total_supported total_not_supported total_keywords].
  pose proof (forEach_entry_sum true data _ r E) as Hs.
  pose proof (forEach_entry_sum false data _ r E) as Hn.
  cbn [counted catalog supported_dictionary not_supported_dictionary] in Hs, Hn.
  change (sum_values []) with 0%Z in Hs, Hn.
  rewrite Hs, Hn. repeat split; lia.
Qed.

Lemma summary_counts_occurrences_witness :
  analyze_keywords sample_profile = Normal sample_analysis
  /\ let s :=
       summarize_keywords (supported_dictionary sample_analysis)
         (not_supported_dictionary sample_analysis) in
     total_supported s = profile_count (includes supported_keywords) sample_profile
     /\ total_not_supported s
        = profile_count (includes not_supported_keywords) sample_profile
     /\ total_keywords s
        = (profile_count (includes supported_keywords) sample_profile
           + profile_count (includes not_supported_keywords) sample_profile)%Z.
Proof.
  split.
  - reflexivity.
  - exact (summary_counts_occurrences sample_profile sample_analysis eq_refl).
Defined.

(** X6. Entries whose [op] is not ["command"] leave no trace: on a profile
    without a [null] entry the analysis is the analysis of its command
    entries alone. *)
Theorem analyze_keywords_skips_other_entries (data : list json) :
  Forall (fun entry => entry <> JNull) data ->
  analyze_keywords data = analyze_keywords (filter op_is_command data).
Proof.
  unfold analyze_keywords. generalize
    {| supported_dictionary := []; not_supported_dictionary := [];
       supported_commands := []; not_supported_commands := [] |}.
  induction data as [| entry rest IH]; intros acc H; [reflexivity |].
  inversion H as [| ? ? Hentry Hrest]; subst.
  cbn [filter forEach_entry].
  destruct (op_is_command entry) eqn:Hop.
  - cbn [forEach_entry].
    destruct (classify_entry acc entry) as [acc' | e]; cbn [bind];
      [apply IH; assumption | reflexivity].
  - assert (Ec : classify_entry acc entry = Normal acc).
    { unfold classify_entry, op_is_command in *.
      destruct (entry_op entry) as [op | e] eqn:Eop; cbn [bind].
      - rewrite Hop. reflexivity.
      - destruct entry; cbn in Eop; congruence. }
    rewrite Ec. cbn [bind]. apply IH. assumption.
Qed.

Lemma analyze_keywords_skips_other_entries_witness :
  Forall (fun entry => entry <> JNull) sample_profile
  /\ analyze_keywords sample_profile
     = analyze_keywords (filter op_is_command sample_profile).
Proof.
  split.
  - exact sample_profile_no_null.
  - exact (analyze_keywords_skips_other_entries sample_profile
             sample_profile_no_null).
Defined.

Lemma filter_nil {A : Type} (f : A -> bool) (l : list A) :
  filter f l = [] <-> forall x, In x l -> f x = false.
Proof.
  induction l as [| x rest IH]; cbn [filter In].
  - split; [intros _ y [] | reflexivity].
  - destruct (f x) eqn:E.
    + split; [discriminate |]. intro H. rewrite (H x (or_introl eq_refl)) in E.
      discriminate.
    + rewrite IH. split.
      * intros H y [<- | Hy]; auto.
      * intros H y Hy. apply H. right. assumption.
Qed.

Lemma percent_full (supported total : Z) (p : Q) :
  (0 < total)%Z ->
  p == 100 * inject_Z supported / inject_Z total ->
  (p == 100 <-> supported = total).
Proof.
  intros Ht Hp. rewrite Hp.
  assert (Hnz : ~ inject_Z total == 0).
  { change 0 with (inject_Z 0). rewrite inject_Z_injective. lia. }
  split.
  - intro H. apply inject_Z_injective.
    setoid_replace (inject_Z supported)
      with (100 * inject_Z supported / inject_Z total * inject_Z total / 100)
      by (field; assumption).
    rewrite H. field.
  - intros ->. field. assumption.
Qed.

(** X7. The summary of an analysis shows 100 percent exactly when the
    profile has a supported keyword and [not_supported_commands] is empty;
    and [not_supported_commands] is empty exactly when
    [total_not_supported] is 0. *)
Theorem full_compatibility (data : list json) (r : analysis) :
  analyze_keywords data = Normal r ->
  let s := summarize_keywords (supported_dictionary r) (not_supported_dictionary r) in
  (not_supported_commands r = [] <-> total_not_supported s = 0%Z)
  /\ (num_eq (supported_percent s) (Num 100) <->
      (0 < total_supported s)%Z /\ not_supported_commands r = []).
Proof.
  intro E. cbv zeta.
  assert (Hnull : Forall (fun entry => entry <> JNull) data)
    by (eapply forEach_entry_no_null; exact E).
  destruct (analyze_keywords_commands data Hnull) as [r' [E' [_ Hn]]].
  assert (r' = r) by congruence. subst r'.
  pose proof (forEach_entry_sum true data _ r E) as Ss.
  pose proof (forEach_entry_sum false data _ r E) as Sn.
  cbn [counted catalog supported_dictionary not_supported_dictionary] in Ss, Sn.
  change (sum_values []) with 0%Z in Ss, Sn. cbn [Z.add] in Ss, Sn.
  pose proof (profile_count_nonneg (includes supported_keywords) data) as Ns.
  pose proof (profile_count_nonneg (includes not_supported_keywords) data) as Nn.
  assert (Empty : not_supported_commands r = []
                  <-> sum_values (not_supported_dictionary r) = 0%Z).
  { rewrite Hn, Sn, profile_count_zero. split.
    - intros Hmap entry Hin Hop.
      assert (Hf : filter incompatible data = []).
      { destruct (filter incompatible data); [reflexivity | discriminate]. }
      rewrite filter_nil in Hf. specialize (Hf entry Hin).
      unfold incompatible in Hf. rewrite Hop, flaggedb_triggers in Hf.
      cbn [andb] in Hf. unfold flaggedb in Hf. apply Z.ltb_ge in Hf.
      pose proof (key_count_nonneg (includes not_supported_keywords) entry). lia.
    - intro H. 
      assert (Hf : filter incompatible data = []).
      { apply filter_nil. intros entry Hin. unfold incompatible.
        destruct (op_is_command entry) eqn:Hop; [| reflexivity].
        rewrite flaggedb_triggers. unfold flaggedb.
        rewrite (H entry Hin Hop). reflexivity. }
      rewrite Hf. reflexivity. }
  unfold summarize_keywords.
  cbn [total_supported total_not_supported supported_percent].
  split; [exact Empty |]. rewrite Empty.
  set (a := sum_values (supported_dictionary r)) in *.
  set (b := sum_values (not_supported_dictionary r)) in *.
  destruct (a + b >? 0)%Z eqn:Eg.
  - destruct (percent_of_counts a (a + b)) as [p [-> [Hp _]]]; [lia | lia |].
    cbn [num_eq]. rewrite (percent_full a (a + b) p) by (assumption || lia). lia.
  - cbn [num_eq]. split; [intro H; discriminate H | lia].
Qed.

Lemma full_compatibility_witness :
  analyze_keywords sample_profile = Normal sample_analysis
  /\ let s :=
       summarize_keywords (supported_dictionary sample_analysis)
         (not_supported_dictionary sample_analysis) in
     (not_supported_commands sample_analysis = [] <-> total_not_supported s = 0%Z)
     /\ (num_eq (supported_percent s) (Num 100) <->
         (0 < total_supported s)%Z /\ not_supported_commands sample_analysis = []).
Proof.
  split.
  - reflexivity.
  - exact (full_compatibility sample_profile sample_analysis eq_refl).
Defined.

(** * Highlighting *)

Lemma RegExp_app (a b : string) (items : list pattern_item) :
  RegExp (a ++ b) = Some items ->
  exists ia ib, RegExp a = Some ia /\ RegExp b = Some ib /\ items = ia ++ ib.
Proof.
  revert items. induction a as [| c a IH]; intros items E; cbn [append RegExp] in *.
  - exists [], items. auto.
  - destruct (pattern_item_of c) as [item |]; [| discriminate].
    destruct (RegExp (a ++ b)) as [rest |] eqn:Er; [| discriminate].
    injection E as <-. destruct (IH rest eq_refl) as [ia [ib [-> [Eb ->]]]].
    exists (item :: ia), ib. auto.
Qed.

(** A pattern that still asks for a character does not match at the end of
    the input. *)
Lemma match_here_at_end (regex : list pattern_item) (c : ascii) :
  In (Literal c) regex -> match_here regex EmptyString = None.
Proof.
  induction regex as [| item items IH]; [contradiction |].
  intros [-> | H]; [reflexivity |].
  destruct item; cbn [match_here]; [reflexivity | auto].
Qed.

(** The pattern of a keyword that starts with a dollar sign asks for the
    end of the input right after the opening quote, and for more
    characters after that: it matches nowhere. *)
Lemma dollar_pattern_never_matches (keyword : string) (regex : list pattern_item) :
  startsWith_dollar keyword = true ->
  RegExp (quoted keyword) = Some regex ->
  forall input, match_here regex input = None.
Proof.
  intros Hd E input. unfold startsWith_dollar in Hd.
  destruct keyword as [| c rest]; [discriminate |].
  cbn [String.prefix] in Hd.
  destruct (Ascii.ascii_dec "$" c) as [<- | Hne]; [| discriminate].
  unfold quoted in E. cbn [append RegExp pattern_item_of] in E.
  change (Ascii.eqb double_quote "$") with false in E.
  change (Ascii.eqb "$" "$") with true in E.
  change (is_alphanumeric double_quote || Ascii.eqb double_quote double_quote)
    with true in E.
  destruct (RegExp (rest ++ String double_quote "")) as [items |] eqn:Er;
    [| discriminate].
  injection E as <-.
  apply RegExp_app in Er. destruct Er as [ia [ib [_ [Eb ->]]]].
  cbn in Eb. injection Eb as <-.
  destruct input as [| d input']; cbn [match_here]; [reflexivity |].
  destruct (Ascii.eqb double_quote d); [| reflexivity].
  destruct input'; [| reflexivity].
  rewrite (match_here_at_end (ia ++ [Literal double_quote]) double_quote);
    [reflexivity |].
  apply in_or_app. right. left. reflexivity.
Qed.

Lemma replace_without_match (regex : list pattern_item) (replacement input : string) :
  (forall text, match_here regex text = None) ->
  replace regex replacement 0 input = input.
Proof.
  intro H. induction input as [| c rest IH]; cbn [replace]; [reflexivity |].
  rewrite H, IH. reflexivity.
Qed.

Lemma highlight_keyword_dollar (json_string keyword : string) :
  startsWith_dollar keyword = true ->
  highlight_keyword json_string keyword
  = if readable keyword then Some json_string else None.
Proof.
  intro Hd. unfold highlight_keyword, readable.
  destruct (RegExp (quoted keyword)) as [regex |] eqn:E; [| reflexivity].
  destruct (has_double_dollar keyword); [reflexivity |]. cbn [negb].
  rewrite replace_without_match; [reflexivity |].
  apply (dollar_pattern_never_matches keyword); assumption.
Qed.

Lemma catalog_readable : forallb readable not_supported_keywords = true.
Proof. vm_compute. reflexivity. Qed.

Lemma alphanumeric_not_dollar (c : ascii) :
  is_alphanumeric c = true -> Ascii.eqb c "$" = false.
Proof.
  intro H. destruct (Ascii.eqb c "$") eqn:E; [| reflexivity].
  apply Ascii.eqb_eq in E. subst c. discriminate.
Qed.

Lemma RegExp_plain (text tail : string) (items : list pattern_item) :
  plain_keyword text = true ->
  RegExp tail = Some items ->
  RegExp (text ++ tail) = Some (literally text ++ items).
Proof.
  intros H E. induction text as [| c rest IH]; cbn [append literally app RegExp].
  - assumption.
  - unfold plain_keyword in H. cbn [all_characters] in H.
    apply andb_true_iff in H. destruct H as [Hc Hrest].
    rewrite (IH Hrest). unfold pattern_item_of.
    rewrite (alphanumeric_not_dollar c Hc), Hc. reflexivity.
Qed.

Lemma plain_no_double_dollar (keyword : string) :
  plain_keyword keyword = true -> has_double_dollar keyword = false.
Proof.
  induction keyword as [| c rest IH]; [reflexivity |].
  unfold plain_keyword. cbn [all_characters]. intro H.
  apply andb_true_iff in H. destruct H as [Hc Hrest].
  assert (Hne : c <> "$"%char).
  { intros ->. discriminate. }
  specialize (IH Hrest).
  destruct c as [[] [] [] [] [] [] [] []];
    try (exfalso; apply Hne; reflexivity); exact IH.
Qed.

Lemma match_here_literally (text input : string) (items : list pattern_item) :
  match_here (literally text ++ items) (text ++ input)
  = option_map (Nat.add (String.length text)) (match_here items input).
Proof.
  induction text as [| c rest IH];
    cbn [literally app append match_here String.length].
  - destruct (match_here items input); reflexivity.
  - rewrite Ascii.eqb_refl, IH.
    destruct (match_here items input); reflexivity.
Qed.

Lemma replace_skip (regex : list pattern_item) (replacement text input : string) :
  replace regex replacement (String.length text) (text ++ input)
  = replace regex replacement 0 input.
Proof.
  induction text as [| c rest IH]; cbn [String.length append]; [reflexivity |].
  cbn [replace]. exact IH.
Qed.

Lemma replace_without_quote (items : list pattern_item)
    (replacement text input : string) :
  without_quote text = true ->
  replace (Literal double_quote :: items) replacement 0 (text ++ input)
  = (text ++ replace (Literal double_quote :: items) replacement 0 input)%string.
Proof.
  induction text as [| c rest IH]; intro H; cbn [append]; [reflexivity |].
  unfold without_quote in H. cbn [all_characters] in H.
  apply andb_true_iff in H. destruct H as [Hc Hrest].
  cbn [replace match_here].
  rewrite Ascii.eqb_sym in Hc. apply negb_true_iff in Hc. rewrite Hc.
  rewrite (IH Hrest). reflexivity.
Qed.

Lemma replace_quoted (keyword replacement after : string) :
  replace (Literal double_quote :: literally keyword ++ [Literal double_quote])
    replacement 0 (quoted keyword ++ after)
  = (replacement
       ++ replace
            (Literal double_quote
               :: literally keyword ++ [Literal double_quote])
            replacement 0 after)%string.
Proof.
  unfold quoted. cbn [append replace match_here]. rewrite Ascii.eqb_refl.
  assert (E : ((keyword ++ String double_quote "") ++ after
               = keyword ++ String double_quote after)%string)
    by (rewrite append_assoc; reflexivity).
  rewrite E, match_here_literally. cbn [match_here].
  rewrite Ascii.eqb_refl. cbn [option_map].
  assert (L : (String.length keyword + 1)%nat
              = String.length (keyword ++ String double_quote "")).
  { clear. induction keyword as [| c rest IH]; cbn [append String.length];
      [reflexivity | rewrite <- IH; reflexivity]. }
  rewrite L, <- E, replace_skip. reflexivity.
Qed.

Lemma highlight_plain_keyword (keyword before after : string) :
  plain_keyword keyword = true ->
  without_quote before = true ->
  without_quote after = true ->
  highlight_not_supported (before ++ quoted keyword ++ after) [keyword]
  = Some (before ++ "<strong>" ++ quoted keyword ++ "</strong>" ++ after)%string.
Proof.
  intros Hk Hb Ha. cbn [highlight_not_supported]. unfold highlight_keyword.
  assert (Er : RegExp (quoted keyword)
               = Some (Literal double_quote
                         :: literally keyword ++ [Literal double_quote])).
  { unfold quoted. cbn [RegExp].
    rewrite (RegExp_plain keyword (String double_quote "")
               [Literal double_quote] Hk eq_refl).
    reflexivity. }
  rewrite Er, (plain_no_double_dollar keyword Hk).
  set (replacement := ("<strong>" ++ quoted keyword ++ "</strong>")%string).
  rewrite replace_without_quote by assumption.
  rewrite replace_quoted.
  rewrite <- (append_empty_r after) at 1.
  rewrite replace_without_quote by assumption.
  cbn [replace]. rewrite append_empty_r.
  subst replacement. rewrite !append_assoc. reflexivity.
Qed.

(** X8. [highlight_not_supported] marks none of the operators it is given:
    for keywords that start with a dollar sign the text comes back
    unchanged, so the text of an entry comes back unchanged for the
    [command_category] that [analyze_keywords] stores with it.  A keyword
    of letters and digits is marked where it stands in double quotes
    between two texts that hold no double quote; the example text shows
    both. *)
Theorem highlight_marks_no_operator (json_string : string) :
  (forall keywords result,
     (forall keyword, In keyword keywords -> startsWith_dollar keyword = true) ->
     highlight_not_supported json_string keywords = Some result ->
     result = json_string)
  /\ (forall keywords,
        (forall keyword, In keyword keywords ->
                         In keyword not_supported_keywords) ->
        highlight_not_supported json_string keywords = Some json_string)
  /\ (forall entry,
        highlight_not_supported json_string (triggers entry)
        = Some json_string)
  /\ (forall keyword before after,
        plain_keyword keyword = true ->
        without_quote before = true ->
        without_quote after = true ->
        highlight_not_supported (before ++ quoted keyword ++ after) [keyword]
        = Some (before ++ "<strong>" ++ quoted keyword ++ "</strong>"
                  ++ after)%string)
  /\ highlight_not_supported lookup_text ["$lookup"%string] = Some lookup_text
  /\ highlight_not_supported lookup_text ["from"%string]
     = Some ("{" ++ quoted "$lookup" ++ ": {<strong>" ++ quoted "from"
                 ++ "</strong>: " ++ quoted "items" ++ "}}")%string.
Proof.
  assert (A : forall keywords result,
             (forall keyword, In keyword keywords ->
                              startsWith_dollar keyword = true) ->
             highlight_not_supported json_string keywords = Some result ->
             result = json_string).
  { induction keywords as [| keyword rest IH]; intros result Hd E;
      cbn [highlight_not_supported] in E.
    - congruence.
    - rewrite highlight_keyword_dollar in E by (apply Hd; left; reflexivity).
      destruct (readable keyword); [| discriminate].
      apply IH; [intros k Hk; apply Hd; right; assumption | assumption]. }
  assert (B : forall keywords,
             (forall keyword, In keyword keywords ->
                              In keyword not_supported_keywords) ->
             highlight_not_supported json_string keywords = Some json_string).
  { induction keywords as [| keyword rest IH]; intro Hc;
      cbn [highlight_not_supported]; [reflexivity |].
    assert (Hk : In keyword not_supported_keywords) by (apply Hc; left; reflexivity).
    rewrite highlight_keyword_dollar by (apply not_supported_shape; assumption).
    pose proof catalog_readable as R. rewrite forallb_forall in R.
    rewrite (R keyword Hk). apply IH. intros k H. apply Hc. right. assumption. }
  split; [exact A |]. split; [exact B |]. split; [| split].
  - intro entry. apply B. intros keyword H. apply triggers_spec in H. tauto.
  - apply highlight_plain_keyword.
  - split; reflexivity.
Qed.

(** * More about the sizing estimator *)

Lemma ceiling_bounds (x : Q) :
  x <= inject_Z (Qceiling x) /\ inject_Z (Qceiling x) - 1 < x.
Proof.
  split; [apply Qle_ceiling |].
  pose proof (Qceiling_lt x) as H.
  unfold Zminus in H. rewrite inject_Z_plus in H. exact H.
Qed.

Lemma ops_per_sec_finite (oc : Opcounters) (uptime_seconds ops_per_core : option Q) :
  exists rate,
    ops_per_sec (calculate_cpu_cores oc uptime_seconds ops_per_core) = Num rate
    /\ cpu_cores (calculate_cpu_cores oc uptime_seconds ops_per_core)
       = Math_ceil (Num rate / Num (ops_per_core_value ops_per_core))%js.
Proof.
  unfold calculate_cpu_cores. cbn [ops_per_sec cpu_cores].
  fold (ops_per_core_value ops_per_core).
  assert (T : exists t,
             (insert oc + query oc + update oc + delete oc + getmore oc
              + command oc
              + match deprecated oc with
                | Some d => Num (deprecated_query d)
                | None => Num 0
                end)%js = Num t).
  { destruct (deprecated oc); cbn [js_add]; eexists; reflexivity. }
  destruct T as [t ->].
  destruct uptime_seconds as [u |]; cbn [ToNumber js_gt].
  - destruct (Qlt_bool 0 u) eqn:Eu.
    + apply Qlt_bool_iff in Eu. rewrite js_div_finite.
      * eexists. split; reflexivity.
      * intro Hz. rewrite Hz in Eu. discriminate.
    + eexists. split; reflexivity.
  - eexists. split; reflexivity.
Qed.

(** X9. For a positive [ops_per_core] (1500 when the parameter is left
    out), [cpu_cores] is the least whole number of cores whose capacity
    covers [ops_per_sec]: that many cores reach the rate, one core fewer
    does not. *)
Theorem cpu_cores_least_cover
    (oc : Opcounters) (uptime_seconds ops_per_core : option Q) :
  0 < ops_per_core_value ops_per_core ->
  let r := calculate_cpu_cores oc uptime_seconds ops_per_core in
  exists (rate : Q) (cores : Z),
    ops_per_sec r = Num rate
    /\ cpu_cores r = Num (inject_Z cores)
    /\ rate <= inject_Z cores * ops_per_core_value ops_per_core
    /\ (inject_Z cores - 1) * ops_per_core_value ops_per_core < rate.
Proof.
  intro Hpos. cbv zeta.
  destruct (ops_per_sec_finite oc uptime_seconds ops_per_core) as [rate [Er Ec]].
  set (v := ops_per_core_value ops_per_core) in *.
  assert (Hnz : ~ v == 0) by (intro Hz; rewrite Hz in Hpos; discriminate).
  rewrite js_div_finite in Ec by assumption. cbn [Math_ceil] in Ec.
  exists rate, (Qceiling (rate / v)). split; [assumption |]. split; [assumption |].
  destruct (ceiling_bounds (rate / v)) as [Hle Hlt].
  assert (Hr : rate / v * v == rate) by (field; assumption).
  split.
  - eapply Qle_trans;
      [| apply Qmult_le_compat_r; [exact Hle | apply Qlt_le_weak; assumption]].
    rewrite Hr. apply Qle_refl.
  - eapply Qlt_le_trans;
      [apply Qmult_lt_compat_r; [assumption | exact Hlt] |].
    rewrite Hr. apply Qle_refl.
Qed.

Lemma cpu_cores_least_cover_witness :
  0 < ops_per_core_value None
  /\ let r := calculate_cpu_cores opcounters_with_deprecated (Some 370) None in
     exists (rate : Q) (cores : Z),
       ops_per_sec r = Num rate
       /\ cpu_cores r = Num (inject_Z cores)
       /\ rate <= inject_Z cores * ops_per_core_value None
       /\ (inject_Z cores - 1) * ops_per_core_value None < rate.
Proof.
  split.
  - reflexivity.
  - exact (cpu_cores_least_cover opcounters_with_deprecated (Some 370) None
             eq_refl).
Defined.

(** ** Headroom *)

Lemma total_over_not_negative (size : DbStats -> option Q)
    (db_stats : list (string * DbStats)) :
  Forall (fun entry => 0 <= size_or_zero (size (snd entry))) db_stats ->
  0 <= total_over size db_stats.
Proof.
  unfold total_over. induction 1 as [| entry rest Hentry _ IH];
    cbn [map fold_right]; [apply Qle_refl |].
  lra.
Qed.

Lemma ceiling_of_scaled (x factor : Q) :
  0 <= x -> 1 <= factor ->
  x <= inject_Z (Qceiling (x * factor))
  /\ inject_Z (Qceiling (x * factor)) < x * factor + 1.
Proof.
  intros Hx Hf. destruct (ceiling_bounds (x * factor)) as [Hle Hlt].
  split; [| lra].
  apply Qle_trans with (x * factor); [| assumption].
  setoid_replace x with (x * 1) at 1 by ring.
  rewrite (Qmult_comm x 1), (Qmult_comm x factor).
  apply Qmult_le_compat_r; assumption.
Qed.

(** X10. When no size is negative, no recommendation is below what was
    measured and none exceeds the measurement with its headroom by a whole
    unit: [memory_required_mb] is a whole number between the working set
    and one and a half times the working set plus 1, and
    [storage_required_bytes] one between the sum of [totalSize] and 1.2
    times that sum plus 1. *)
Theorem recommendations_cover_measurements
    (mem_stats : option json) (db_stats : list (string * DbStats)) :
  sizes_not_negative db_stats ->
  let m := calculate_memory_requirements mem_stats (Some db_stats) in
  (exists (working_set : Q) (required : Z),
     working_set_size_mb m = Num working_set
     /\ memory_required_mb m = Num (inject_Z required)
     /\ 0 <= working_set
     /\ working_set <= inject_Z required
     /\ inject_Z required < working_set * (3 # 2) + 1)
  /\ (exists required : Z,
        calculate_storage_requirements (Some db_stats) = Num (inject_Z required)
        /\ total_over totalSize db_stats <= inject_Z required
        /\ inject_Z required < total_over totalSize db_stats * (6 # 5) + 1).
Proof.
  intro H. cbv zeta.
  assert (Hd : 0 <= total_over dataSize db_stats).
  { apply total_over_not_negative. eapply Forall_impl; [| exact H].
    cbv beta. tauto. }
  assert (Hi : 0 <= total_over indexSize db_stats).
  { apply total_over_not_negative. eapply Forall_impl; [| exact H].
    cbv beta. tauto. }
  assert (Ht : 0 <= total_over totalSize db_stats).
  { apply total_over_not_negative. eapply Forall_impl; [| exact H].
    cbv beta. tauto. }
  split.
  - destruct (calculate_memory_requirements_value mem_stats db_stats)
      as [w [Hw ->]].
    cbn [working_set_size_mb memory_required_mb].
    assert (H0 : 0 <= w).
    { rewrite Hw. apply Qle_shift_div_l; [reflexivity | lra]. }
    exists w, (Qceiling (w * (3 # 2))).
    split; [reflexivity |]. split; [reflexivity |]. split; [assumption |].
    apply ceiling_of_scaled; [assumption | discriminate].
  - rewrite calculate_storage_requirements_value.
    exists (Qceiling (total_over totalSize db_stats * (6 # 5))).
    split; [reflexivity |].
    apply ceiling_of_scaled; [assumption | discriminate].
Qed.

Lemma example_sizes_not_negative : sizes_not_negative example_db_stats.
Proof. repeat constructor; discriminate. Defined.

Lemma recommendations_cover_measurements_witness :
  sizes_not_negative example_db_stats
  /\ let m := calculate_memory_requirements None (Some example_db_stats) in
     (exists (working_set : Q) (required : Z),
        working_set_size_mb m = Num working_set
        /\ memory_required_mb m = Num (inject_Z required)
        /\ 0 <= working_set
        /\ working_set <= inject_Z required
        /\ inject_Z required < working_set * (3 # 2) + 1)
     /\ (exists required : Z,
           calculate_storage_requirements (Some example_db_stats)
           = Num (inject_Z required)
           /\ total_over totalSize example_db_stats <= inject_Z required
           /\ inject_Z required
              < total_over totalSize example_db_stats * (6 # 5) + 1).
Proof.
  split.
  - exact example_sizes_not_negative.
  - exact (recommendations_cover_measurements None example_db_stats
             example_sizes_not_negative).
Defined.

(** X11. For a number of connections that is not negative,
    [calculate_connection_limits] returns the least whole number that is at
    least one and a half times that number; it is never below the number
    itself. *)
Theorem connection_limit_least (current_connections : Q) :
  0 <= current_connections ->
  exists limit : Z,
    calculate_connection_limits current_connections = Num (inject_Z limit)
    /\ current_connections * (3 # 2) <= inject_Z limit
    /\ inject_Z limit - 1 < current_connections * (3 # 2)
    /\ current_connections <= inject_Z limit.
Proof.
  intro H. exists (Qceiling (current_connections * (3 # 2))).
  split; [reflexivity |].
  destruct (ceiling_bounds (current_connections * (3 # 2))) as [Hle Hlt].
  split; [assumption |]. split; [assumption |].
  apply ceiling_of_scaled; [assumption | discriminate].
Qed.

Lemma connection_limit_least_witness :
  0 <= 12
  /\ exists limit : Z,
       calculate_connection_limits 12 = Num (inject_Z limit)
       /\ 12 * (3 # 2) <= inject_Z limit
       /\ inject_Z limit - 1 < 12 * (3 # 2)
       /\ 12 <= inject_Z limit.
Proof.
  split.
  - discriminate.
  - exact (connection_limit_least 12 ltac:(discriminate)).
Defined.

(** ** What [perform_sizing] needs *)

(** X12. On a file as loaded, [perform_sizing] returns exactly when every
    sub-document it reads a property of is a record: [opcounters],
    [network], [connections] and the statistics of each database of
    [db_stats]; when one of them is absent or [null] it throws a
    [TypeError].  [uptimeSeconds], [mem], [memory] and [db_stats] itself
    may be absent, the last also [null]. *)
Theorem perform_sizing_needs_records (metrics : MetricsFile.t)
    (db_stats : MetricsFile.property (list (string * MetricsFile.property DbStats))) :
  ((exists sizing, Loaded.perform_sizing metrics db_stats = Normal sizing) <->
   sizing_readable metrics db_stats)
  /\ (Loaded.perform_sizing metrics db_stats = Throw TypeError <->
      ~ sizing_readable metrics db_stats)
  /\ (sizing_readable metrics db_stats <->
      (exists oc, MetricsFile.opcounters metrics = MetricsFile.document oc)
      /\ (exists net, MetricsFile.network metrics = MetricsFile.document net)
      /\ (exists conn,
            MetricsFile.connections metrics = MetricsFile.document conn)
      /\ forall entries db stats,
           db_stats = MetricsFile.document entries ->
           In (db, stats) entries ->
           stats <> MetricsFile.null /\ stats <> MetricsFile.undefined).
Proof.
  split; [| split].
  - destruct (perform_sizing_readable metrics db_stats)
      as [[Hr [sizing E]] | [Hn E]].
    + split; [intros _; assumption | intros _; exists sizing; assumption].
    + split; [intros [sizing E']; congruence | intro H; contradiction].
  - destruct (perform_sizing_readable metrics db_stats)
      as [[Hr [sizing E]] | [Hn E]].
    + split; [intro E'; congruence | intro H; contradiction].
    + split; [intros _; assumption | intros _; assumption].
  - unfold sizing_readable, is_record.
    split; intros [Ho [Hn [Hc He]]];
      (split; [assumption |]; split; [assumption |]; split; [assumption |]).
    + intros entries db stats E Hin. specialize (He entries E).
      rewrite Forall_forall in He. destruct (He _ Hin) as [a Ha].
      cbn [snd] in Ha. subst stats. split; discriminate.
    + intros entries E. apply Forall_forall. intros [db stats] Hin.
      cbn [snd]. destruct (He entries db stats E Hin) as [Hnull Hundef].
      destruct stats as [| | a]; [contradiction | contradiction |].
      exists a. reflexivity.
Qed.

(** X13. A snapshot whose [uptimeSeconds] is absent, zero or negative is
    sized with 0 operations per second, 0 cores and 0 MB per second,
    whatever its counters and byte totals are. *)
Theorem sizing_without_uptime
    (metrics : Metrics) (db_stats : option (list (string * DbStats)))
    (sizing : SizingResult) :
  perform_sizing metrics db_stats = Normal sizing ->
  (forall uptime, uptimeSeconds metrics = Some uptime -> uptime <= 0) ->
  num_eq (Operations_per_Second sizing) (Num 0)
  /\ CPU_Cores_Required sizing = Num 0
  /\ num_eq (Network_Bandwidth_Required sizing) (Num 0).
Proof.
  unfold perform_sizing. intros E Hu.
  destruct (opcounters metrics) as [oc |]; cbn [property_of bind] in E;
    [| discriminate].
  destruct (network metrics) as [net |]; cbn [property_of bind] in E;
    [| discriminate].
  destruct (connections metrics) as [conn |]; cbn [property_of bind] in E;
    [| discriminate].
  injection E as <-.
  cbn [Operations_per_Second CPU_Cores_Required Network_Bandwidth_Required].
  assert (G : (ToNumber (uptimeSeconds metrics) > 0)%js = false).
  { destruct (uptimeSeconds metrics) as [u |]; cbn [ToNumber js_gt];
      [| reflexivity].
    apply Qlt_bool_false. apply Hu. reflexivity. }
  unfold calculate_cpu_cores, calculate_network_bandwidth.
  cbn [ops_per_sec cpu_cores]. rewrite G.
  repeat split; reflexivity.
Qed.

Lemma sizing_without_uptime_witness :
  exists sizing,
    perform_sizing example_metrics_idle None = Normal sizing
    /\ (forall uptime,
          uptimeSeconds example_metrics_idle = Some uptime -> uptime <= 0)
    /\ num_eq (Operations_per_Second sizing) (Num 0)
    /\ CPU_Cores_Required sizing = Num 0
    /\ num_eq (Network_Bandwidth_Required sizing) (Num 0).
Proof.
  assert (H : forall uptime,
             uptimeSeconds example_metrics_idle = Some uptime -> uptime <= 0).
  { intros uptime E. injection E as <-. discriminate. }
  eexists. split; [reflexivity |]. split; [exact H |].
  exact (sizing_without_uptime example_metrics_idle None _ eq_refl H).
Defined.

(** * Properties of the sessions and of the modes *)

(** ** Scripts *)

Lemma and_then_assoc {A B C : Type} (s : script A) (k : A -> script B)
    (h : B -> script C) :
  and_then (and_then s k) h = and_then s (fun a => and_then (k a) h).
Proof.
  unfold and_then. destruct s as [tr [a | e]]; cbn [fst snd]; [| reflexivity].
  destruct (k a) as [tr' [b | e]]; cbn [fst snd]; [| reflexivity].
  rewrite app_assoc. reflexivity.
Qed.

Lemma and_then_events {A B : Type} (s : script A) (k : A -> script B)
    (e : event) :
  In e (fst (and_then s k)) ->
  In e (fst s) \/ exists a, snd s = Normal a /\ In e (fst (k a)).
Proof.
  unfold and_then. destruct s as [tr [a | err]]; cbn [fst snd]; [| tauto].
  intro H. apply in_app_or in H. destruct H as [H | H]; [tauto |].
  right. exists a. auto.
Qed.

Lemma output_not_close (effects : list effect) :
  ~ In client_close (map output effects).
Proof.
  intro H. apply in_map_iff in H. destruct H as [e [E _]]. discriminate.
Qed.

Lemma for_of_databases_silent (client : Session) (databases : list string) :
  forall dbStats, fst (for_of_databases client databases dbStats) = [].
Proof.
  induction databases as [| name rest IH]; intro acc; cbn [for_of_databases].
  - reflexivity.
  - unfold and_then, await. cbn [fst snd].
    destruct (dbStats_command client name) as [stats | e]; cbn [fst snd app].
    + apply IH.
    + reflexivity.
Qed.

Lemma for_of_databases_returns (client : Session) (databases : list string) :
  forall acc,
    (exists r, snd (for_of_databases client databases acc) = Normal r)
    <-> Forall
          (fun name => exists stats, dbStats_command client name = Normal stats)
          databases.
Proof.
  induction databases as [| name rest IH]; intro acc; cbn [for_of_databases].
  - split; [constructor | intros _; eexists; reflexivity].
  - unfold and_then, await. cbn [fst snd].
    destruct (dbStats_command client name) as [stats | e] eqn:E;
      cbn [fst snd].
    + rewrite IH. split.
      * intro H. constructor; [exists stats; assumption | assumption].
      * intro H. inversion H. assumption.
    + split; [intros [r H]; discriminate |].
      intro H. inversion H as [| ? ? [stats Hs] ?]. congruence.
Qed.

(** ** Collecting the metrics *)

Ltac run_collection client :=
  unfold collection_succeeds, and_then, await, emit, log;
  cbn [fst snd];
  destruct (serverStatus_command client) as [status | e] eqn:Es;
    cbn [fst snd app];
    [| right; exists e; split; [reflexivity |];
       intros [st [dbs [H _]]]; discriminate];
  destruct (listDatabases client) as [databases | e] eqn:El;
    cbn [fst snd app];
    [| right; exists e; split; [reflexivity |];
       intros [st [dbs [_ [H _]]]]; discriminate];
  pose proof (for_of_databases_silent client databases []) as Hq;
  pose proof (for_of_databases_returns client databases []) as Hr;
  destruct (for_of_databases client databases []) as [tr [dbs | e]];
    cbn [fst snd app] in *; subst tr;
    [left; exists status, databases, dbs;
     split; [reflexivity |]; split; [reflexivity |];
     split; [apply Hr; eexists; reflexivity | reflexivity]
    | right; exists e; split; [reflexivity |];
      intros [st [names [_ [H Hall]]]];
      injection H as <-; apply Hr in Hall; destruct Hall as [r Hall];
      discriminate].

Lemma collect_lifetime_metrics_run (client : Session) (output_file : string) :
  (exists status databases dbs,
     serverStatus_command client = Normal status
     /\ listDatabases client = Normal databases
     /\ Forall
          (fun name => exists stats, dbStats_command client name = Normal stats)
          databases
     /\ collect_lifetime_metrics client output_file
        = ([write_metrics output_file
              {| opcounters := serverStatus.opcounters status;
                 uptimeSeconds := serverStatus.uptime status;
                 connections := serverStatus.connections status;
                 mem := serverStatus.mem status;
                 memory := None;
                 network := serverStatus.network status;
                 dbStats := Some dbs |};
            output
              (console_log
                 ("Metrics collected and saved to '" ++ output_file ++ "'.")%string)],
           Normal tt))
  \/ (exists e,
        collect_lifetime_metrics client output_file = ([], Throw e)
        /\ ~ collection_succeeds client).
Proof. unfold collect_lifetime_metrics. run_collection client. Qed.

Lemma original_collect_lifetime_metrics_run
    (client : Session) (output_file : string) :
  (exists status databases dbs,
     serverStatus_command client = Normal status
     /\ listDatabases client = Normal databases
     /\ Forall
          (fun name => exists stats, dbStats_command client name = Normal stats)
          databases
     /\ MongoAssessScript.collect_lifetime_metrics client output_file
        = ([write_metrics output_file
              {| opcounters := serverStatus.opcounters status;
                 uptimeSeconds := serverStatus.uptime status;
                 connections := serverStatus.connections status;
                 mem := None;
                 memory := serverStatus.mem status;
                 network := serverStatus.network status;
                 dbStats := Some dbs |};
            output
              (console_log
                 ("Metrics collected and saved to '" ++ output_file ++ "'.")%string)],
           Normal tt))
  \/ (exists e,
        MongoAssessScript.collect_lifetime_metrics client output_file
        = ([], Throw e)
        /\ ~ collection_succeeds client).
Proof.
  unfold MongoAssessScript.collect_lifetime_metrics. run_collection client.
Qed.

Lemma all_or_nothing_of_run (client : Session) (output_file : string)
    (run : script unit) :
  (exists metrics,
     collection_succeeds client
     /\ run
        = ([write_metrics output_file metrics;
            output
              (console_log
                 ("Metrics collected and saved to '" ++ output_file ++ "'.")%string)],
           Normal tt))
  \/ (exists e, run = ([], Throw e) /\ ~ collection_succeeds client) ->
  all_or_nothing client output_file run.
Proof.
  intros [[metrics [Hs E]] | [e [E Hn]]]; unfold all_or_nothing; rewrite E.
  - split; split.
    + intros _. exists metrics. reflexivity.
    + intros _. assumption.
    + intro H. contradiction.
    + intros [e H]. discriminate.
  - split; split.
    + intro H. contradiction.
    + intros [metrics H]. discriminate.
    + intros _. exists e. reflexivity.
    + intros _. assumption.
Qed.

(** X15. A collection is all or nothing, in the enhanced script and in the
    original one: when the [serverStatus] request, the list of databases
    and the [dbStats] request of every listed database succeed, the
    snapshot is written and that is logged; when any of them fails,
    nothing is written or logged and the call throws. *)
Theorem collection_all_or_nothing (client : Session) (output_file : string) :
  all_or_nothing client output_file
    (collect_lifetime_metrics client output_file)
  /\ all_or_nothing client output_file
       (MongoAssessScript.collect_lifetime_metrics client output_file).
Proof.
  split; apply all_or_nothing_of_run.
  - destruct (collect_lifetime_metrics_run client output_file)
      as [[status [databases [dbs [Es [El [Hall E]]]]]] | H]; [| right; exact H].
    left. eexists. split; [| exact E]. exists status, databases. auto.
  - destruct (original_collect_lifetime_metrics_run client output_file)
      as [[status [databases [dbs [Es [El [Hall E]]]]]] | H]; [| right; exact H].
    left. eexists. split; [| exact E]. exists status, databases. auto.
Qed.

(** ** From the collection to the sizing *)

Lemma missing_fields_reject (metrics : Metrics) (base_name timestamp : string)
    (field : string) :
  In field (missing_fields metrics) ->
  mode_7 metrics base_name timestamp
  = Normal
      [console_log
         ("Metrics JSON file is missing required fields: "
            ++ String.concat ", " (missing_fields metrics))%string].
Proof.
  intro H. unfold mode_7.
  destruct (missing_fields metrics) as [| f rest]; [contradiction | reflexivity].
Qed.

(** X16. A snapshot written by the original script is never sized: it
    holds the memory document as [memory], so mode 7 finds [mem] missing,
    logs the rejection naming it and writes no report, whatever the server
    reported. *)
Theorem original_snapshot_rejected
    (client : Session) (output_file : string) (metrics : Metrics)
    (base_name timestamp : string) :
  In (write_metrics output_file metrics)
     (fst (MongoAssessScript.collect_lifetime_metrics client output_file)) ->
  In "mem"%string (missing_fields metrics)
  /\ exists rejection,
       mode_7 metrics base_name timestamp = Normal [console_log rejection]
       /\ contains rejection "mem".
Proof.
  intro Hin.
  assert (Hm : In "mem"%string (missing_fields metrics)).
  { destruct (original_collect_lifetime_metrics_run client output_file)
      as [[status [databases [dbs [_ [_ [_ E]]]]]] | [e [E _]]];
      rewrite E in Hin; cbn [fst] in Hin; [| contradiction].
    destruct Hin as [Hin | [Hin | []]]; [| discriminate].
    injection Hin as <-. unfold missing_fields. apply filter_In.
    split; [cbn; tauto | reflexivity]. }
  split; [assumption |].
  eexists. split; [apply (missing_fields_reject _ _ _ _ Hm) |].
  apply contains_after, concat_contains. assumption.
Qed.

Lemma original_snapshot_rejected_witness :
  exists metrics,
    In (write_metrics "metrics.json" metrics)
       (fst (MongoAssessScript.collect_lifetime_metrics example_session
               "metrics.json"))
    /\ In "mem"%string (missing_fields metrics)
    /\ exists rejection,
         mode_7 metrics "metrics" "2024-05-01T10_00_00"
         = Normal [console_log rejection]
         /\ contains rejection "mem".
Proof.
  eexists. split; [left; reflexivity |].
  exact (original_snapshot_rejected example_session "metrics.json" _
           "metrics" "2024-05-01T10_00_00" (or_introl eq_refl)).
Defined.

Lemma snapshot_required (status : serverStatus.reply)
    (dbs : list (string * DbStats)) :
  status_complete status <->
  all_required_present
    {| opcounters := serverStatus.opcounters status;
       uptimeSeconds := serverStatus.uptime status;
       connections := serverStatus.connections status;
       mem := serverStatus.mem status;
       memory := None;
       network := serverStatus.network status;
       dbStats := Some dbs |}.
Proof.
  unfold status_complete, all_required_present. split.
  - intros [Ho [Hu [Hc [Hm Hn]]]] field Hin. cbn in Hin.
    repeat (destruct Hin as [<- | Hin];
            [cbn;
             first
               [ reflexivity
               | match goal with
                 | |- present ?x = true =>
                     destruct x; [reflexivity | contradiction]
                 end ] |]).
    contradiction.
  - intro H.
    assert (P : forall {A : Type} (x : option A), present x = true -> x <> None).
    { intros A x Hx ->. discriminate. }
    repeat split.
    + apply P. apply (H "opcounters"%string). cbn. tauto.
    + apply P. apply (H "uptimeSeconds"%string). cbn. tauto.
    + apply P. apply (H "connections"%string). cbn. tauto.
    + apply P. apply (H "mem"%string). cbn. tauto.
    + apply P. apply (H "network"%string). cbn. tauto.
Qed.

(** X17. A snapshot written by the enhanced script is sized by mode 7
    exactly when the server status had [opcounters], [uptime],
    [connections], [mem] and [network]: then the sizing report is written,
    with the result of [perform_sizing] on the snapshot; otherwise mode 7
    only logs a rejection. *)
Theorem collected_snapshot_sized
    (client : Session) (output_file : string) (metrics : Metrics)
    (base_name timestamp : string) :
  In (write_metrics output_file metrics)
     (fst (collect_lifetime_metrics client output_file)) ->
  exists status,
    serverStatus_command client = Normal status
    /\ (status_complete status ->
        exists sizing,
          perform_sizing metrics (dbStats metrics) = Normal sizing
          /\ mode_7 metrics base_name timestamp
             = Normal
                 [generate_html_report [] [] [] []
                    (sizing_report_name base_name timestamp)
                    (Some metrics) (Some sizing);
                  console_log
                    ("Sizing report has been generated and saved as '"
                       ++ sizing_report_name base_name timestamp
                       ++ "'.")%string])
    /\ (~ status_complete status ->
        exists rejection,
          mode_7 metrics base_name timestamp
          = Normal [console_log rejection]).
Proof.
  intro Hin.
  destruct (collect_lifetime_metrics_run client output_file)
    as [[status [databases [dbs [Es [_ [_ E]]]]]] | [e [E _]]];
    rewrite E in Hin; cbn [fst] in Hin; [| contradiction].
  destruct Hin as [Hin | [Hin | []]]; [| discriminate].
  injection Hin as <-. exists status. split; [assumption |]. split.
  - intro Hc. apply (snapshot_required status dbs) in Hc.
    destruct (perform_sizing_returns _ Hc) as [sizing [Ep _]].
    exists sizing. split; [assumption |].
    unfold mode_7. apply missing_fields_nil in Hc. rewrite Hc.
    cbn [List.length Nat.ltb Nat.leb]. rewrite Ep. reflexivity.
  - intro Hc. unfold mode_7.
    destruct (missing_fields _) as [| f rest] eqn:Em;
      [| eexists; reflexivity].
    exfalso. apply Hc. apply (snapshot_required status dbs).
    apply missing_fields_nil. assumption.
Qed.

Lemma collected_snapshot_sized_witness :
  exists metrics,
    In (write_metrics "metrics.json" metrics)
       (fst (collect_lifetime_metrics example_session "metrics.json"))
    /\ exists status,
         serverStatus_command example_session = Normal status
         /\ (status_complete status ->
             exists sizing,
               perform_sizing metrics (dbStats metrics) = Normal sizing
               /\ mode_7 metrics "metrics" "2024-05-01T10_00_00"
                  = Normal
                      [generate_html_report [] [] [] []
                         (sizing_report_name "metrics" "2024-05-01T10_00_00")
                         (Some metrics) (Some sizing);
                       console_log
                         ("Sizing report has been generated and saved as '"
                            ++ sizing_report_name "metrics"
                                 "2024-05-01T10_00_00"
                            ++ "'.")%string])
         /\ (~ status_complete status ->
             exists rejection,
               mode_7 metrics "metrics" "2024-05-01T10_00_00"
               = Normal [console_log rejection]).
Proof.
  eexists. split; [left; reflexivity |].
  exact (collected_snapshot_sized example_session "metrics.json" _
           "metrics" "2024-05-01T10_00_00" (or_introl eq_refl)).
Defined.

(** ** Closing the client *)

Lemma enable_profiling_open (client : Session) (db_name : string) :
  ~ In client_close (fst (enable_profiling client db_name)).
Proof.
  unfold enable_profiling, and_then, await, log, emit. cbn [fst snd].
  destruct (profile_command client db_name 2); cbn [fst snd app];
    [intros [H | []]; discriminate | intros []].
Qed.

Lemma disable_profiling_open (client : Session) (db_name : string) :
  ~ In client_close (fst (disable_profiling client db_name)).
Proof.
  unfold disable_profiling, and_then, await, log, emit. cbn [fst snd].
  destruct (profile_command client db_name 0); cbn [fst snd app];
    [intros [H | []]; discriminate | intros []].
Qed.

Lemma export_profiling_data_open (client : Session)
    (db_name output_file : string) :
  ~ In client_close (fst (export_profiling_data client db_name output_file)).
Proof.
  unfold export_profiling_data, and_then, await, log, emit. cbn [fst snd].
  destruct (find_toArray client db_name "system.profile"); cbn [fst snd app];
    [intros [H | [H | []]]; discriminate | intros []].
Qed.

Lemma collect_lifetime_metrics_open (client : Session) (output_file : string) :
  ~ In client_close (fst (collect_lifetime_metrics client output_file)).
Proof.
  destruct (collect_lifetime_metrics_run client output_file)
    as [[status [databases [dbs [_ [_ [_ E]]]]]] | [e [E _]]]; rewrite E;
    cbn [fst]; [intros [H | [H | []]]; discriminate | intros []].
Qed.

Lemma original_collect_lifetime_metrics_open
    (client : Session) (output_file : string) :
  ~ In client_close
      (fst (MongoAssessScript.collect_lifetime_metrics client output_file)).
Proof.
  destruct (original_collect_lifetime_metrics_run client output_file)
    as [[status [databases [dbs [_ [_ [_ E]]]]]] | [e [E _]]]; rewrite E;
    cbn [fst]; [intros [H | [H | []]]; discriminate | intros []].
Qed.

(** The pattern of the enhanced modes: connect and work inside [try], log
    what is caught, close in [finally]. *)
Lemma guarded_session_closes (client : Session) (work : script unit)
    (text : string) :
  ~ In client_close (fst work) ->
  closes_client client
    (try_finally
       (try_catch
          (_ <-- await (connect client) ;; work)
          (fun error => emit (console_error text error)))
       (_ <-- emit client_close ;; await (close client))).
Proof.
  intro H. unfold closes_client, try_finally, try_catch, and_then, await, emit.
  cbn [fst snd app].
  destruct (connect client) as [[] | e]; cbn [fst snd app].
  - destruct work as [events [[] | e]]; cbn [fst snd app] in *.
    + exists events. split; [reflexivity |]. split; [assumption |].
      destruct (close client) as [[] | e]; reflexivity.
    + exists (events ++ [console_error text e]).
      split; [reflexivity |]. split.
      * intro Hin. apply in_app_or in Hin.
        destruct Hin as [Hin | [Hin | []]]; [auto | discriminate].
      * destruct (close client) as [[] | e']; reflexivity.
  - exists [console_error text e]. split; [reflexivity |]. split.
    + intros [Hin | []]. discriminate.
    + destruct (close client) as [[] | e']; reflexivity.
Qed.

(** The pattern of the original modes: connect, work, close. *)
Lemma plain_session_closes (client : Session) (work : script unit) :
  ~ In client_close (fst work) ->
  close client = Normal tt ->
  closes_client_on_success
    (_ <-- await (connect client) ;;
     _ <-- work ;;
     _ <-- emit client_close ;;
     await (close client)).
Proof.
  intros H Hc. unfold closes_client_on_success, and_then, await, emit.
  cbn [fst snd app]. rewrite Hc.
  destruct (connect client) as [[] | e]; cbn [fst snd app].
  - destruct work as [events [[] | e]]; cbn [fst snd app] in *.
    + split; [reflexivity |]. intros _. apply in_or_app. right. left.
      reflexivity.
    + split; [contradiction | discriminate].
  - split; [intros [] | discriminate].
Qed.

(** X18. In the enhanced script every mode that opens a client closes it:
    whatever the server answers, the run of mode 1, 2, 3, 4 or 6 calls
    [client.close()] once, as the last thing it does, and completes as
    that call does; no error of a request leaves the mode. *)
Theorem enhanced_modes_close_client
    (client : Session) (db_name output_file : string) :
  closes_client client (mode_1 client db_name)
  /\ closes_client client (mode_2 client db_name)
  /\ closes_client client (mode_3 client db_name)
  /\ closes_client client (mode_4 client db_name output_file)
  /\ closes_client client (mode_6 client output_file).
Proof.
  split; [| split; [| split; [| split]]]; apply guarded_session_closes.
  - apply enable_profiling_open.
  - apply disable_profiling_open.
  - apply output_not_close.
  - apply export_profiling_data_open.
  - apply collect_lifetime_metrics_open.
Qed.

(** X19. In the original script a mode that opens a client closes it only
    when every request succeeds: when [client.close()] itself does not
    fail, the run of mode 1, 2, 3, 4 or 6 calls it exactly when the run
    completes normally; a failed request leaves the mode as an error with
    the client open. *)
Theorem original_modes_leave_client_open
    (client : Session) (db_name output_file : string) :
  close client = Normal tt ->
  closes_client_on_success (MongoAssessScript.mode_1 client db_name)
  /\ closes_client_on_success (MongoAssessScript.mode_2 client db_name)
  /\ closes_client_on_success (MongoAssessScript.mode_3 client db_name)
  /\ closes_client_on_success
       (MongoAssessScript.mode_4 client db_name output_file)
  /\ closes_client_on_success (MongoAssessScript.mode_6 client output_file).
Proof.
  intro Hc. split; [| split; [| split; [| split]]].
  - apply plain_session_closes; [apply enable_profiling_open | assumption].
  - apply plain_session_closes; [apply disable_profiling_open | assumption].
  - unfold MongoAssessScript.mode_3.
    rewrite <- (and_then_assoc (disable_profiling client db_name)
                  (fun _ =>
                     logged (MongoAssess.purge_profiling_data
                               (collections client) db_name))
                  (fun _ => _ <-- emit client_close ;; await (close client))).
    apply plain_session_closes; [| assumption].
    intro Hin. apply and_then_events in Hin.
    destruct Hin as [Hin | [a [_ Hin]]].
    + exact (disable_profiling_open client db_name Hin).
    + exact (output_not_close _ Hin).
  - apply plain_session_closes; [apply export_profiling_data_open | assumption].
  - apply plain_session_closes;
      [apply original_collect_lifetime_metrics_open | assumption].
Qed.

Lemma original_modes_leave_client_open_witness :
  close unreachable_session = Normal tt
  /\ closes_client_on_success (MongoAssessScript.mode_1 unreachable_session "shop")
  /\ closes_client_on_success (MongoAssessScript.mode_2 unreachable_session "shop")
  /\ closes_client_on_success (MongoAssessScript.mode_3 unreachable_session "shop")
  /\ closes_client_on_success
       (MongoAssessScript.mode_4 unreachable_session "shop" "profile.json")
  /\ closes_client_on_success
       (MongoAssessScript.mode_6 unreachable_session "metrics.json").
Proof.
  split.
  - reflexivity.
  - exact (original_modes_leave_client_open unreachable_session "shop"
             "profile.json" eq_refl).
Defined.
